(** * FET measurement: sweep engine, ramp controller and data sink

    A shallow embedding of the measurement core of the repository:

    - [src/FET_Measurement_GUI.py]: [InstrumentController.set_voltage_and_read],
      [InstrumentController.read_current], [DataManager.initialize_csv],
      [DataManager.append_data] and the [MeasurementController] workers
      ([_idvd_measurement_worker], [_idvg_measurement_worker],
      [_set_voltage_gradually], [pause_measurement], [resume_measurement],
      [stop_measurement]); the start handlers of [FETMeasurementGUI] and
      the consumer of the queue ([monitor_data_queue], [update_plots],
      [reset_measurement_buttons], [clear_plot_data]);
      [InstrumentController.initialize_instruments] and [disconnect];
    - [src/original-file/FET_IDVG_2T_Keithley2450.py]: the measurement
      process of the stand-alone ID-VG script.

    Conventions of the embedding.

    - The number of points of a range, [int((to - from) / step) + 1], is
      computed as the program computes it, in IEEE 754 double precision
      ([SpecFloat] of the standard library): the subtraction and the
      division round to the nearest double and [int] truncates.  The
      voltages, currents and delays themselves are exact rationals
      ([Q]); their rounding is not modelled.  Every concrete run of a
      worker below uses integers and dyadic fractions for its voltages
      and delays, on which binary floating point is exact as well,
      unless it is there to exercise the rounding of the count.
    - Python exceptions are values: a computation returns [Val], raises
      ([Exn] with the text of [str(e)]) or is still polling for a resume
      when its budget of polls is used up ([Hang]).
    - The worker thread is sequential.  The instruments are an oracle
      [transport] giving the outcome of the n-th channel call: a
      reading, an exception raised once the commands of the call went
      out, or an exception raised by one of its writes.  The GUI thread
      is an oracle [controller] giving the request, if any, that takes
      effect while the worker is blocked in its n-th blocking call (a
      channel call or a [time.sleep]): Pause, Resume, Stop, or one of
      the Start buttons.  The model follows one worker: of a Start
      button pressed during its run the handler's own changes are kept
      (the CSV sink, the two flags), the thread it may start is not.
    - A CSV file is kept parsed, as pandas sees it: a header and rows.
    - Of the GUI, the data and the state of the controls are kept; the
      rendering calls are left out. *)

From Stdlib Require Import ZArith QArith Qround Ascii String List Lia SpecFloat.
From stdpp Require Import base gmap strings list sorting.
Import ListNotations.

Local Open Scope string_scope.
Local Open Scope Z_scope.

(** ** Results and exceptions *)

Inductive result (A : Type) : Type :=
| Val (a : A)
| Exn (msg : string)
| Hang.
Arguments Val {A} a.
Arguments Exn {A} msg.
Arguments Hang {A}.

(** ** Python and numpy arithmetic *)

Module Py.

(** [a / b] on floats: ZeroDivisionError on a zero divisor. *)
Definition truediv (a b : Q) : result Q :=
  if Qeq_bool b 0 then Exn "float division by zero" else Val (a / b)%Q.

(** [int(x)]: truncation toward zero. *)
Definition int (x : Q) : Z := Z.quot (Qnum x) (Z.pos (Qden x)).

(** Python floats are IEEE 754 binary64 numbers. *)
Definition prec : Z := 53.
Definition emax : Z := 1024.

(** [float(text)] for the decimal text of [q]: the double nearest to
    [q], by one correctly rounded division of its numerator by its
    denominator. *)
Definition float (q : Q) : spec_float :=
  let r := Qred q in
  match Qnum r with
  | Z0 => S754_zero false
  | Zpos n => SFdiv prec emax (S754_finite false n 0) (S754_finite false (Qden r) 0)
  | Zneg n => SFdiv prec emax (S754_finite true n 0) (S754_finite false (Qden r) 0)
  end.

(** The exact value of a finite double. *)
Definition value (x : spec_float) : Q :=
  match x with
  | S754_finite s m e =>
      let n := if s then Z.neg m else Z.pos m in
      match e with
      | Z0 => inject_Z n
      | Zpos p => inject_Z (n * 2 ^ Z.pos p)
      | Zneg p => n # (2 ^ p)
      end
  | _ => 0%Q
  end.

(** [a - b] on floats. *)
Definition float_sub (a b : spec_float) : spec_float := SFsub prec emax a b.

(** [a / b] on floats: ZeroDivisionError on a zero divisor; an
    overflow gives an infinity. *)
Definition float_truediv (a b : spec_float) : result spec_float :=
  match b with
  | S754_zero _ => Exn "float division by zero"
  | _ => Val (SFdiv prec emax a b)
  end.

(** [int(x)] on a float: truncation toward zero; OverflowError on an
    infinity, ValueError on a NaN. *)
Definition float_int (x : spec_float) : result Z :=
  match x with
  | S754_infinity _ => Exn "cannot convert float infinity to integer"
  | S754_nan => Exn "cannot convert float NaN to integer"
  | _ => Val (int (value x))
  end.

(** [np.linspace(start, stop, num)] for [num >= 0] samples: [num]
    evenly spaced samples, [start + i * step] with
    [step = (stop - start) / (num - 1)], the last one overwritten with
    [stop]. *)
Definition linspace_samples (start stop : Q) (num : nat) : list Q :=
  match num with
  | O => []
  | S O => [start]
  | S (S _ as div) =>
      let step := ((stop - start) / inject_Z (Z.of_nat div))%Q in
      map (fun i => (inject_Z (Z.of_nat i) * step + start)%Q) (seq 0 div)
        ++ [stop]
  end.

(** [np.linspace]: ValueError on a negative number of samples. *)
Definition linspace (start stop : Q) (num : Z) : result (list Q) :=
  if num <? 0 then Exn "Number of samples must be non-negative."
  else Val (linspace_samples start stop (Z.to_nat num)).

(** [len(l)] *)
Definition len {A} (l : list A) : Z := Z.of_nat (length l).

(** [os.path.join(a, b)], POSIX flavour. *)
Definition is_abs (p : string) : bool :=
  match p with String "/"%char _ => true | _ => false end.

Fixpoint ends_with_sep (p : string) : bool :=
  match p with
  | EmptyString => false
  | String c EmptyString => Ascii.eqb c "/"%char
  | String _ rest => ends_with_sep rest
  end.

Definition path_join (a b : string) : string :=
  if is_abs b then b
  else if (String.eqb a "" || ends_with_sep a)%bool then a ++ b
  else a ++ "/" ++ b.

End Py.

(** ** Data model *)

(** The two source-measure channels, ['vds'] and ['vg']. *)
Inductive channel : Type := vds | vg.

(** Requests of the GUI thread during a run: [pause_measurement],
    [resume_measurement], [stop_measurement], and one of the two Start
    buttons ([start_idvd_measurement], [start_idvg_measurement] of the
    GUI) pressed with the given directory, file name and measurement
    type.  A start disables its own Start button only. *)
Inductive control : Type :=
| Pause
| Resume
| Stop
| Start (save_dir filename measurement_type : string).

(** A cell of a parsed CSV file. *)
Inductive cell : Type :=
| Num (q : Q)
| Blank
| Text (s : string).

(** A CSV file as [pd.read_csv] returns it and [df.to_csv(index=False)]
    writes it. *)
Record table : Type := Table {
  columns : list string;
  rows : list (list cell);
}.

(** The dictionaries put on the queue by the two workers. *)
Inductive data_point : Type :=
| IdVd (vd ids ig vg_hold progress : Q)
| IdVg (vg_swept ids ig vds_hold progress : Q).

(** Messages of [data_queue]. *)
Inductive message : Type :=
| Data (p : data_point)
| Error (msg : string)
| Complete (msg : string).

(** Chronological log of what happens on the instrument bus, on the
    clock, on the control flags and on the CSV file. *)
Inductive action : Type :=
| SourVolt (c : channel) (v : Q)
| Query (c : channel)
| Sleep (d : Q)
| Request (a : control)
| Append (row : list cell).

(** Outcome of one channel call: a reading; an exception raised once
    every command of the call went out (a read that times out, a
    response that is not a number); or an exception raised by the write
    number [sent], counted from 0, before which [sent] commands went
    out. *)
Inductive reply : Type :=
| Reading (r : Q)
| Fault (msg : string)
| WriteFault (sent : nat) (msg : string).

(** The commands of a call that went out. *)
Definition went_out {A} (r : reply) (cmds : list A) : list A :=
  match r with
  | WriteFault sent _ => take sent cmds
  | _ => cmds
  end.


(** Everything the worker reads and writes. *)
Record world : Type := World {
  is_measuring : bool;
  is_paused : bool;
  clock : nat;
  io_calls : nat;
  trace : list action;
  data_queue : list message;
  csv_file : option string;
  dirs : gset string;
  files : gmap string table;
  current_point : Z;
}.

Definition set_is_measuring (b : bool) (w : world) : world :=
  World b (is_paused w) (clock w) (io_calls w) (trace w) (data_queue w)
        (csv_file w) (dirs w) (files w) (current_point w).
Definition set_is_paused (b : bool) (w : world) : world :=
  World (is_measuring w) b (clock w) (io_calls w) (trace w) (data_queue w)
        (csv_file w) (dirs w) (files w) (current_point w).
Definition set_clock (n : nat) (w : world) : world :=
  World (is_measuring w) (is_paused w) n (io_calls w) (trace w) (data_queue w)
        (csv_file w) (dirs w) (files w) (current_point w).
Definition set_io_calls (n : nat) (w : world) : world :=
  World (is_measuring w) (is_paused w) (clock w) n (trace w) (data_queue w)
        (csv_file w) (dirs w) (files w) (current_point w).
Definition log (a : action) (w : world) : world :=
  World (is_measuring w) (is_paused w) (clock w) (io_calls w) (trace w ++ [a])
        (data_queue w) (csv_file w) (dirs w) (files w) (current_point w).
Definition enqueue (m : message) (w : world) : world :=
  World (is_measuring w) (is_paused w) (clock w) (io_calls w) (trace w)
        (data_queue w ++ [m]) (csv_file w) (dirs w) (files w) (current_point w).
Definition set_csv_file (p : option string) (w : world) : world :=
  World (is_measuring w) (is_paused w) (clock w) (io_calls w) (trace w)
        (data_queue w) p (dirs w) (files w) (current_point w).
Definition set_dirs (d : gset string) (w : world) : world :=
  World (is_measuring w) (is_paused w) (clock w) (io_calls w) (trace w)
        (data_queue w) (csv_file w) d (files w) (current_point w).
Definition set_files (f : gmap string table) (w : world) : world :=
  World (is_measuring w) (is_paused w) (clock w) (io_calls w) (trace w)
        (data_queue w) (csv_file w) (dirs w) f (current_point w).
Definition set_current_point (c : Z) (w : world) : world :=
  World (is_measuring w) (is_paused w) (clock w) (io_calls w) (trace w)
        (data_queue w) (csv_file w) (dirs w) (files w) c.

(** ** The monad of the worker *)

Definition M (A : Type) : Type := world -> result A * world.

Definition ret {A} (a : A) : M A := fun w => (Val a, w).

Definition bind {A B} (c : M A) (k : A -> M B) : M B :=
  fun w =>
    match c w with
    | (Val a, w') => k a w'
    | (Exn e, w') => (Exn e, w')
    | (Hang, w') => (Hang, w')
    end.

Notation "x <- c ;; k" := (bind c (fun x => k))
  (at level 100, c at next level, right associativity).
Notation "c ;; k" := (bind c (fun _ => k))
  (at level 100, right associativity).

Definition raise {A} (msg : string) : M A := fun w => (Exn msg, w).

(** Lift a pure, possibly failing computation. *)
Definition lift {A} (r : result A) : M A := fun w => (r, w).

Definition get {A} (f : world -> A) : M A := fun w => (Val (f w), w).
Definition modify (f : world -> world) : M unit := fun w => (Val tt, f w).

(** [try: body  except Exception as e: handler(str(e))] *)
Definition try_except {A} (body : M A) (handler : string -> M A) : M A :=
  fun w =>
    match body w with
    | (Exn e, w') => handler e w'
    | other => other
    end.

(** [try: body  finally: cleanup], for a cleanup that cannot raise; a
    worker that is still polling has not reached its [finally]. *)
Definition try_finally {A} (body : M A) (cleanup : world -> world) : M A :=
  fun w =>
    match body w with
    | (Hang, w') => (Hang, w')
    | (r, w') => (r, cleanup w')
    end.

(** [for x in l: body(x)], where the body says whether it ran into
    [break]. *)
Inductive loop_exit : Type := Next | Break.

Fixpoint for_each {A} (body : A -> M loop_exit) (l : list A) : M unit :=
  match l with
  | [] => ret tt
  | x :: rest =>
      e <- body x ;;
      match e with
      | Break => ret tt
      | Next => for_each body rest
      end
  end.

Definition hang {A} : M A := fun w => (Hang, w).

(** ** DataManager *)

(** [os.path.exists] *)
Definition path_exists (p : string) (w : world) : bool :=
  bool_decide (p ∈ dirs w) || bool_decide (is_Some (files w !! p)).

(** [os.makedirs] *)
Definition makedirs (p : string) : M unit :=
  modify (fun w => set_dirs ({[p]} ∪ dirs w) w).

(** [df.to_csv(path, index=False)] *)
Definition to_csv (df : table) (path : string) : M unit :=
  modify (fun w => set_files (<[path := df]> (files w)) w).

(** [pd.read_csv(path)] *)
Definition read_csv (p : option string) : M table :=
  fun w =>
    match p with
    | None => (Exn "Invalid file path or buffer object type", w)
    | Some path =>
        match files w !! path with
        | None => (Exn "No such file or directory", w)
        | Some t =>
            match columns t with
            | [] => (Exn "No columns to parse from file", w)
            | _ => (Val t, w)
            end
        end
    end.

(** [pd.DataFrame([data_row], columns=cols)] *)
Definition DataFrame (data_row : list cell) (cols : list string) : result table :=
  if (length cols =? length data_row)%nat then Val (Table cols [data_row])
  else Exn "columns passed do not match the passed data".

(** [pd.concat([df, new_row], ignore_index=True)] *)
Definition concat (df new_row : table) : table :=
  Table (columns df) (rows df ++ rows new_row).

Definition initialize_csv (save_dir filename measurement_type : string) : M string :=
  e <- get (path_exists save_dir) ;;
  (if negb e then makedirs save_dir else ret tt) ;;
  let '(cols, csv_filename) :=
    if String.eqb measurement_type "IDVD"
    then (["VD (V)"; "IDS (A)"; "IG (A)"], filename ++ "-IDVD.csv")
    else (["VG (V)"; "IDS (A)"; "IG (A)"], filename ++ "-IDVG.csv") in
  let path := Py.path_join save_dir csv_filename in
  modify (set_csv_file (Some path)) ;;
  e <- get (path_exists path) ;;
  (if negb e then to_csv (Table cols []) path else ret tt) ;;
  ret path.

Definition append_data (data_row : list Q) : M unit :=
  try_except
    (p <- get csv_file ;;
     df <- read_csv p ;;
     df' <- (if Py.len (rows df) =? 0
             then lift (DataFrame (map Num data_row) (columns df))
             else new_row <- lift (DataFrame (map Num data_row) (columns df)) ;;
                  ret (concat df new_row)) ;;
     match p with
     | Some path => to_csv df' path
     | None => raise "Invalid file path or buffer object type"
     end ;;
     modify (log (Append (map Num data_row))))
    (fun e => raise ("Data save error: " ++ e)).

(** ** Sweep parameters *)

(** [params]: ['vg_range'], ['vds_range'] as [(from, to, step)] and
    ['delays'] (gate then drain for ID-VD, drain then gate for ID-VG). *)
Record params : Type := Params {
  vg_range : Q * Q * Q;
  vds_range : Q * Q * Q;
  delays : Q * Q;
}.

(** [(to - from) / step], on the floats the three entries were read as. *)
Definition sweep_quotient (from to step : Q) : result spec_float :=
  Py.float_truediv (Py.float_sub (Py.float to) (Py.float from)) (Py.float step).

(** [int((to - from) / step) + 1] *)
Definition point_count (from to step : Q) : result Z :=
  match sweep_quotient from to step with
  | Val q =>
      match Py.float_int q with
      | Val n => Val (n + 1)
      | Exn e => Exn e
      | Hang => Hang
      end
  | Exn e => Exn e
  | Hang => Hang
  end.

(** [np.linspace(from, to, int((to - from) / step) + 1)] *)
Definition sweep_values (from to step : Q) : result (list Q) :=
  match point_count from to step with
  | Val n => Py.linspace from to n
  | Exn e => Exn e
  | Hang => Hang
  end.

(** [(current_point / total_points) * 100] on Python ints. *)
Definition progress_pct (current total : Z) : result Q :=
  match Py.truediv (inject_Z current) (inject_Z total) with
  | Val q => Val (q * 100)%Q
  | Exn _ => Exn "division by zero"
  | Hang => Hang
  end.

Section Engine.

(** Outcome of the n-th channel call of the run. *)
Variable transport : nat -> reply.
(** Control request taking effect during the n-th blocking call. *)
Variable controller : nat -> option control.

(** *** MeasurementController: the control surface *)

Definition pause_measurement (w : world) : world := set_is_paused true w.
Definition resume_measurement (w : world) : world := set_is_paused false w.
Definition stop_measurement (w : world) : world :=
  set_is_paused false (set_is_measuring false w).

(** What a handler of the GUI does to the state shared with the
    worker.  A Start button runs [initialize_csv] first; the
    controller then refuses the start while a run is active
    ("Measurement already in progress"), and otherwise raises
    [is_measuring], clears [is_paused] and starts a worker thread.
    That second thread is not part of this model, which follows one
    worker. *)
Definition request (a : control) (w : world) : world :=
  log (Request a)
      match a with
      | Pause => pause_measurement w
      | Resume => resume_measurement w
      | Stop => stop_measurement w
      | Start save_dir filename measurement_type =>
          let w1 := snd (initialize_csv save_dir filename measurement_type w) in
          if is_measuring w1 then w1
          else set_is_paused false (set_is_measuring true w1)
      end.

(** The worker blocks; the GUI thread may run one handler meanwhile. *)
Definition block (w : world) : world :=
  let w' := set_clock (S (clock w)) w in
  match controller (clock w) with
  | Some a => request a w'
  | None => w'
  end.

(** [time.sleep(d)]: ValueError on a negative length. *)
Definition sleep (d : Q) : M unit :=
  fun w =>
    if Qle_bool 0 d then (Val tt, block (log (Sleep d) w))
    else (Exn "sleep length must be non-negative", w).

(** *** InstrumentController *)

(** One channel call: the commands go out, up to a write that
    raises; the worker blocks on the bus, and the transport answers or
    fails. *)
Definition channel_call (cmds : list action) : M Q :=
  fun w =>
    let w' := set_io_calls (S (io_calls w))
                (block (fold_left (fun acc a => log a acc)
                                  (went_out (transport (io_calls w)) cmds) w)) in
    match transport (io_calls w) with
    | Reading r => (Val r, w')
    | Fault msg => (Exn msg, w')
    | WriteFault _ msg => (Exn msg, w')
    end.

(** The [else: raise ValueError] branch is unreachable: [channel] has
    the two instruments only. *)
Definition set_voltage_and_read (instrument : channel) (voltage : Q) : M Q :=
  try_except
    (channel_call [SourVolt instrument voltage; Query instrument])
    (fun e => raise ("Measurement error: " ++ e)).

Definition read_current (instrument : channel) : M Q :=
  try_except
    (channel_call [Query instrument])
    (fun e => raise ("Read error: " ++ e)).

(** *** MeasurementController: the workers *)

(** [for i in range(steps + 1)] of [_set_voltage_gradually]. *)
Fixpoint ramp_loop (instrument : channel) (current_voltage voltage_step delay : Q)
         (steps : Z) (indices : list nat) : M unit :=
  match indices with
  | [] => ret tt
  | i :: rest =>
      let voltage := (current_voltage + inject_Z (Z.of_nat i) * voltage_step)%Q in
      set_voltage_and_read instrument voltage ;;
      d <- lift (Py.truediv delay (inject_Z steps)) ;;
      sleep d ;;
      ramp_loop instrument current_voltage voltage_step delay steps rest
  end.

Definition _set_voltage_gradually (instrument : channel) (target_voltage delay : Q)
  : M unit :=
  try_except
    (let current_voltage : Q :=
       match instrument with
       | vds => 0%Q   (* Assume starting from 0V *)
       | vg => 0%Q
       end in
     if negb (Qeq_bool target_voltage current_voltage) then
       let steps := 10 in
       voltage_step <- lift (Py.truediv (target_voltage - current_voltage)
                                        (inject_Z steps)) ;;
       ramp_loop instrument current_voltage voltage_step delay steps
                 (seq 0 (Z.to_nat (steps + 1)))
     else ret tt)
    (fun e => raise ("Voltage setting error: " ++ e)).

(** [while self.is_paused: time.sleep(0.1); if not self.is_measuring: break] *)
Fixpoint pause_wait (polls : nat) : M unit :=
  p <- get is_paused ;;
  if p then
    match polls with
    | O => hang
    | S n =>
        sleep (1 # 10) ;;
        m <- get is_measuring ;;
        if negb m then ret tt else pause_wait n
    end
  else ret tt.

(** Body of the two inner [for vds in ...] loops of the ID-VD worker. *)
Definition idvd_point (polls : nat) (vg_hold : Q) (total_points : Z) (vds_delay : Q)
           (vds_now : Q) : M loop_exit :=
  m <- get is_measuring ;;
  if negb m then ret Break else
  pause_wait polls ;;
  try_except
    (ids <- set_voltage_and_read vds vds_now ;;
     ig <- read_current vg ;;
     c <- get current_point ;;
     p <- lift (progress_pct c total_points) ;;
     modify (enqueue (Data (IdVd vds_now ids ig vg_hold p))) ;;
     append_data [vds_now; ids; ig] ;;
     modify (set_current_point (c + 1)) ;;
     sleep vds_delay ;;
     ret Next)
    (fun e => modify (enqueue (Error ("Measurement error: " ++ e))) ;; ret Break).

(** Body of the outer [for vg in vg_values] loop of the ID-VD worker. *)
Definition idvd_gate_hold (polls : nat) (vds_from vds_to vds_step : Q)
           (vg_delay vds_delay : Q) (total_points : Z) (vg_now : Q) : M loop_exit :=
  m <- get is_measuring ;;
  if negb m then ret Break else
  _set_voltage_gradually vg vg_now vg_delay ;;
  vds_values <- lift (sweep_values vds_from vds_to vds_step) ;;
  for_each (idvd_point polls vg_now total_points vds_delay) vds_values ;;
  for_each (idvd_point polls vg_now total_points vds_delay) (rev vds_values) ;;
  set_voltage_and_read vds 0%Q ;;
  sleep vg_delay ;;
  ret Next.

Definition _idvd_measurement_worker (polls : nat) (p : params) : M unit :=
  try_finally
    (try_except
       (let '(vg_from, vg_to, vg_step) := vg_range p in
        let '(vds_from, vds_to, vds_step) := vds_range p in
        let '(vg_delay, vds_delay) := delays p in
        vg_values <- lift (sweep_values vg_from vg_to vg_step) ;;
        inner <- lift (sweep_values vds_from vds_to vds_step) ;;
        let total_points := Py.len vg_values * Py.len inner * 2 in
        modify (set_current_point 0) ;;
        for_each (idvd_gate_hold polls vds_from vds_to vds_step vg_delay vds_delay
                                 total_points) vg_values ;;
        modify (enqueue (Complete "Measurement completed successfully")))
       (fun e => modify (enqueue (Error ("Measurement failed: " ++ e)))))
    (set_is_measuring false).

(** Body of the inner [for vg in vg_values] loop of the ID-VG worker. *)
Definition idvg_point (polls : nat) (vds_hold : Q) (total_points : Z) (vg_delay : Q)
           (vg_now : Q) : M loop_exit :=
  m <- get is_measuring ;;
  if negb m then ret Break else
  pause_wait polls ;;
  try_except
    (ids <- read_current vds ;;
     ig <- set_voltage_and_read vg vg_now ;;
     c <- get current_point ;;
     p <- lift (progress_pct c total_points) ;;
     modify (enqueue (Data (IdVg vg_now ids ig vds_hold p))) ;;
     append_data [vg_now; ids; ig] ;;
     modify (set_current_point (c + 1)) ;;
     sleep vg_delay ;;
     ret Next)
    (fun e => modify (enqueue (Error ("Measurement error: " ++ e))) ;; ret Break).

(** Body of the outer [for vds in vds_values] loop of the ID-VG worker. *)
Definition idvg_drain_hold (polls : nat) (vg_from vg_to vg_step : Q)
           (vds_delay vg_delay : Q) (total_points : Z) (vds_now : Q) : M loop_exit :=
  m <- get is_measuring ;;
  if negb m then ret Break else
  _set_voltage_gradually vds vds_now vds_delay ;;
  vg_values <- lift (sweep_values vg_from vg_to vg_step) ;;
  for_each (idvg_point polls vds_now total_points vg_delay) vg_values ;;
  sleep vds_delay ;;
  ret Next.

Definition _idvg_measurement_worker (polls : nat) (p : params) : M unit :=
  try_finally
    (try_except
       (let '(vds_from, vds_to, vds_step) := vds_range p in
        let '(vg_from, vg_to, vg_step) := vg_range p in
        let '(vds_delay, vg_delay) := delays p in
        vds_values <- lift (sweep_values vds_from vds_to vds_step) ;;
        inner <- lift (sweep_values vg_from vg_to vg_step) ;;
        let total_points := Py.len vds_values * Py.len inner in
        modify (set_current_point 0) ;;
        for_each (idvg_drain_hold polls vg_from vg_to vg_step vds_delay vg_delay
                                  total_points) vds_values ;;
        modify (enqueue (Complete "Measurement completed successfully")))
       (fun e => modify (enqueue (Error ("Measurement failed: " ++ e)))))
    (set_is_measuring false).

(** [start_idvd_measurement] / [start_idvg_measurement]: refused while a
    measurement is in progress; otherwise the flags are set and the
    worker runs. *)
Definition start_idvd_measurement (polls : nat) (p : params) : M (bool * string) :=
  m <- get is_measuring ;;
  if m then ret (false, "Measurement already in progress") else
  modify (set_is_measuring true) ;;
  modify (set_is_paused false) ;;
  _idvd_measurement_worker polls p ;;
  ret (true, "Measurement started").

Definition start_idvg_measurement (polls : nat) (p : params) : M (bool * string) :=
  m <- get is_measuring ;;
  if m then ret (false, "Measurement already in progress") else
  modify (set_is_measuring true) ;;
  modify (set_is_paused false) ;;
  _idvg_measurement_worker polls p ;;
  ret (true, "Measurement started").

(** *** FETMeasurementGUI: the start buttons

    [FETMeasurementGUI.start_idvd_measurement] and
    [start_idvg_measurement], once the instruments are connected and a
    directory is chosen: the CSV file is initialised, then the
    controller is started. *)
Definition gui_start_idvd_measurement (polls : nat) (save_dir filename : string)
           (p : params) : M (bool * string) :=
  initialize_csv save_dir filename "IDVD" ;;
  start_idvd_measurement polls p.

Definition gui_start_idvg_measurement (polls : nat) (save_dir filename : string)
           (p : params) : M (bool * string) :=
  initialize_csv save_dir filename "IDVG" ;;
  start_idvg_measurement polls p.

(** *** The stand-alone ID-VG script
    ([original-file/FET_IDVG_2T_Keithley2450.py], measurement process) *)

(** [new_row.to_csv(csv_filename, mode='a', header=False, index=False)] *)
Definition script_append (csv_filename : string) (row : list cell) : M unit :=
  modify (fun w =>
            let old := default (Table [] []) (files w !! csv_filename) in
            set_files (<[csv_filename := Table (columns old) (rows old ++ [row])]>
                         (files w)) w) ;;
  modify (log (Append row)).

(** [keithley.write(":SOUR:VOLT v"); keithley.write(":READ?");
    float(keithley.read())] *)
Definition script_source_read (c : channel) (v : Q) : M Q :=
  channel_call [SourVolt c v; Query c].

(** [keithley.write(":READ?"); float(keithley.read())] *)
Definition script_read (c : channel) : M Q := channel_call [Query c].

(** [keithley.write(":SOUR:VOLT v")] alone. *)
Definition script_source (c : channel) (v : Q) : M unit :=
  channel_call [SourVolt c v] ;; ret tt.

(** [for j in ramp: source, read, sleep(delay)] *)
Fixpoint script_ramp (c : channel) (delay : Q) (ramp : list Q) : M unit :=
  match ramp with
  | [] => ret tt
  | j :: rest =>
      script_source_read c j ;;
      sleep delay ;;
      script_ramp c delay rest
  end.

(** Body of [for k in vgs_sweep_for] and of
    [for k in reversed(vgs_sweep_for)]. *)
Fixpoint script_gate_sweep (csv_filename : string) (vg_delay : Q) (ks : list Q)
  : M unit :=
  match ks with
  | [] => ret tt
  | k :: rest =>
      response_Ig <- script_source_read vg k ;;
      response_Ids <- script_read vds ;;
      script_append csv_filename [Num k; Num response_Ids; Num response_Ig] ;;
      sleep vg_delay ;;
      script_gate_sweep csv_filename vg_delay rest
  end.

(** Body of [for i in vd_measure], from [vds_set_from]. *)
Definition script_drain_hold (csv_filename : string) (p : params)
           (vds_set_from vds_set_to : Q) : M unit :=
  let '(vds_from, vds_to, vds_step) := vds_range p in
  let '(vg_from, vg_to, vg_step) := vg_range p in
  let '(vds_delay, vg_delay) := delays p in
  vds_set_range <- lift (Py.truediv (vds_set_to - vds_set_from) 10) ;;
  vds_set <- lift (sweep_values vds_set_from vds_set_to vds_set_range) ;;
  (if negb (Qeq_bool vds_set_to 0) then script_ramp vds vds_delay vds_set
   else script_source_read vds 0%Q ;; ret tt) ;;
  sleep (1 # 2) ;;
  script_append csv_filename [Num vds_set_to; Text ""; Text ""] ;;
  (if negb (Qeq_bool vg_from 0) then
     vg_init_step <- lift (Py.truediv vg_from 10) ;;
     vg_init <- lift (sweep_values 0 vg_from vg_init_step) ;;
     script_ramp vg vg_delay vg_init
   else script_source vg 0%Q) ;;
  vgs_sweep_for <- lift (sweep_values vg_from vg_to vg_step) ;;
  script_gate_sweep csv_filename vg_delay vgs_sweep_for ;;
  script_gate_sweep csv_filename vg_delay (rev vgs_sweep_for) ;;
  script_source vg 0%Q ;;
  sleep vds_delay.

(** [for i in vd_measure: ...; vds_set_from = vds_set_to] *)
Fixpoint script_drain_loop (csv_filename : string) (p : params)
         (vds_set_from : Q) (vd_measure : list Q) : M unit :=
  match vd_measure with
  | [] => ret tt
  | i :: rest =>
      script_drain_hold csv_filename p vds_set_from i ;;
      script_drain_loop csv_filename p i rest
  end.

(** The script from the creation of the CSV file to the end of the
    measurement process; exceptions are not caught. *)
Definition FET_IDVG_2T_Keithley2450 (save_dir file_name : string) (p : params)
  : M unit :=
  let csv_filename := Py.path_join save_dir (file_name ++ "-IDVG.csv") in
  e <- get (path_exists csv_filename) ;;
  (if negb e then to_csv (Table ["VG (V)"; "IDS (A)"; "IG (A)"] []) csv_filename
   else ret tt) ;;
  let '(vds_from, vds_to, vds_step) := vds_range p in
  vd_measure <- lift (sweep_values vds_from vds_to vds_step) ;;
  script_drain_loop csv_filename p 0%Q vd_measure.

End Engine.

(** ** Observations used by the statements *)

Local Open Scope list_scope.

#[global] Instance channel_eq_dec : EqDecision channel.
Proof. solve_decision. Defined.

(** The transport answers every channel call. *)
Definition healthy (transport : nat -> reply) : Prop :=
  forall n, exists r, transport n = Reading r.

(** The GUI thread makes no control request during the run. *)
Definition quiet (controller : nat -> option control) : Prop :=
  forall n, controller n = None.

(** No Start button is pressed during the run. *)
Definition no_start (controller : nat -> option control) : Prop :=
  forall n save_dir filename measurement_type,
    controller n <> Some (Start save_dir filename measurement_type).

(** The value read by the n-th channel call. *)
Definition reading (transport : nat -> reply) (n : nat) : Q :=
  match transport n with
  | Reading r => r
  | Fault _ => 0%Q
  | WriteFault _ _ => 0%Q
  end.

(** The worker's own entries of a log: everything but control requests. *)
Definition worker_actions (tr : list action) : list action :=
  flat_map (fun a => match a with Request _ => [] | _ => [a] end) tr.

(** The voltages commanded on channel [c], in order. *)
Definition commanded (c : channel) (tr : list action) : list Q :=
  flat_map (fun a => match a with
                     | SourVolt c' v => if decide (c = c') then [v] else []
                     | _ => []
                     end) tr.

(** The sleeps of a log, in order. *)
Definition sleeps (tr : list action) : list Q :=
  flat_map (fun a => match a with Sleep d => [d] | _ => [] end) tr.

(** The rows written to the CSV file, in order. *)
Definition appended_rows (tr : list action) : list (list cell) :=
  flat_map (fun a => match a with Append r => [r] | _ => [] end) tr.

(** The swept value carried by each [Data] message, in order. *)
Definition swept_of (q : list message) : list Q :=
  flat_map (fun m => match m with
                     | Data (IdVd vd _ _ _ _) => [vd]
                     | Data (IdVg vg_swept _ _ _ _) => [vg_swept]
                     | _ => []
                     end) q.

(** The progress percentage carried by each [Data] message, in order. *)
Definition progress_of (q : list message) : list Q :=
  flat_map (fun m => match m with
                     | Data (IdVd _ _ _ _ p) => [p]
                     | Data (IdVg _ _ _ _ p) => [p]
                     | _ => []
                     end) q.

(** The kind of each message. *)
Inductive kind : Type := data | error | complete.

Definition kind_of (m : message) : kind :=
  match m with
  | Data _ => data
  | Error _ => error
  | Complete _ => complete
  end.

(** [(k / total) * 100], the percentage computed at counter [k]. *)
Definition pct (total k : Z) : Q := (inject_Z k / inject_Z total * 100)%Q.

(** The bus and clock entries of one ramp step. *)
Definition ramp_step_actions (instrument : channel)
           (current_voltage voltage_step delay : Q) (i : nat) : list action :=
  [SourVolt instrument (current_voltage + inject_Z (Z.of_nat i) * voltage_step)%Q;
   Query instrument;
   Sleep (delay / inject_Z 10)%Q].

(** The sink points at an existing three-column file and the flags say
    measuring and not paused. *)
Definition ready (path : string) (w : world) : Prop :=
  is_measuring w = true
  /\ is_paused w = false
  /\ csv_file w = Some path
  /\ exists t, files w !! path = Some t /\ length (columns t) = 3%nat.

(** From [w] to [w'] the worker made [n] channel calls, put [msgs] on the
    queue, did [acts], counted one point per message and wrote its rows
    at the end of the file; the flags and the sink did not change. *)
Definition advances (path : string) (n : nat) (msgs : list message)
           (acts : list action) (w w' : world) : Prop :=
  is_measuring w' = is_measuring w
  /\ is_paused w' = is_paused w
  /\ csv_file w' = csv_file w
  /\ io_calls w' = (io_calls w + n)%nat
  /\ data_queue w' = data_queue w ++ msgs
  /\ worker_actions (trace w') = worker_actions (trace w) ++ acts
  /\ current_point w' = current_point w + Z.of_nat (length msgs)
  /\ forall t, files w !! path = Some t ->
               files w' !! path
               = Some (Table (columns t) (rows t ++ appended_rows acts)).

(** The actions of a ramp of [instrument] to [target]. *)
Definition ramp_actions (instrument : channel) (target delay : Q) : list action :=
  if Qeq_bool target 0 then []
  else flat_map (ramp_step_actions instrument 0 ((target - 0) / inject_Z 10) delay)
                (seq 0 11).

(** The channel calls of a ramp to [target]. *)
Definition ramp_calls (target : Q) : nat :=
  if Qeq_bool target 0 then 0%nat else 11%nat.

(** What an error-free inner sweep of the ID-VD worker over [l] puts on
    the queue and does, from counter [c] and channel call [io]. *)
Fixpoint idvd_messages (transport : nat -> reply) (vg_hold : Q) (total c : Z)
         (io : nat) (l : list Q) : list message :=
  match l with
  | [] => []
  | v :: rest =>
      Data (IdVd v (reading transport io) (reading transport (S io)) vg_hold
                 (pct total c))
        :: idvd_messages transport vg_hold total (c + 1) (S (S io)) rest
  end.

Fixpoint idvd_actions (transport : nat -> reply) (vds_delay : Q) (io : nat)
         (l : list Q) : list action :=
  match l with
  | [] => []
  | v :: rest =>
      [SourVolt vds v; Query vds; Query vg;
       Append [Num v; Num (reading transport io); Num (reading transport (S io))];
       Sleep vds_delay]
        ++ idvd_actions transport vds_delay (S (S io)) rest
  end.

(** The same for the inner sweep of the ID-VG worker. *)
Fixpoint idvg_messages (transport : nat -> reply) (vds_hold : Q) (total c : Z)
         (io : nat) (l : list Q) : list message :=
  match l with
  | [] => []
  | v :: rest =>
      Data (IdVg v (reading transport io) (reading transport (S io)) vds_hold
                 (pct total c))
        :: idvg_messages transport vds_hold total (c + 1) (S (S io)) rest
  end.

Fixpoint idvg_actions (transport : nat -> reply) (vg_delay : Q) (io : nat)
         (l : list Q) : list action :=
  match l with
  | [] => []
  | v :: rest =>
      [Query vds; SourVolt vg v; Query vg;
       Append [Num v; Num (reading transport io); Num (reading transport (S io))];
       Sleep vg_delay]
        ++ idvg_actions transport vg_delay (S (S io)) rest
  end.

(** One error-free gate hold of the ID-VD worker at [g], the inner range
    being [l]: ramp, forward sweep, reverse sweep, drain back to 0 V,
    gate delay. *)
Definition idvd_hold_calls (g : Q) (l : list Q) : nat :=
  (ramp_calls g + 2 * length l + 2 * length l + 1)%nat.

Definition idvd_hold_messages (transport : nat -> reply) (g : Q) (total c : Z)
           (io : nat) (l : list Q) : list message :=
  idvd_messages transport g total c (io + ramp_calls g) l
    ++ idvd_messages transport g total (c + Z.of_nat (length l))
         (io + ramp_calls g + 2 * length l) (rev l).

Definition idvd_hold_actions (transport : nat -> reply) (vg_delay vds_delay g : Q)
           (io : nat) (l : list Q) : list action :=
  ramp_actions vg g vg_delay
    ++ idvd_actions transport vds_delay (io + ramp_calls g) l
    ++ idvd_actions transport vds_delay (io + ramp_calls g + 2 * length l) (rev l)
    ++ [SourVolt vds 0; Query vds; Sleep vg_delay].

(** One error-free drain hold of the ID-VG worker at [d]: ramp, forward
    sweep, drain delay. *)
Definition idvg_hold_calls (d : Q) (l : list Q) : nat :=
  (ramp_calls d + 2 * length l)%nat.

Definition idvg_hold_messages (transport : nat -> reply) (d : Q) (total c : Z)
           (io : nat) (l : list Q) : list message :=
  idvg_messages transport d total c (io + ramp_calls d) l.

Definition idvg_hold_actions (transport : nat -> reply) (vds_delay vg_delay d : Q)
           (io : nat) (l : list Q) : list action :=
  ramp_actions vds d vds_delay
    ++ idvg_actions transport vg_delay (io + ramp_calls d) l
    ++ [Sleep vds_delay].

(** From [w] to [w'] the queue only grew; the [Data] messages it gained
    carry the percentages of the counters [ks], which do not decrease,
    lie between the counter of [w] and that of [w'], and stay less than
    [n] above the counter of [w]; the counter itself grew by at most [n]. *)
Definition emits (total : Z) (n : nat) (w w' : world) : Prop :=
  exists (msgs : list message) (ks : list Z),
    data_queue w' = data_queue w ++ msgs
    /\ progress_of msgs = map (pct total) ks
    /\ StronglySorted Z.le ks
    /\ Forall (fun k => current_point w <= k <= current_point w'
                        /\ k < current_point w + Z.of_nat n) ks
    /\ current_point w <= current_point w' <= current_point w + Z.of_nat n.

(** Every run of [c] is related by [R] to the world it started in,
    whatever its result. *)
Definition carries {A} (R : world -> world -> Prop) (c : M A) : Prop :=
  forall w, R w (snd (c w)).

(** A step that leaves the queue and the counter alone. *)
Definition keeps {A} (c : M A) : Prop :=
  forall w, data_queue (snd (c w)) = data_queue w
            /\ current_point (snd (c w)) = current_point w.

(** The number of points of a range, 0 when the range is refused. *)
Definition range_length (r : Q * Q * Q) : Z :=
  let '(from, to, step) := r in
  match sweep_values from to step with
  | Val l => Py.len l
  | _ => 0
  end.

(** [total_points] of the two workers. *)
Definition idvd_total_points (p : params) : Z :=
  range_length (vg_range p) * range_length (vds_range p) * 2.

Definition idvg_total_points (p : params) : Z :=
  range_length (vds_range p) * range_length (vg_range p).

(** The percentages of [n] consecutive counters from [c]. *)
Fixpoint pcts_from (total c : Z) (n : nat) : list Q :=
  match n with
  | O => []
  | S n' => pct total c :: pcts_from total (c + 1) n'
  end.

(** The world after a successful [append_data]. *)
Definition appended (path : string) (t : table) (data_row : list Q) (w : world)
  : world :=
  log (Append (map Num data_row))
      (set_files (<[path := Table (columns t) (rows t ++ [map Num data_row])]>
                    (files w)) w).

(** Successive calls of [append_data], one per arriving row. *)
Fixpoint append_all (arrivals : list (list Q)) : M unit :=
  match arrivals with
  | [] => ret tt
  | data_row :: rest => append_data data_row ;; append_all rest
  end.

(** ** Concrete worlds and oracles used by the examples *)

(** A log of an earlier ID-VD run: header, one measurement row and one
    hold-value marker row. *)
Definition old_log : table :=
  Table ["VD (V)"; "IDS (A)"; "IG (A)"]
        [[Num 0; Num 0; Num 0]; [Num 5; Blank; Blank]].

(** The state the GUI is in when no run is active. *)
Definition idle (d : gset string) (f : gmap string table) (p : option string) : world :=
  World false false 0 0 [] [] p d f 0.

(** A sink already pointed at the earlier log. *)
Definition sink_with_old_log : world :=
  idle {["out"]} {["out/dev-IDVD.csv" := old_log]} (Some "out/dev-IDVD.csv").

(** A transport that answers every call with the same reading. *)
Definition steady (n : nat) : reply := Reading (1 # 1000).

(** A GUI thread that never touches the controls. *)
Definition silent (n : nat) : option control := None.

(** The flags right after a start: measuring, not paused. *)
Definition started : world := World true false 0 0 [] [] None ∅ ∅ 0.

(** An ID-VD request holding the gate at 5 V then 10 V, with a single
    drain point at 0 V. *)
Definition two_gate_holds : params :=
  Params (5, 10, 5)%Q (0, 0, 1)%Q (1 # 2, 1 # 4)%Q.

(** A sink armed by [initialize_csv] for an ID-VD run, flags as after a
    start. *)
Definition armed_idvd : world :=
  World true false 0 0 [] [] (Some "out/dev-IDVD.csv") {["out"]}
        {["out/dev-IDVD.csv" := Table ["VD (V)"; "IDS (A)"; "IG (A)"] []]} 0.

(** The same for an ID-VG run. *)
Definition armed_idvg : world :=
  World true false 0 0 [] [] (Some "out/dev-IDVG.csv") {["out"]}
        {["out/dev-IDVG.csv" := Table ["VG (V)"; "IDS (A)"; "IG (A)"] []]} 0.

(** A cell with its number in lowest terms. *)
Definition normal_cell (c : cell) : cell :=
  match c with
  | Num q => Num (Qred q)
  | other => other
  end.

(** The rows of the file at [path], numbers in lowest terms. *)
Definition rows_at (path : string) (w : world) : list (list cell) :=
  match files w !! path with
  | Some t => map (map normal_cell) (rows t)
  | None => []
  end.

(** A script request: drain held at 1 V, gate swept over 0, 1, 2 V. *)
Definition script_request : params :=
  Params (0, 2, 1)%Q (1, 1, 1)%Q (0, 0)%Q.

(** An ID-VG request with one drain value, 0 V, and the two gate values
    0 V and 1 V. *)
Definition two_point_request : params :=
  Params (0, 1, 1)%Q (0, 0, 1)%Q (1 # 2, 1 # 4)%Q.

(** The part of a log that follows the first stop request. *)
Fixpoint after_stop (tr : list action) : list action :=
  match tr with
  | [] => []
  | Request Stop :: rest => rest
  | _ :: rest => after_stop rest
  end.

(** A log without its numbers. *)
Inductive step : Type :=
| s_sour (c : channel) | s_query (c : channel) | s_sleep | s_request (a : control)
| s_append.

Definition step_of (a : action) : step :=
  match a with
  | SourVolt c _ => s_sour c
  | Query c => s_query c
  | Sleep _ => s_sleep
  | Request r => s_request r
  | Append _ => s_append
  end.

(** An ID-VG request with the drain values 0 V and 1 V and the five gate
    values 0 .. 4 V. *)
Definition ten_point_request : params :=
  Params (0, 4, 1)%Q (0, 1, 1)%Q (1 # 2, 1 # 4)%Q.

(** A bus on which only the ninth channel call, the drain read of the
    fifth point, times out. *)
Definition fifth_point_fault (n : nat) : reply :=
  if (n =? 8)%nat then Fault "VI_ERROR_TMO" else Reading (1 # 1000).

(** A bus that is dead from the ninth channel call on. *)
Definition dead_from_fifth_point (n : nat) : reply :=
  if (n <? 8)%nat then Reading (1 # 1000) else Fault "VI_ERROR_TMO".

(** An ID-VG request with the single drain value 0 V and the gate values
    0, 1, 2 V. *)
Definition three_point_request : params :=
  Params (0, 2, 1)%Q (0, 0, 1)%Q (1 # 2, 1 # 4)%Q.

(** The operator pauses during the first channel call and presses stop
    during the first 100 ms poll of the pause. *)
Definition pause_then_stop (n : nat) : option control :=
  match n with
  | 0%nat => Some Pause
  | 3%nat => Some Stop
  | _ => None
  end.

(** The operator presses the Start button of the ID-VG tab during the
    first blocking call of a run. *)
Definition other_start_button (n : nat) : option control :=
  match n with
  | 0%nat => Some (Start "out" "dev" "IDVG")
  | _ => None
  end.

(** The operator presses stop during the settle sleep of the first
    point, without pausing. *)
Definition stop_after_first_point (n : nat) : option control :=
  match n with
  | 2%nat => Some Stop
  | _ => None
  end.

(** The file name and the header [initialize_csv] computes. *)
Definition csv_target (save_dir filename measurement_type : string) : string :=
  Py.path_join save_dir
    (filename ++ (if String.eqb measurement_type "IDVD"
                  then "-IDVD.csv" else "-IDVG.csv"))%string.

Definition csv_header (measurement_type : string) : list string :=
  [if String.eqb measurement_type "IDVD" then "VD (V)" else "VG (V)";
   "IDS (A)"; "IG (A)"]%string.

(** The world [initialize_csv] leaves. *)
Definition initialized (save_dir filename measurement_type : string) (w : world)
  : world :=
  let path := csv_target save_dir filename measurement_type in
  let w1 := if path_exists save_dir w then w
            else set_dirs ({[save_dir]} ∪ dirs w) w in
  let w2 := set_csv_file (Some path) w1 in
  if path_exists path w2 then w2
  else set_files (<[path := Table (csv_header measurement_type) []]> (files w2)) w2.

(** A step that always comes back, with a value or an exception. *)
Definition never_hangs {A} (c : M A) : Prop :=
  forall w, fst (c w) <> Hang.

(** A step that is found still polling only with the pause flag up. *)
Definition hangs_only_paused {A} (c : M A) : Prop :=
  forall w, fst (c w) = Hang -> is_paused (snd (c w)) = true.

(** How a worker can be found: returned, with [is_measuring] cleared and
    a closing message last on the queue; or still polling a pause.  No
    exception leaves a worker. *)
Definition worker_outcome (r : result unit * world) : Prop :=
  match fst r with
  | Val _ =>
      is_measuring (snd r) = false
      /\ exists q m,
          data_queue (snd r) = q ++ [m]
          /\ (m = Complete "Measurement completed successfully"
              \/ exists e, m = Error ("Measurement failed: " ++ e)%string)
  | Exn _ => False
  | Hang => is_paused (snd r) = true
  end.

(** A step that keeps the property [I] of the world, whatever its result. *)
Definition preserves {A} (I : world -> Prop) (c : M A) : Prop :=
  forall w, I w -> I (snd (c w)).

(** From [w] to [w'] the file [path], which held [t], was only appended
    to; the sink still points at it, and no other file or directory
    changed. *)
Definition only_appended (path : string) (t : table) (w w' : world) : Prop :=
  csv_file w' = Some path
  /\ dirs w' = dirs w
  /\ (exists more, files w' !! path = Some (Table (columns t) (rows t ++ more)))
  /\ (forall other, other <> path -> files w' !! other = files w !! other).

(** The row a worker saves for a point: the swept value and the two
    currents. *)
Definition row_of (point : data_point) : list Q :=
  match point with
  | IdVd vd ids ig _ _ => [vd; ids; ig]
  | IdVg vg_swept ids ig _ _ => [vg_swept; ids; ig]
  end.

(** ** FETMeasurementGUI: the consumer of the queue

    The rendering calls (matplotlib, Tk labels) are left out; what is
    kept is the data they are fed from and the state of the controls. *)

(** [self.plot_data]: the lists under ['vd'], ['ids'], ['ig'], ['vg']. *)
Record plot_data : Type := PlotData {
  pd_vd : list Q;
  pd_ids : list Q;
  pd_ig : list Q;
  pd_vg : list Q;
}.

(** What the consumer keeps: the plot buffers, the value of the progress
    bars, the state of the Start, Pause and Stop buttons, and the message
    boxes shown so far. *)
Record gui : Type := Gui {
  plot : plot_data;
  progress_bar : Q;
  start_enabled : bool;
  pause_enabled : bool;
  stop_enabled : bool;
  boxes : list message;
}.

(** The slice [l[-n:]]: the last [n] items, all of [l] when [n] is 0 or
    exceeds the length. *)
Definition py_last (n : nat) (l : list Q) : list Q :=
  match n with
  | O => l
  | _ => drop (length l - n) l
  end.

(** [clear_plot_data], the data part. *)
Definition clear_plot_data : plot_data := PlotData [] [] [] [].

(** [update_plots], the data part; [max_plot_points] is the attribute of
    that name (1000 in [__init__]).  A dictionary of the ID-VD worker has
    the key ['vd']; one of the ID-VG worker has ['vg'] and no ['vd']. *)
Definition update_plots (max_plot_points : nat) (point : data_point) (pd : plot_data)
  : plot_data :=
  match point with
  | IdVd vd ids ig _ _ =>
      let vd' := pd_vd pd ++ [vd] in
      let ids' := pd_ids pd ++ [ids] in
      let ig' := pd_ig pd ++ [ig] in
      if (max_plot_points <? length vd')%nat
      then PlotData (py_last max_plot_points vd') (py_last max_plot_points ids')
                    (py_last max_plot_points ig') (pd_vg pd)
      else PlotData vd' ids' ig' (pd_vg pd)
  | IdVg vg_swept ids ig _ _ =>
      let vg' := pd_vg pd ++ [vg_swept] in
      let ids' := pd_ids pd ++ [ids] in
      let ig' := pd_ig pd ++ [ig] in
      if (max_plot_points <? length vg')%nat
      then PlotData (pd_vd pd) (py_last max_plot_points ids')
                    (py_last max_plot_points ig') (py_last max_plot_points vg')
      else PlotData (pd_vd pd) ids' ig' vg'
  end.

(** [data.get('progress', 0)] *)
Definition progress_in (point : data_point) : Q :=
  match point with
  | IdVd _ _ _ _ p => p
  | IdVg _ _ _ _ p => p
  end.

(** [reset_measurement_buttons] *)
Definition reset_measurement_buttons (g : gui) : gui :=
  Gui (plot g) 0 true false false (boxes g).

(** One turn of the loop of [monitor_data_queue]. *)
Definition handle_message (max_plot_points : nat) (g : gui) (m : message) : gui :=
  match m with
  | Data point =>
      Gui (update_plots max_plot_points point (plot g)) (progress_in point)
          (start_enabled g) (pause_enabled g) (stop_enabled g) (boxes g)
  | Error _ =>
      reset_measurement_buttons
        (Gui (plot g) (progress_bar g) (start_enabled g) (pause_enabled g)
             (stop_enabled g) (boxes g ++ [m]))
  | Complete _ =>
      reset_measurement_buttons
        (Gui (plot g) (progress_bar g) (start_enabled g) (pause_enabled g)
             (stop_enabled g) (boxes g ++ [m]))
  end.

(** [monitor_data_queue]: every pending message is taken off the queue
    and handled, oldest first, until the queue is empty. *)
Definition monitor_data_queue (max_plot_points : nat) (pending : list message)
           (g : gui) : gui :=
  fold_left (handle_message max_plot_points) pending g.

(** The drain and gate currents carried by the [Data] messages. *)
Definition ids_of (q : list message) : list Q :=
  flat_map (fun m => match m with
                     | Data (IdVd _ ids _ _ _) => [ids]
                     | Data (IdVg _ ids _ _ _) => [ids]
                     | _ => []
                     end) q.

Definition ig_of (q : list message) : list Q :=
  flat_map (fun m => match m with
                     | Data (IdVd _ _ ig _ _) => [ig]
                     | Data (IdVg _ _ ig _ _) => [ig]
                     | _ => []
                     end) q.

(** No message comes from the ID-VG worker / from the ID-VD worker. *)
Definition no_idvg (q : list message) : Prop :=
  Forall (fun m => match m with Data (IdVg _ _ _ _ _) => False | _ => True end) q.

Definition no_idvd (q : list message) : Prop :=
  Forall (fun m => match m with Data (IdVd _ _ _ _ _) => False | _ => True end) q.

(** The GUI as a start button leaves it: buffers cleared, Start
    disabled, Pause and Stop enabled. *)
Definition gui_started : gui := Gui clear_plot_data 0 false true true [].

(** Three points of an ID-VD run and its completion message, as the
    queue holds them. *)
Definition three_points_then_complete : list message :=
  [Data (IdVd 0 (1 # 1000) (1 # 100000) 5 0);
   Data (IdVd (1 # 2) (2 # 1000) (1 # 100000) 5 (100 # 3));
   Data (IdVd 1 (3 # 1000) (1 # 100000) 5 (200 # 3));
   Complete "Measurement completed successfully"]%Q.

(** The controls as [reset_measurement_buttons] leaves them: Start
    enabled, Pause and Stop disabled, progress bar at 0; the last box
    shown carries the closing message of a worker. *)
Definition controls_reset (g : gui) : Prop :=
  start_enabled g = true
  /\ pause_enabled g = false
  /\ stop_enabled g = false
  /\ progress_bar g = 0%Q
  /\ exists shown m,
      boxes g = shown ++ [m]
      /\ (m = Complete "Measurement completed successfully"
          \/ exists e, m = Error ("Measurement failed: " ++ e)%string).

(** ** InstrumentController: set-up and shut-down

    The VISA layer is an oracle [visa]: the n-th call into it (writing
    a line, closing a handle) either succeeds or raises with the given
    text.  What is recorded is what went through: the lines written and
    the handles closed. *)

(** The lines [initialize_instruments] and [disconnect] write. *)
Inductive scpi : Type :=
| RST                                  (* *RST *)
| SOUR_FUNC_VOLT                       (* :SOUR:FUNC VOLT *)
| SOUR_VOLT_DEL_0                      (* :SOUR:VOLT:DEL 0 *)
| SENS_FUNC_CURR                       (* :SENS:FUNC "CURR" *)
| SENS_CURR_NPLC_1                     (* SENS:CURR:NPLC 1 *)
| SOUR_VOLT_ILIM_LEV (limit : Q)       (* :SOUR:VOLT:ILIM:LEV {limit} *)
| OUTP_ON                              (* :OUTP ON *)
| OUTP_OFF.                            (* :OUTP OFF *)

Inductive handle : Type :=
| session (c : channel)
| resource_manager.

Inductive bench_event : Type :=
| Wrote (c : channel) (line : scpi)
| Closed (h : handle).

(** The attributes of an [InstrumentController]: whether [rm],
    [keithley_vds] and [keithley_vg] hold an object (they start as
    [None]), [is_connected], and, as ghost state, the number of VISA
    calls made and what went through. *)
Record bench : Type := Bench {
  rm : bool;
  keithley_vds : bool;
  keithley_vg : bool;
  is_connected : bool;
  visa_calls : nat;
  wire : list bench_event;
}.

(** A statement that may raise: [Some e] is the exception text. *)
Definition stmt : Type := bench -> option string * bench.

Definition and_then (s1 s2 : stmt) : stmt :=
  fun b =>
    match s1 b with
    | (None, b1) => s2 b1
    | (Some e, b1) => (Some e, b1)
    end.

Definition skip : stmt := fun b => (None, b).

(** [if x: body] *)
Definition when (x : bench -> bool) (body : stmt) : stmt :=
  fun b => if x b then body b else (None, b).

Definition run_all (l : list stmt) : stmt := fold_right and_then skip l.

Definition session_of (c : channel) (b : bench) : bool :=
  match c with
  | vds => keithley_vds b
  | vg => keithley_vg b
  end.

Section Bench.

Variable visa : nat -> option string.

(** One call into the VISA layer; [done] is applied when it succeeds. *)
Definition visa_call (done : bench -> bench) : stmt :=
  fun b =>
    let b1 := Bench (rm b) (keithley_vds b) (keithley_vg b) (is_connected b)
                    (S (visa_calls b)) (wire b) in
    match visa (visa_calls b) with
    | Some e => (Some e, b1)
    | None => (None, done b1)
    end.

Definition went_through (ev : bench_event) (b : bench) : bench :=
  Bench (rm b) (keithley_vds b) (keithley_vg b) (is_connected b)
        (visa_calls b) (wire b ++ [ev]).

(** [self.keithley_x.write(line)]; on [None] the attribute lookup
    raises. *)
Definition write (c : channel) (line : scpi) : stmt :=
  fun b =>
    if session_of c b then visa_call (went_through (Wrote c line)) b
    else (Some "'NoneType' object has no attribute 'write'", b).

(** [self.keithley_x.close()] and [self.rm.close()], called only on
    handles that hold an object. *)
Definition close (h : handle) : stmt :=
  visa_call (went_through (Closed h)).

(** The seven lines written to one instrument. *)
Definition initialization_lines (limit : Q) : list scpi :=
  [RST; SOUR_FUNC_VOLT; SOUR_VOLT_DEL_0; SENS_FUNC_CURR; SENS_CURR_NPLC_1;
   SOUR_VOLT_ILIM_LEV limit; OUTP_ON].

(** [initialize_instruments] *)
Definition initialize_instruments (vds_limit vg_limit : Q)
  : bench -> (bool * string) * bench :=
  fun b =>
    match run_all (map (write vds) (initialization_lines vds_limit)
                     ++ map (write vg) (initialization_lines vg_limit)) b with
    | (None, b1) => ((true, "Instruments initialized successfully"), b1)
    | (Some e, b1) => ((false, ("Initialization failed: " ++ e)%string), b1)
    end.

(** [disconnect]; the first component is what is printed, if anything. *)
Definition disconnect : bench -> option string * bench :=
  fun b =>
    match run_all
            [when keithley_vds
                  (run_all [write vds OUTP_OFF; write vds RST; close (session vds)]);
             when keithley_vg
                  (run_all [write vg OUTP_OFF; write vg RST; close (session vg)]);
             when rm (close resource_manager)] b with
    | (None, b1) =>
        (None, Bench (rm b1) (keithley_vds b1) (keithley_vg b1) false
                     (visa_calls b1) (wire b1))
    | (Some e, b1) => (Some ("Disconnect error: " ++ e)%string, b1)
    end.

End Bench.

(** What [initialize_instruments] writes when nothing fails. *)
Definition initialization_script (vds_limit vg_limit : Q) : list bench_event :=
  map (Wrote vds) (initialization_lines vds_limit)
    ++ map (Wrote vg) (initialization_lines vg_limit).

(** What [disconnect] does when nothing fails, for the handles held. *)
Definition shutdown_script (b : bench) : list bench_event :=
  (if keithley_vds b
   then [Wrote vds OUTP_OFF; Wrote vds RST; Closed (session vds)] else [])
    ++ (if keithley_vg b
        then [Wrote vg OUTP_OFF; Wrote vg RST; Closed (session vg)] else [])
    ++ (if rm b then [Closed resource_manager] else []).

(** A controller connected to both instruments. *)
Definition connected_bench : bench := Bench true true true true 0 [].

(** A VISA layer in which only the n-th call fails, by a timeout. *)
Definition fails_at (n : nat) (k : nat) : option string :=
  if (k =? n)%nat then Some "VI_ERROR_TMO" else None.

(** How many of the [n] VISA calls from the call number [from] on go
    through before one fails. *)
Fixpoint successes (visa : nat -> option string) (from n : nat) : nat :=
  match n with
  | O => O
  | S n' =>
      match visa from with
      | None => S (successes visa (S from) n')
      | Some _ => O
      end
  end.

(** Two controllers holding the same handles, with the same
    [is_connected]. *)
Definition same_handles (b b' : bench) : Prop :=
  rm b' = rm b
  /\ keithley_vds b' = keithley_vds b
  /\ keithley_vg b' = keithley_vg b
  /\ is_connected b' = is_connected b.

(** From a controller like [b0], the statement [s] makes one VISA call
    per event of [evs], in order, up to the first call that fails, and
    raises what that call raised; it touches no attribute. *)
Definition plays (visa : nat -> option string) (b0 : bench) (s : stmt)
           (evs : list bench_event) : Prop :=
  forall b,
    same_handles b0 b ->
    let k := successes visa (visa_calls b) (length evs) in
    same_handles b0 (snd (s b))
    /\ wire (snd (s b)) = wire b ++ take k evs
    /\ (k = length evs ->
        fst (s b) = None /\ visa_calls (snd (s b)) = (visa_calls b + k)%nat)
    /\ (k < length evs ->
        exists e, visa (visa_calls b + k)%nat = Some e /\ fst (s b) = Some e)%nat.

(** ** What a run puts on the queue and into the file *)

(** The messages a worker puts on the queue while it runs: points, and
    the errors of points. *)
Definition during_run (m : message) : Prop :=
  match m with
  | Data _ => True
  | Error e => exists e', e = ("Measurement error: " ++ e')%string
  | Complete _ => False
  end.

(** The message a worker ends with. *)
Definition closing (m : message) : Prop :=
  m = Complete "Measurement completed successfully"
  \/ exists e, m = Error ("Measurement failed: " ++ e)%string.

(** The rows of the points of a queue, as [append_data] writes them. *)
Definition rows_announced (q : list message) : list (list cell) :=
  flat_map (fun m => match m with
                     | Data point => [map Num (row_of point)]
                     | _ => []
                     end) q.

(** From [w] to [w'] the queue gained points and point errors only, and
    the rows saved meanwhile are rows of those points, in the order of
    the queue. *)
Definition announces (w w' : world) : Prop :=
  exists msgs saved,
    data_queue w' = data_queue w ++ msgs
    /\ Forall during_run msgs
    /\ appended_rows (trace w') = appended_rows (trace w) ++ saved
    /\ sublist saved (rows_announced msgs).

(** The record of a run from [w]: the messages of the run, none of them
    closing, then one closing message when the worker has returned and
    none while it is still polling; the rows saved are rows of points of
    the run, in order. *)
Definition run_record (w : world) (r : result unit * world) : Prop :=
  exists msgs saved last,
    data_queue (snd r) = data_queue w ++ msgs ++ last
    /\ Forall during_run msgs
    /\ Forall (fun m => ~ closing m) msgs
    /\ match fst r with
       | Val _ => exists m, last = [m] /\ closing m
       | _ => last = []
       end
    /\ appended_rows (trace (snd r)) = appended_rows (trace w) ++ saved
    /\ sublist saved (rows_announced msgs).

(** ** The order of the drain reading and the gate command *)

(** The gate voltage in force, that is the one last commanded, at each
    reading of the drain instrument in a log; [gate] is the one in force
    before the log, if known. *)
Fixpoint gate_at_drain_reads (gate : option Q) (tr : list action)
  : list (option Q) :=
  match tr with
  | [] => []
  | SourVolt vg v :: rest => gate_at_drain_reads (Some v) rest
  | Query vds :: rest => gate :: gate_at_drain_reads gate rest
  | _ :: rest => gate_at_drain_reads gate rest
  end.

(** The first cell of each row. *)
Definition swept_column (rws : list (list cell)) : list (option cell) :=
  map (fun r => head r) rws.

(** The gate values 0, 1, 2 V. *)
Definition three_gate_values : list Q := [0; 1; 2]%Q.

(** ** A fault during a ramp *)

(** The values of a range [(from, to, step)]. *)
Definition sweep_of (r : Q * Q * Q) : result (list Q) :=
  let '(from, to, step) := r in sweep_values from to step.



(** A bus on which the second write of every call raises. *)
Definition second_write_fails (n : nat) : reply := WriteFault 1 "VI_ERROR_TMO".

(** A request whose two ranges are 1 V and 2 V. *)
Definition from_one_request : params :=
  Params (1, 2, 1)%Q (1, 2, 1)%Q (1 # 2, 1 # 4)%Q.

(** ** Runs on instruments that answer *)

(** A step that raises nothing. *)
Definition never_raises {A} (c : M A) : Prop :=
  forall w e, fst (c w) <> Exn e.

(** A worker found returned, with the completion message last on the
    queue, or still polling a pause. *)
Definition closes_as_completed (r : result unit * world) : Prop :=
  fst r = Hang
  \/ (fst r = Val tt
      /\ exists q,
          data_queue (snd r) = q ++ [Complete "Measurement completed successfully"]).

(** ** A run from the Start button to the file *)



(** * Verification *)

Local Open Scope list_scope.

Ltac unfold_monad :=
  unfold bind, ret, get, modify, lift, raise, try_except, try_finally, hang in *.

(** ** Data sink *)

Section DataSink.

Lemma read_csv_ok (w : world) (path : string) (t : table) :
  files w !! path = Some t ->
  columns t <> [] ->
  read_csv (Some path) w = (Val t, w).
Proof.
  intros Hf Hc. unfold read_csv. rewrite Hf.
  destruct (columns t); [contradiction | reflexivity].
Qed.

Lemma DataFrame_ok (data_row : list cell) (cols : list string) :
  length data_row = length cols ->
  DataFrame data_row cols = Val (Table cols [data_row]).
Proof.
  intros Hl. unfold DataFrame.
  rewrite Hl, Nat.eqb_refl. reflexivity.
Qed.

Lemma append_data_ok (w : world) (path : string) (t : table) (data_row : list Q) :
  csv_file w = Some path ->
  files w !! path = Some t ->
  columns t <> [] ->
  length data_row = length (columns t) ->
  append_data data_row w = (Val tt, appended path t data_row w).
Proof.
  intros Hp Hf Hc Hl. unfold append_data, appended. unfold_monad.
  rewrite Hp, (read_csv_ok _ _ _ Hf Hc).
  rewrite DataFrame_ok by (rewrite length_map; exact Hl).
  unfold Py.len. destruct (rows t) as [|r rs] eqn:Hr; simpl.
  - unfold to_csv, modify. destruct t as [cols rws]; simpl in *. subst rws.
    reflexivity.
  - unfold to_csv, modify, concat. simpl. rewrite Hr. reflexivity.
Qed.

(** A failed [append_data] leaves every file as it was. *)
Lemma append_data_exn_files (w w' : world) (data_row : list Q) (e : string) :
  append_data data_row w = (Exn e, w') -> w' = w.
Proof.
  unfold append_data. unfold_monad. unfold read_csv, DataFrame, to_csv, modify.
  intros H. repeat case_match; simplify_eq/=; reflexivity.
Qed.

Lemma appended_files (path : string) (t : table) (data_row : list Q) (w : world) :
  files (appended path t data_row w)
  = <[path := Table (columns t) (rows t ++ [map Num data_row])]> (files w).
Proof. reflexivity. Qed.

(** C9. Every append to the data sink adds exactly one complete row at
    the end of the file, in arrival order: after the rows [arrivals]
    have been appended one call after the other to a file whose header
    has as many columns as each row, the file has the same header, the
    rows it had before in their order, then the arrived rows in arrival
    order; no other file changes. *)
Theorem append_data_arrival_order (arrivals : list (list Q)) :
  forall (w : world) (path : string) (t : table),
    csv_file w = Some path ->
    files w !! path = Some t ->
    columns t <> [] ->
    Forall (fun data_row => length data_row = length (columns t)) arrivals ->
    exists w',
      append_all arrivals w = (Val tt, w')
      /\ csv_file w' = Some path
      /\ files w' !! path
         = Some (Table (columns t) (rows t ++ map (map Num) arrivals))
      /\ forall other, other <> path -> files w' !! other = files w !! other.
Proof.
  induction arrivals as [|data_row rest IH]; intros w path t Hp Hf Hc Hall.
  - exists w. simpl. rewrite app_nil_r. destruct t; auto.
  - inversion Hall as [|? ? Hrow Hrest]; subst.
    simpl. unfold bind.
    rewrite (append_data_ok w path t data_row Hp Hf Hc Hrow).
    set (t1 := Table (columns t) (rows t ++ [map Num data_row])).
    destruct (IH (appended path t data_row w) path t1) as (w' & Hrun & Hp' & Hf' & Hfr);
      try assumption.
    + rewrite appended_files. apply lookup_insert_eq.
    + exists w'. repeat split; try assumption.
      * rewrite Hf'. simpl. rewrite <- app_assoc. reflexivity.
      * intros other Hne. rewrite (Hfr other Hne), appended_files.
        apply lookup_insert_ne. congruence.
Qed.

(** The earlier log receives a third row. *)
Lemma append_data_arrival_order_witness :
  exists w',
    append_all [[1; 2; 3]%Q] sink_with_old_log = (Val tt, w')
    /\ csv_file w' = Some "out/dev-IDVD.csv"
    /\ files w' !! "out/dev-IDVD.csv"
       = Some (Table (columns old_log)
                     (rows old_log ++ map (map Num) [[1; 2; 3]%Q]))
    /\ forall other, other <> "out/dev-IDVD.csv" ->
         files w' !! other = files sink_with_old_log !! other.
Proof.
  apply (append_data_arrival_order [[1; 2; 3]%Q] sink_with_old_log
           "out/dev-IDVD.csv" old_log).
  - reflexivity.
  - apply lookup_singleton_eq.
  - discriminate.
  - repeat constructor.
Defined.

Lemma path_exists_file (w : world) (path : string) (t : table) :
  files w !! path = Some t -> path_exists path w = true.
Proof.
  intros Hf. unfold path_exists. rewrite Hf.
  rewrite (bool_decide_true (is_Some (Some t))) by eauto.
  apply orb_true_r.
Qed.

Lemma path_exists_no_file (w : world) (path : string) :
  path_exists path w = false -> files w !! path = None.
Proof.
  unfold path_exists. intros H. apply orb_false_iff in H as [_ H].
  apply bool_decide_eq_false in H.
  destruct (files w !! path); [exfalso; apply H; eauto | reflexivity].
Qed.

(** C10. [initialize_csv] always returns the computed target name and
    points the sink at it.  If a CSV file of that name already exists,
    no file is written (no header row, no truncation), so that a row then
    appended lands after the contents the file already had.  The files
    change only when no file of that name existed, and then the change
    is the creation of the header-only file. *)
Theorem initialize_csv_existing_file_kept
        (w : world) (save_dir filename measurement_type : string) :
  exists (path : string) (w' : world),
    initialize_csv save_dir filename measurement_type w = (Val path, w')
    /\ path = Py.path_join save_dir
                (filename ++ (if String.eqb measurement_type "IDVD"
                              then "-IDVD.csv" else "-IDVG.csv"))
    /\ csv_file w' = Some path
    /\ (forall t : table,
          files w !! path = Some t ->
          files w' = files w
          /\ forall data_row : list Q,
              columns t <> [] ->
              length data_row = length (columns t) ->
              exists w'',
                append_data data_row w' = (Val tt, w'')
                /\ files w'' !! path
                   = Some (Table (columns t) (rows t ++ [map Num data_row])))
    /\ (files w' <> files w ->
        files w !! path = None
        /\ files w'
           = <[path := Table [(if String.eqb measurement_type "IDVD"
                               then "VD (V)" else "VG (V)");
                              "IDS (A)"; "IG (A)"] []]> (files w)).
Proof.
  unfold initialize_csv. unfold_monad. unfold makedirs, to_csv, modify.
  destruct (path_exists save_dir w) eqn:Hdir;
    destruct (String.eqb measurement_type "IDVD") eqn:Hmt; simpl.
  all: match goal with
       | |- context [path_exists ?p ?w2] =>
           lazymatch w2 with
           | set_csv_file _ _ =>
               set (path := p) in *; destruct (path_exists path (set_csv_file _ _)) eqn:Hex
           end
       end; simpl.
  all: exists path; eexists; split; [reflexivity |].
  all: split; [reflexivity |]; split; [reflexivity |]; split.
  all: try (intros Hne; exfalso; apply Hne; reflexivity).
  all: try (intros t Ht; exfalso;
            rewrite (path_exists_file _ path t) in Hex by exact Ht;
            discriminate).
  all: try (intros _; split;
            [ apply path_exists_no_file in Hex; exact Hex | reflexivity ]).
  all: intros t Ht; split; [reflexivity |];
    intros data_row Hc Hl; eexists; split;
    [ apply (append_data_ok _ path t); [reflexivity | exact Ht | exact Hc | exact Hl]
    | rewrite appended_files; apply lookup_insert_eq ].
Qed.

End DataSink.

(** ** Observations of a log *)

Lemma worker_actions_app (a b : list action) :
  worker_actions (a ++ b) = worker_actions a ++ worker_actions b.
Proof. unfold worker_actions. apply flat_map_app. Qed.

Lemma commanded_app (c : channel) (a b : list action) :
  commanded c (a ++ b) = commanded c a ++ commanded c b.
Proof. unfold commanded. apply flat_map_app. Qed.

Lemma appended_rows_app (a b : list action) :
  appended_rows (a ++ b) = appended_rows a ++ appended_rows b.
Proof. unfold appended_rows. apply flat_map_app. Qed.

Lemma swept_of_app (a b : list message) :
  swept_of (a ++ b) = swept_of a ++ swept_of b.
Proof. unfold swept_of. apply flat_map_app. Qed.

Lemma progress_of_app (a b : list message) :
  progress_of (a ++ b) = progress_of a ++ progress_of b.
Proof. unfold progress_of. apply flat_map_app. Qed.

(** ** Channel calls, sleeps and the ramp *)

Section Primitives.

Variable transport : nat -> reply.
Variable controller : nat -> option control.

(** What [initialize_csv] leaves alone. *)
Lemma initialize_csv_frame (save_dir filename measurement_type : string)
      (w : world) :
  let w' := snd (initialize_csv save_dir filename measurement_type w) in
  trace w' = trace w
  /\ data_queue w' = data_queue w
  /\ current_point w' = current_point w
  /\ io_calls w' = io_calls w
  /\ clock w' = clock w
  /\ is_measuring w' = is_measuring w
  /\ is_paused w' = is_paused w.
Proof.
  unfold initialize_csv. unfold_monad. unfold makedirs, to_csv, modify.
  destruct (String.eqb measurement_type "IDVD");
    destruct (path_exists save_dir w); cbn [negb];
    match goal with
    | |- context [path_exists ?p (set_csv_file ?q ?w1)] =>
        destruct (path_exists p (set_csv_file q w1))
    end; cbn; auto 10.
Qed.

(** A Start button leaves the pause flag as it is or clears it. *)
Lemma request_start_paused (save_dir filename measurement_type : string)
      (w : world) :
  is_paused (request (Start save_dir filename measurement_type) w) = false
  \/ is_paused (request (Start save_dir filename measurement_type) w)
     = is_paused w.
Proof.
  destruct (initialize_csv_frame save_dir filename measurement_type w)
    as (_ & _ & _ & _ & _ & _ & Hpa).
  unfold request. cbv zeta.
  destruct (is_measuring (snd (initialize_csv save_dir filename
                                              measurement_type w)));
    [right; exact Hpa | left; reflexivity].
Qed.

(** What a blocking call leaves alone, whatever the GUI thread does. *)
Lemma block_frame (w : world) :
  worker_actions (trace (block controller w)) = worker_actions (trace w)
  /\ data_queue (block controller w) = data_queue w
  /\ current_point (block controller w) = current_point w
  /\ io_calls (block controller w) = io_calls w.
Proof.
  unfold block, request.
  destruct (controller (clock w)) as [[| | |sd fn mt]|]; simpl;
    rewrite ?worker_actions_app; simpl; rewrite ?app_nil_r; auto 10.
  destruct (initialize_csv_frame sd fn mt (set_clock (S (clock w)) w))
    as (Ht & Hq & Hc & Hi & _).
  destruct (is_measuring _); simpl; rewrite Ht, Hq, Hc, Hi; auto.
Qed.

(** The sink and the file system are the GUI thread's to change only
    through a Start button. *)
Lemma block_sink (w : world) :
  no_start controller ->
  csv_file (block controller w) = csv_file w
  /\ dirs (block controller w) = dirs w
  /\ files (block controller w) = files w.
Proof.
  intros Hn. unfold block, request.
  destruct (controller (clock w)) as [[| | |sd fn mt]|] eqn:E; simpl; auto.
  exfalso. exact (Hn _ _ _ _ E).
Qed.

Lemma quiet_no_start : quiet controller -> no_start controller.
Proof. intros Hq n sd fn mt H. rewrite Hq in H. discriminate H. Qed.

Lemma block_quiet (w : world) :
  quiet controller -> block controller w = set_clock (S (clock w)) w.
Proof. intros Hq. unfold block. rewrite Hq. reflexivity. Qed.

Lemma block_flags (w : world) :
  quiet controller ->
  is_measuring (block controller w) = is_measuring w
  /\ is_paused (block controller w) = is_paused w.
Proof. intros Hq. rewrite block_quiet by assumption. split; reflexivity. Qed.

Lemma channel_call_healthy (cmds : list action) (w : world) :
  healthy transport ->
  channel_call transport controller cmds w
  = (Val (reading transport (io_calls w)),
     set_io_calls (S (io_calls w))
       (block controller (fold_left (fun acc a => log a acc) cmds w))).
Proof.
  intros Hh. unfold channel_call, reading.
  destruct (Hh (io_calls w)) as [r ->]. reflexivity.
Qed.

Lemma set_voltage_and_read_healthy (instrument : channel) (voltage : Q) (w : world) :
  healthy transport ->
  set_voltage_and_read transport controller instrument voltage w
  = (Val (reading transport (io_calls w)),
     set_io_calls (S (io_calls w))
       (block controller (log (Query instrument)
                              (log (SourVolt instrument voltage) w)))).
Proof.
  intros Hh. unfold set_voltage_and_read, try_except.
  rewrite channel_call_healthy by assumption. reflexivity.
Qed.

Lemma read_current_healthy (instrument : channel) (w : world) :
  healthy transport ->
  read_current transport controller instrument w
  = (Val (reading transport (io_calls w)),
     set_io_calls (S (io_calls w)) (block controller (log (Query instrument) w))).
Proof.
  intros Hh. unfold read_current, try_except.
  rewrite channel_call_healthy by assumption. reflexivity.
Qed.

Lemma sleep_ok (d : Q) (w : world) :
  (0 <= d)%Q ->
  sleep controller d w = (Val tt, block controller (log (Sleep d) w)).
Proof.
  intros Hd. unfold sleep.
  apply Qle_bool_iff in Hd. rewrite Hd. reflexivity.
Qed.

Lemma truediv_10 (d : Q) : Py.truediv d (inject_Z 10) = Val (d / inject_Z 10)%Q.
Proof. reflexivity. Qed.

Lemma tenth_nonneg (delay : Q) : (0 <= delay)%Q -> (0 <= delay / inject_Z 10)%Q.
Proof.
  intros Hd. unfold Qdiv. apply Qmult_le_0_compat; [exact Hd | discriminate].
Qed.

Lemma ramp_loop_healthy (instrument : channel)
      (current_voltage voltage_step delay : Q) (indices : list nat) :
  healthy transport ->
  (0 <= delay)%Q ->
  forall w, exists w',
    ramp_loop transport controller instrument current_voltage voltage_step delay 10
              indices w = (Val tt, w')
    /\ worker_actions (trace w')
       = worker_actions (trace w)
           ++ flat_map (ramp_step_actions instrument current_voltage voltage_step delay)
                       indices
    /\ data_queue w' = data_queue w
    /\ current_point w' = current_point w
    /\ io_calls w' = (io_calls w + length indices)%nat
    /\ (quiet controller ->
        is_measuring w' = is_measuring w /\ is_paused w' = is_paused w
        /\ csv_file w' = csv_file w /\ files w' = files w).
Proof.
  intros Hh Hd. induction indices as [|i rest IH]; intros w.
  - exists w. simpl. rewrite app_nil_r, Nat.add_0_r. auto 10.
  - simpl. unfold bind at 1.
    rewrite set_voltage_and_read_healthy by assumption.
    unfold bind at 1. unfold lift. rewrite truediv_10.
    unfold bind at 1. rewrite sleep_ok by (apply tenth_nonneg; exact Hd).
    match goal with |- context [ramp_loop _ _ _ _ _ _ _ rest ?w1] =>
      destruct (IH w1) as (w' & Hrun & Htr & Hq & Hc & Hio & Hfl);
      set (wmid := w1) in *
    end.
    exists w'. split; [exact Hrun |].
    subst wmid.
    destruct (block_frame (log (Sleep (delay / inject_Z 10)%Q)
                (set_io_calls (S (io_calls w))
                   (block controller
                      (log (Query instrument)
                         (log (SourVolt instrument
                                 (current_voltage + inject_Z (Z.of_nat i) * voltage_step)%Q)
                              w))))))
      as (Bt & Bq & Bc & Bi).
    destruct (block_frame (log (Query instrument)
                         (log (SourVolt instrument
                                 (current_voltage + inject_Z (Z.of_nat i) * voltage_step)%Q)
                              w)))
      as (Ct & Cq & Cc & Ci).
    simpl in *.
    rewrite Htr, Hq, Hc, Hio, Bt, Bq, Bc, Bi.
    rewrite !worker_actions_app. simpl.
    rewrite Ct, Cq, Cc.
    rewrite !worker_actions_app. simpl.
    rewrite <- !app_assoc. simpl.
    do 3 (split; [reflexivity |]). split; [lia |].
    intros Hquiet. destruct (Hfl Hquiet) as (Hm & Hpa & Hp & Hf).
    rewrite Hm, Hpa, Hp, Hf, !block_quiet by assumption. auto.
Qed.

Lemma commanded_ramp (instrument : channel) (current_voltage voltage_step delay : Q)
      (indices : list nat) :
  commanded instrument
    (flat_map (ramp_step_actions instrument current_voltage voltage_step delay) indices)
  = map (fun i => (current_voltage + inject_Z (Z.of_nat i) * voltage_step)%Q) indices.
Proof.
  induction indices as [|i rest IH]; [reflexivity |].
  cbn [flat_map map]. rewrite commanded_app, IH.
  unfold commanded at 1, ramp_step_actions. simpl.
  destruct (decide (instrument = instrument)); [reflexivity | contradiction].
Qed.

Lemma seq_0_11 : seq 0 (Z.to_nat (10 + 1)) = seq 0 11.
Proof. reflexivity. Qed.

(** C2, as the code has it.  A ramp towards a target other than 0 V
    starts at 0 V, divides the way to the target into 10 equal
    sub-steps and issues 11 set-voltage-and-read calls, one at each of
    the 11 boundary voltages [i * target / 10] for [i = 0 .. 10] (the
    start included), each followed by a sleep of [delay / 10]. *)
Theorem ramp_from_zero_eleven_commands
        (instrument : channel) (target delay : Q) (w : world) :
  healthy transport ->
  ~ (target == 0)%Q ->
  (0 <= delay)%Q ->
  exists w',
    _set_voltage_gradually transport controller instrument target delay w
    = (Val tt, w')
    /\ worker_actions (trace w')
       = worker_actions (trace w)
           ++ flat_map (ramp_step_actions instrument 0
                          ((target - 0) / inject_Z 10) delay) (seq 0 11)
    /\ Forall2 Qeq
         (commanded instrument
            (flat_map (ramp_step_actions instrument 0
                         ((target - 0) / inject_Z 10) delay) (seq 0 11)))
         (map (fun i => (inject_Z (Z.of_nat i) * (target / 10))%Q) (seq 0 11))
    /\ sleeps (flat_map (ramp_step_actions instrument 0
                           ((target - 0) / inject_Z 10) delay) (seq 0 11))
       = repeat (delay / inject_Z 10)%Q 11.
Proof.
  intros Hh Hne Hd.
  destruct (ramp_loop_healthy instrument 0 ((target - 0) / inject_Z 10) delay
              (seq 0 11) Hh Hd w) as (w' & Hrun & Htr & _).
  clear Hd.
  exists w'. split; [| split; [exact Htr | split]].
  - unfold _set_voltage_gradually, try_except.
    assert (Hb : Qeq_bool target 0 = false).
    { destruct (Qeq_bool target 0) eqn:E; [| reflexivity].
      apply Qeq_bool_iff in E. contradiction. }
    assert (Hcur : (match instrument with vds => 0%Q | vg => 0%Q end) = 0%Q)
      by (destruct instrument; reflexivity).
    rewrite Hcur, Hb. unfold bind at 1. unfold lift. rewrite truediv_10.
    change (negb false) with true. cbv beta iota.
    rewrite seq_0_11, Hrun. reflexivity.
  - rewrite commanded_ramp.
    clear Hrun Htr.
    induction (seq 0 11) as [|i rest IH]; simpl; [constructor |].
    constructor; [| exact IH].
    unfold Qdiv. change (inject_Z 10) with 10%Q. ring.
  - reflexivity.
Qed.

End Primitives.

(** C3. Two gate holds, 5 V then 10 V: the gate is walked from 0 V to
    5 V, and the second ramp commands 0 V again right after 5 V (and
    then walks to 10 V from there) instead of starting from the 5 V the
    gate was left at. *)
Theorem second_ramp_restarts_from_zero :
  map Qred
      (commanded vg
         (trace (snd (gui_start_idvd_measurement steady silent 0
                        "out" "dev" two_gate_holds (idle ∅ ∅ None)))))
  = [0; 1 # 2; 1; 3 # 2; 2; 5 # 2; 3; 7 # 2; 4; 9 # 2; 5;
     0; 1; 2; 3; 4; 5; 6; 7; 8; 9; 10]%Q.
Proof. vm_compute. reflexivity. Qed.

(** A ramp of the gate to 10 V over a healthy bus. *)
Lemma ramp_from_zero_eleven_commands_witness :
  exists w',
    _set_voltage_gradually steady silent vg 10 1 started = (Val tt, w')
    /\ worker_actions (trace w')
       = worker_actions (trace started)
           ++ flat_map (ramp_step_actions vg 0 ((10 - 0) / inject_Z 10) 1) (seq 0 11)
    /\ Forall2 Qeq
         (commanded vg
            (flat_map (ramp_step_actions vg 0 ((10 - 0) / inject_Z 10) 1) (seq 0 11)))
         (map (fun i => (inject_Z (Z.of_nat i) * (10 / 10))%Q) (seq 0 11))
    /\ sleeps (flat_map (ramp_step_actions vg 0 ((10 - 0) / inject_Z 10) 1) (seq 0 11))
       = repeat (1 / inject_Z 10)%Q 11.
Proof.
  apply (ramp_from_zero_eleven_commands steady silent vg 10 1 started).
  - intros n. exists (1 # 1000). reflexivity.
  - discriminate.
  - discriminate.
Defined.

(** C2 as the specification states it fails: the ramp from 0 V to 10 V
    issues 11 commands, beginning with the start voltage, not the 10
    commands 1, 2, ..., 10; and a ramp whose target is the start voltage
    issues no command at all, not one confirmation command. *)
Lemma ramp_ten_commands_counterexample :
  ~ Forall2 Qeq
      (commanded vg (trace (snd (_set_voltage_gradually steady silent vg 10 1 started))))
      [1; 2; 3; 4; 5; 6; 7; 8; 9; 10]%Q
  /\ map Qred
       (commanded vg (trace (snd (_set_voltage_gradually steady silent vg 10 1 started))))
     = [0; 1; 2; 3; 4; 5; 6; 7; 8; 9; 10]%Q
  /\ trace (snd (_set_voltage_gradually steady silent vg 0 1 started)) = [].
Proof.
  split; [| split].
  - intros H. apply Forall2_length in H. vm_compute in H. discriminate.
  - vm_compute. reflexivity.
  - vm_compute. reflexivity.
Qed.

(** ** Composition of run segments *)

Lemma table_rows_nil (t : table) : Table (columns t) (rows t ++ []) = t.
Proof. destruct t. simpl. rewrite app_nil_r. reflexivity. Qed.

Lemma advances_refl (path : string) (w : world) : advances path 0 [] [] w w.
Proof.
  unfold advances. rewrite !app_nil_r, Nat.add_0_r, Z.add_0_r.
  repeat split; try reflexivity.
  intros t Ht. simpl. rewrite table_rows_nil. exact Ht.
Qed.

Lemma advances_trans (path : string) (n1 n2 : nat) (m1 m2 : list message)
      (a1 a2 : list action) (w w1 w2 : world) :
  advances path n1 m1 a1 w w1 ->
  advances path n2 m2 a2 w1 w2 ->
  advances path (n1 + n2) (m1 ++ m2) (a1 ++ a2) w w2.
Proof.
  intros (Hm1 & Hp1 & Hc1 & Hi1 & Hq1 & Ht1 & Hk1 & Hf1)
         (Hm2 & Hp2 & Hc2 & Hi2 & Hq2 & Ht2 & Hk2 & Hf2).
  unfold advances.
  rewrite Hm2, Hp2, Hc2, Hi2, Hq2, Ht2, Hk2, Hm1, Hp1, Hc1, Hi1, Hq1, Ht1, Hk1.
  rewrite !app_assoc, length_app, Nat2Z.inj_add.
  repeat split; try reflexivity; try lia.
  intros t Ht. rewrite (Hf2 _ (Hf1 t Ht)). simpl.
  rewrite appended_rows_app, <- !app_assoc. reflexivity.
Qed.

Lemma ready_advances (path : string) (n : nat) (msgs : list message)
      (acts : list action) (w w' : world) :
  ready path w -> advances path n msgs acts w w' -> ready path w'.
Proof.
  intros (Hm & Hp & Hc & t & Ht & Hl) (Hm' & Hp' & Hc' & _ & _ & _ & _ & Hf).
  unfold ready. rewrite Hm', Hp', Hc'. repeat split; try assumption.
  exists (Table (columns t) (rows t ++ appended_rows acts)).
  split; [apply Hf; exact Ht | exact Hl].
Qed.

Lemma advances_eq (path : string) (n n' : nat) (m m' : list message)
      (a a' : list action) (w w' : world) :
  advances path n m a w w' -> n = n' -> m = m' -> a = a' ->
  advances path n' m' a' w w'.
Proof. intros H -> -> ->. exact H. Qed.

Lemma length_idvd_messages (transport : nat -> reply) (g : Q) (total c : Z)
      (io : nat) (l : list Q) :
  length (idvd_messages transport g total c io l) = length l.
Proof.
  revert c io. induction l as [|v rest IH]; intros c io; [reflexivity |].
  cbn [idvd_messages length]. rewrite IH. reflexivity.
Qed.

Lemma length_idvg_messages (transport : nat -> reply) (d : Q) (total c : Z)
      (io : nat) (l : list Q) :
  length (idvg_messages transport d total c io l) = length l.
Proof.
  revert c io. induction l as [|v rest IH]; intros c io; [reflexivity |].
  cbn [idvg_messages length]. rewrite IH. reflexivity.
Qed.

Lemma kinds_idvd_messages (transport : nat -> reply) (g : Q) (total c : Z)
      (io : nat) (l : list Q) :
  map kind_of (idvd_messages transport g total c io l) = repeat data (length l).
Proof.
  revert c io. induction l as [|v rest IH]; intros c io; [reflexivity |].
  cbn [idvd_messages map length repeat]. rewrite IH. reflexivity.
Qed.

Lemma kinds_idvg_messages (transport : nat -> reply) (d : Q) (total c : Z)
      (io : nat) (l : list Q) :
  map kind_of (idvg_messages transport d total c io l) = repeat data (length l).
Proof.
  revert c io. induction l as [|v rest IH]; intros c io; [reflexivity |].
  cbn [idvg_messages map length repeat]. rewrite IH. reflexivity.
Qed.


Lemma swept_of_idvg_messages (transport : nat -> reply) (d : Q) (total c : Z)
      (io : nat) (l : list Q) :
  swept_of (idvg_messages transport d total c io l) = l.
Proof.
  revert c io. induction l as [|v rest IH]; intros c io; [reflexivity |].
  cbn [idvg_messages]. change (swept_of (?m :: ?q)) with (swept_of [m] ++ swept_of q).
  rewrite IH. reflexivity.
Qed.


Lemma commanded_idvg_actions (transport : nat -> reply) (delay : Q) (io : nat)
      (l : list Q) :
  commanded vg (idvg_actions transport delay io l) = l
  /\ commanded vds (idvg_actions transport delay io l) = [].
Proof.
  revert io. induction l as [|v rest IH]; intros io; [split; reflexivity |].
  cbn [idvg_actions]. rewrite !commanded_app.
  destruct (IH (S (S io))) as [-> ->]. split; reflexivity.
Qed.

Lemma commanded_ramp_actions (c instrument : channel) (target delay : Q) :
  c <> instrument -> commanded c (ramp_actions instrument target delay) = [].
Proof.
  intros Hne. unfold ramp_actions. destruct (Qeq_bool target 0); [reflexivity |].
  induction (seq 0 11) as [|i rest IH]; [reflexivity |].
  cbn [flat_map]. rewrite commanded_app, IH.
  unfold commanded, ramp_step_actions. simpl.
  destruct (decide (c = instrument)); [contradiction | reflexivity].
Qed.

(** ** Ranges *)







Lemma int_zero (q : Q) : (q == 0)%Q -> Py.int q = 0.
Proof.
  destruct q as [n d]. unfold Qeq, Py.int. simpl. intros H.
  replace n with 0 by lia. reflexivity.
Qed.

Lemma point_count_of_quotient (from to step : Q) (q : spec_float) (n : Z) :
  sweep_quotient from to step = Val q ->
  Py.float_int q = Val n ->
  point_count from to step = Val (n + 1).
Proof. intros Hq Hn. unfold point_count. rewrite Hq, Hn. reflexivity. Qed.

Lemma float_int_value (q : spec_float) (n : Z) :
  Py.float_int q = Val n -> n = Py.int (Py.value q).
Proof. destruct q; cbn; congruence. Qed.






(** ** Error-free, uninterrupted runs *)

Section Nominal.

Variable transport : nat -> reply.
Variable controller : nat -> option control.
Hypothesis transport_healthy : healthy transport.
Hypothesis controller_quiet : quiet controller.

Lemma pause_wait_not_paused (polls : nat) (w : world) :
  is_paused w = false -> pause_wait controller polls w = (Val tt, w).
Proof.
  intros Hp. destruct polls; simpl; unfold_monad; rewrite Hp; reflexivity.
Qed.

Lemma progress_pct_ok (c total : Z) :
  total <> 0 -> progress_pct c total = Val (pct total c).
Proof.
  intros Ht. unfold progress_pct, Py.truediv, pct.
  destruct (Qeq_bool (inject_Z total) 0) eqn:E; [| reflexivity].
  apply Qeq_bool_iff in E. unfold Qeq in E. simpl in E. lia.
Qed.

Lemma ramp_nominal (path : string) (instrument : channel) (target delay : Q)
      (w : world) :
  (0 <= delay)%Q ->
  exists w',
    _set_voltage_gradually transport controller instrument target delay w
    = (Val tt, w')
    /\ advances path (ramp_calls target) [] (ramp_actions instrument target delay) w w'.
Proof.
  intros Hd. unfold ramp_calls, ramp_actions.
  destruct (Qeq_bool target 0) eqn:E.
  - exists w. split; [| apply advances_refl].
    unfold _set_voltage_gradually, try_except.
    destruct instrument; rewrite E; reflexivity.
  - assert (Hne : ~ (target == 0)%Q).
    { intros H. apply Qeq_bool_iff in H. congruence. }
    destruct (ramp_loop_healthy transport controller instrument 0
                ((target - 0) / inject_Z 10) delay (seq 0 11)
                transport_healthy Hd w)
      as (w' & Hrun & Htr & Hq & Hp & Hio & Hfl).
    destruct (Hfl controller_quiet) as (Hm & Hpa & Hc & Hf).
    exists w'. split.
    + unfold _set_voltage_gradually, try_except.
      assert (Hcur : (match instrument with vds => 0%Q | vg => 0%Q end) = 0%Q)
        by (destruct instrument; reflexivity).
      rewrite Hcur, E. unfold bind at 1. unfold lift. rewrite truediv_10.
      change (negb false) with true. cbv beta iota.
      rewrite seq_0_11, Hrun. reflexivity.
    + unfold advances. rewrite Hm, Hpa, Hp, Hio, Hq, Htr, Hc, app_nil_r, Z.add_0_r.
      repeat split; try reflexivity.
      intros t Ht. rewrite Hf, Ht.
      assert (Hnone : appended_rows
                        (flat_map (ramp_step_actions instrument 0
                                     ((target - 0) / inject_Z 10) delay) (seq 0 11))
                      = []) by reflexivity.
      rewrite Hnone, table_rows_nil. reflexivity.
Qed.

Lemma idvd_point_nominal (path : string) (polls : nat) (vg_hold : Q) (total : Z)
      (vds_delay vds_now : Q) (w : world) :
  ready path w ->
  total <> 0 ->
  (0 <= vds_delay)%Q ->
  exists w',
    idvd_point transport controller polls vg_hold total vds_delay vds_now w
    = (Val Next, w')
    /\ advances path 2
                (idvd_messages transport vg_hold total (current_point w)
                               (io_calls w) [vds_now])
                (idvd_actions transport vds_delay (io_calls w) [vds_now]) w w'.
Proof.
  intros (Hm & Hp & Hc & t & Ht & Hl) Htot Hd.
  unfold idvd_point. unfold bind at 1. unfold get at 1. rewrite Hm.
  change (negb true) with false. cbv iota.
  unfold bind at 1. rewrite pause_wait_not_paused by exact Hp.
  unfold try_except.
  unfold bind at 1. rewrite set_voltage_and_read_healthy by assumption.
  unfold bind at 1. rewrite read_current_healthy by assumption.
  rewrite !block_quiet by assumption.
  unfold bind at 1. unfold get at 1. cbn [current_point set_io_calls set_clock log].
  unfold bind at 1. unfold lift. rewrite progress_pct_ok by assumption.
  unfold bind at 1. unfold modify at 1.
  unfold bind at 1.
  erewrite (append_data_ok _ path t); cycle 1.
  { exact Hc. } { exact Ht. }
  { intros E. rewrite E in Hl. discriminate. }
  { rewrite Hl. reflexivity. }
  unfold bind at 1. unfold modify at 1.
  unfold bind at 1. rewrite sleep_ok by assumption.
  rewrite block_quiet by assumption.
  eexists. split; [reflexivity |].
  unfold advances. cbn -[Z.add Z.of_nat Nat.add].
  rewrite !worker_actions_app. cbn -[Z.add Z.of_nat Nat.add].
  rewrite <- !app_assoc. cbn -[Z.add Z.of_nat Nat.add].
  repeat split; try reflexivity; try assumption; try lia.
  intros t' Ht'. rewrite Ht in Ht'. injection Ht' as <-.
  rewrite lookup_insert_eq. reflexivity.
Qed.

Lemma idvd_sweep_nominal (path : string) (polls : nat) (vg_hold : Q) (total : Z)
      (vds_delay : Q) (l : list Q) :
  total <> 0 ->
  (0 <= vds_delay)%Q ->
  forall w,
    ready path w ->
    exists w',
      for_each (idvd_point transport controller polls vg_hold total vds_delay) l w
      = (Val tt, w')
      /\ advances path (2 * length l)
                  (idvd_messages transport vg_hold total (current_point w)
                                 (io_calls w) l)
                  (idvd_actions transport vds_delay (io_calls w) l) w w'.
Proof.
  intros Htot Hd. induction l as [|v rest IH]; intros w Hr.
  - exists w. split; [reflexivity | apply advances_refl].
  - destruct (idvd_point_nominal path polls vg_hold total vds_delay v w Hr Htot Hd)
      as (w1 & Hrun1 & Hadv1).
    destruct (IH w1 (ready_advances _ _ _ _ _ _ Hr Hadv1)) as (w' & Hrun & Hadv).
    exists w'. split.
    + cbn [for_each]. unfold bind at 1. rewrite Hrun1. exact Hrun.
    + pose proof Hadv1 as (_ & _ & _ & Hio & _ & _ & Hcp & _).
      rewrite Hio, Hcp in Hadv. cbn [length idvd_messages] in Hadv.
      replace (io_calls w + 2)%nat with (S (S (io_calls w))) in Hadv by lia.
      change (Z.of_nat 1) with 1 in Hadv.
      pose proof (advances_trans _ _ _ _ _ _ _ _ _ _ Hadv1 Hadv) as H.
      replace (2 * length (v :: rest))%nat with (2 + 2 * length rest)%nat
        by (cbn [length]; lia).
      exact H.
Qed.

Lemma idvg_point_nominal (path : string) (polls : nat) (vds_hold : Q) (total : Z)
      (vg_delay vg_now : Q) (w : world) :
  ready path w ->
  total <> 0 ->
  (0 <= vg_delay)%Q ->
  exists w',
    idvg_point transport controller polls vds_hold total vg_delay vg_now w
    = (Val Next, w')
    /\ advances path 2
                (idvg_messages transport vds_hold total (current_point w)
                               (io_calls w) [vg_now])
                (idvg_actions transport vg_delay (io_calls w) [vg_now]) w w'.
Proof.
  intros (Hm & Hp & Hc & t & Ht & Hl) Htot Hd.
  unfold idvg_point. unfold bind at 1. unfold get at 1. rewrite Hm.
  change (negb true) with false. cbv iota.
  unfold bind at 1. rewrite pause_wait_not_paused by exact Hp.
  unfold try_except.
  unfold bind at 1. rewrite read_current_healthy by assumption.
  unfold bind at 1. rewrite set_voltage_and_read_healthy by assumption.
  rewrite !block_quiet by assumption.
  unfold bind at 1. unfold get at 1. cbn [current_point set_io_calls set_clock log].
  unfold bind at 1. unfold lift. rewrite progress_pct_ok by assumption.
  unfold bind at 1. unfold modify at 1.
  unfold bind at 1.
  erewrite (append_data_ok _ path t); cycle 1.
  { exact Hc. } { exact Ht. }
  { intros E. rewrite E in Hl. discriminate. }
  { rewrite Hl. reflexivity. }
  unfold bind at 1. unfold modify at 1.
  unfold bind at 1. rewrite sleep_ok by assumption.
  rewrite block_quiet by assumption.
  eexists. split; [reflexivity |].
  unfold advances. cbn -[Z.add Z.of_nat Nat.add].
  rewrite !worker_actions_app. cbn -[Z.add Z.of_nat Nat.add].
  rewrite <- !app_assoc. cbn -[Z.add Z.of_nat Nat.add].
  repeat split; try reflexivity; try assumption; try lia.
  intros t' Ht'. rewrite Ht in Ht'. injection Ht' as <-.
  rewrite lookup_insert_eq. reflexivity.
Qed.

Lemma idvg_sweep_nominal (path : string) (polls : nat) (vds_hold : Q) (total : Z)
      (vg_delay : Q) (l : list Q) :
  total <> 0 ->
  (0 <= vg_delay)%Q ->
  forall w,
    ready path w ->
    exists w',
      for_each (idvg_point transport controller polls vds_hold total vg_delay) l w
      = (Val tt, w')
      /\ advances path (2 * length l)
                  (idvg_messages transport vds_hold total (current_point w)
                                 (io_calls w) l)
                  (idvg_actions transport vg_delay (io_calls w) l) w w'.
Proof.
  intros Htot Hd. induction l as [|v rest IH]; intros w Hr.
  - exists w. split; [reflexivity | apply advances_refl].
  - destruct (idvg_point_nominal path polls vds_hold total vg_delay v w Hr Htot Hd)
      as (w1 & Hrun1 & Hadv1).
    destruct (IH w1 (ready_advances _ _ _ _ _ _ Hr Hadv1)) as (w' & Hrun & Hadv).
    exists w'. split.
    + cbn [for_each]. unfold bind at 1. rewrite Hrun1. exact Hrun.
    + pose proof Hadv1 as (_ & _ & _ & Hio & _ & _ & Hcp & _).
      rewrite Hio, Hcp in Hadv. cbn [length idvg_messages] in Hadv.
      replace (io_calls w + 2)%nat with (S (S (io_calls w))) in Hadv by lia.
      change (Z.of_nat 1) with 1 in Hadv.
      pose proof (advances_trans _ _ _ _ _ _ _ _ _ _ Hadv1 Hadv) as H.
      replace (2 * length (v :: rest))%nat with (2 + 2 * length rest)%nat
        by (cbn [length]; lia).
      exact H.
Qed.

Lemma set_voltage_and_read_nominal (path : string) (instrument : channel)
      (voltage : Q) (w : world) :
  exists r w',
    set_voltage_and_read transport controller instrument voltage w = (Val r, w')
    /\ advances path 1 [] [SourVolt instrument voltage; Query instrument] w w'.
Proof.
  rewrite set_voltage_and_read_healthy by assumption.
  rewrite block_quiet by assumption.
  eexists _, _. split; [reflexivity |].
  unfold advances. cbn -[Z.add Z.of_nat Nat.add].
  rewrite !worker_actions_app, <- !app_assoc, app_nil_r, Z.add_0_r.
  repeat split; try reflexivity; try lia.
  intros t Ht. cbn. rewrite table_rows_nil. exact Ht.
Qed.

Lemma sleep_nominal (path : string) (d : Q) (w : world) :
  (0 <= d)%Q ->
  exists w',
    sleep controller d w = (Val tt, w')
    /\ advances path 0 [] [Sleep d] w w'.
Proof.
  intros Hd. rewrite sleep_ok by assumption.
  rewrite block_quiet by assumption.
  eexists. split; [reflexivity |].
  unfold advances. cbn -[Z.add Z.of_nat Nat.add].
  rewrite !worker_actions_app, app_nil_r, Z.add_0_r, Nat.add_0_r.
  repeat split; try reflexivity.
  intros t Ht. cbn. rewrite table_rows_nil. exact Ht.
Qed.

Lemma idvd_gate_hold_nominal (path : string) (polls : nat)
      (vds_from vds_to vds_step vg_delay vds_delay : Q) (total : Z) (g : Q)
      (l : list Q) (w : world) :
  ready path w ->
  total <> 0 ->
  (0 <= vg_delay)%Q ->
  (0 <= vds_delay)%Q ->
  sweep_values vds_from vds_to vds_step = Val l ->
  exists w',
    idvd_gate_hold transport controller polls vds_from vds_to vds_step
                   vg_delay vds_delay total g w = (Val Next, w')
    /\ advances path (idvd_hold_calls g l)
                (idvd_hold_messages transport g total (current_point w) (io_calls w) l)
                (idvd_hold_actions transport vg_delay vds_delay g (io_calls w) l)
                w w'.
Proof.
  intros Hr Htot Hvg Hvd Hl.
  pose proof Hr as (Hm & _).
  unfold idvd_gate_hold. unfold bind at 1. unfold get at 1. rewrite Hm.
  change (negb true) with false. cbv iota.
  destruct (ramp_nominal path vg g vg_delay w Hvg) as (w1 & R1 & A1).
  unfold bind at 1. rewrite R1.
  unfold bind at 1. unfold lift. rewrite Hl.
  pose proof (ready_advances _ _ _ _ _ _ Hr A1) as Hr1.
  destruct (idvd_sweep_nominal path polls g total vds_delay l Htot Hvd w1 Hr1)
    as (w2 & R2 & A2).
  unfold bind at 1. rewrite R2.
  pose proof (ready_advances _ _ _ _ _ _ Hr1 A2) as Hr2.
  destruct (idvd_sweep_nominal path polls g total vds_delay (rev l) Htot Hvd w2 Hr2)
    as (w3 & R3 & A3).
  unfold bind at 1. rewrite R3.
  destruct (set_voltage_and_read_nominal path vds 0 w3) as (r & w4 & R4 & A4).
  unfold bind at 1. rewrite R4.
  destruct (sleep_nominal path vg_delay w4 Hvg) as (w5 & R5 & A5).
  unfold bind at 1. rewrite R5.
  exists w5. split; [reflexivity |].
  pose proof A1 as (_ & _ & _ & Hio1 & _ & _ & Hcp1 & _).
  pose proof A2 as (_ & _ & _ & Hio2 & _ & _ & Hcp2 & _).
  rewrite Hio2, Hcp2, length_idvd_messages in A3.
  rewrite Hio1, Hcp1 in A2, A3.
  cbn [length] in A2, A3. rewrite Z.add_0_r in A2, A3.
  pose proof (advances_trans _ _ _ _ _ _ _ _ _ _ A1
               (advances_trans _ _ _ _ _ _ _ _ _ _ A2
                  (advances_trans _ _ _ _ _ _ _ _ _ _ A3
                     (advances_trans _ _ _ _ _ _ _ _ _ _ A4 A5)))) as H.
  apply (advances_eq _ _ _ _ _ _ _ _ _ H).
  - unfold idvd_hold_calls. rewrite length_rev. lia.
  - unfold idvd_hold_messages. cbn [app]. rewrite !app_nil_r. reflexivity.
  - unfold idvd_hold_actions. cbn [app]. reflexivity.
Qed.

Lemma idvg_drain_hold_nominal (path : string) (polls : nat)
      (vg_from vg_to vg_step vds_delay vg_delay : Q) (total : Z) (d : Q)
      (l : list Q) (w : world) :
  ready path w ->
  total <> 0 ->
  (0 <= vds_delay)%Q ->
  (0 <= vg_delay)%Q ->
  sweep_values vg_from vg_to vg_step = Val l ->
  exists w',
    idvg_drain_hold transport controller polls vg_from vg_to vg_step
                    vds_delay vg_delay total d w = (Val Next, w')
    /\ advances path (idvg_hold_calls d l)
                (idvg_hold_messages transport d total (current_point w) (io_calls w) l)
                (idvg_hold_actions transport vds_delay vg_delay d (io_calls w) l)
                w w'.
Proof.
  intros Hr Htot Hvd Hvg Hl.
  pose proof Hr as (Hm & _).
  unfold idvg_drain_hold. unfold bind at 1. unfold get at 1. rewrite Hm.
  change (negb true) with false. cbv iota.
  destruct (ramp_nominal path vds d vds_delay w Hvd) as (w1 & R1 & A1).
  unfold bind at 1. rewrite R1.
  unfold bind at 1. unfold lift. rewrite Hl.
  pose proof (ready_advances _ _ _ _ _ _ Hr A1) as Hr1.
  destruct (idvg_sweep_nominal path polls d total vg_delay l Htot Hvg w1 Hr1)
    as (w2 & R2 & A2).
  unfold bind at 1. rewrite R2.
  destruct (sleep_nominal path vds_delay w2 Hvd) as (w3 & R3 & A3).
  unfold bind at 1. rewrite R3.
  exists w3. split; [reflexivity |].
  pose proof A1 as (_ & _ & _ & Hio1 & _ & _ & Hcp1 & _).
  rewrite Hio1, Hcp1 in A2.
  cbn [length] in A2. rewrite Z.add_0_r in A2.
  pose proof (advances_trans _ _ _ _ _ _ _ _ _ _ A1
               (advances_trans _ _ _ _ _ _ _ _ _ _ A2 A3)) as H.
  apply (advances_eq _ _ _ _ _ _ _ _ _ H).
  - unfold idvg_hold_calls. lia.
  - unfold idvg_hold_messages. cbn [app]. rewrite !app_nil_r. reflexivity.
  - unfold idvg_hold_actions. reflexivity.
Qed.



(** C8, for the GUI worker.  One drain hold of the ID-VG worker, on a
    healthy bus and without control requests, sweeps the gate in the
    forward direction only: exactly one point per gate value, in the
    order of the range, and the gate is commanded to exactly these
    values. *)
Theorem idvg_drain_hold_forward_only
        (path : string) (polls : nat)
        (vg_from vg_to vg_step vds_delay vg_delay : Q) (total : Z) (d : Q)
        (l : list Q) (w : world) :
  ready path w ->
  total <> 0 ->
  (0 <= vds_delay)%Q ->
  (0 <= vg_delay)%Q ->
  sweep_values vg_from vg_to vg_step = Val l ->
  exists w' msgs acts,
    idvg_drain_hold transport controller polls vg_from vg_to vg_step
                    vds_delay vg_delay total d w = (Val Next, w')
    /\ data_queue w' = data_queue w ++ msgs
    /\ worker_actions (trace w') = worker_actions (trace w) ++ acts
    /\ map kind_of msgs = repeat data (length l)
    /\ swept_of msgs = l
    /\ commanded vg acts = l.
Proof.
  intros Hr Htot Hvd Hvg Hl.
  destruct (idvg_drain_hold_nominal path polls vg_from vg_to vg_step
              vds_delay vg_delay total d l w Hr Htot Hvd Hvg Hl)
    as (w' & Hrun & (_ & _ & _ & _ & Hq & Ht & _)).
  exists w', (idvg_hold_messages transport d total (current_point w) (io_calls w) l),
    (idvg_hold_actions transport vds_delay vg_delay d (io_calls w) l).
  split; [exact Hrun |]. split; [exact Hq |]. split; [exact Ht |].
  unfold idvg_hold_messages, idvg_hold_actions.
  split; [| split].
  - apply kinds_idvg_messages.
  - apply swept_of_idvg_messages.
  - rewrite !commanded_app, commanded_ramp_actions by discriminate.
    destruct (commanded_idvg_actions transport vg_delay
                (io_calls w + ramp_calls d) l) as [-> _].
    rewrite app_nil_r. reflexivity.
Qed.

End Nominal.

(** ** The error-free theorems at work *)

Lemma steady_healthy : healthy steady.
Proof. intros n. exists (1 # 1000). reflexivity. Qed.

Lemma silent_quiet : quiet silent.
Proof. intros n. reflexivity. Qed.


Lemma ready_armed_idvg : ready "out/dev-IDVG.csv" armed_idvg.
Proof.
  repeat split. eexists. split; [apply lookup_singleton_eq | reflexivity].
Qed.





(** A drain hold at 5 V sweeping the gate over -1, -0.5, 0, 0.5, 1 V. *)
Lemma idvg_drain_hold_forward_only_witness :
  exists w' msgs acts,
    idvg_drain_hold steady silent 0 (-1) 1 (1 # 2) (1 # 2) (1 # 4) 10 5 armed_idvg
    = (Val Next, w')
    /\ data_queue w' = data_queue armed_idvg ++ msgs
    /\ worker_actions (trace w') = worker_actions (trace armed_idvg) ++ acts
    /\ map kind_of msgs = repeat data (length (Py.linspace_samples (-1) 1 5))
    /\ swept_of msgs = Py.linspace_samples (-1) 1 5
    /\ commanded vg acts = Py.linspace_samples (-1) 1 5.
Proof.
  apply (idvg_drain_hold_forward_only steady silent steady_healthy silent_quiet
           "out/dev-IDVG.csv" 0 (-1) 1 (1 # 2) (1 # 2) (1 # 4) 10 5
           (Py.linspace_samples (-1) 1 5) armed_idvg).
  - exact ready_armed_idvg.
  - lia.
  - discriminate.
  - discriminate.
  - reflexivity.
Defined.

(** C8 as the specification states it fails for the stand-alone script:
    holding the drain at 1 V and sweeping the gate over 0, 1, 2 V, it
    writes the hold marker and then six measurement rows, the gate going
    0, 1, 2 and back 2, 1, 0: two points per gate value, not one. *)
Lemma script_sweeps_gate_in_reverse_too :
  fst (FET_IDVG_2T_Keithley2450 steady silent "out" "dev" script_request
         (idle {["out"]} ∅ None)) = Val tt
  /\ rows_at "out/dev-IDVG.csv"
       (snd (FET_IDVG_2T_Keithley2450 steady silent "out" "dev" script_request
               (idle {["out"]} ∅ None)))
     = [[Num 1; Text ""; Text ""];
        [Num 0; Num (1 # 1000); Num (1 # 1000)];
        [Num 1; Num (1 # 1000); Num (1 # 1000)];
        [Num 2; Num (1 # 1000); Num (1 # 1000)];
        [Num 2; Num (1 # 1000); Num (1 # 1000)];
        [Num 1; Num (1 # 1000); Num (1 # 1000)];
        [Num 0; Num (1 # 1000); Num (1 # 1000)]]
  /\ (exists l, sweep_values 0 2 1 = Val l /\ map Qred l = [0; 1; 2]%Q).
Proof.
  split; [| split]; [vm_compute; reflexivity | vm_compute; reflexivity |].
  eexists. split; [reflexivity | vm_compute; reflexivity].
Qed.

(** ** Steps that leave the queue and the counter alone *)

Section Keeps.

Variable transport : nat -> reply.
Variable controller : nat -> option control.

Lemma keeps_ret {A} (a : A) : keeps (ret a).
Proof. intros w. split; reflexivity. Qed.

Lemma keeps_raise {A} (e : string) : keeps (@raise A e).
Proof. intros w. split; reflexivity. Qed.

Lemma keeps_lift {A} (r : result A) : keeps (lift r).
Proof. intros w. split; reflexivity. Qed.

Lemma keeps_get {A} (f : world -> A) : keeps (get f).
Proof. intros w. split; reflexivity. Qed.

Lemma keeps_hang {A} : keeps (@hang A).
Proof. intros w. split; reflexivity. Qed.

Lemma keeps_modify (f : world -> world) :
  (forall w, data_queue (f w) = data_queue w
             /\ current_point (f w) = current_point w) ->
  keeps (modify f).
Proof. intros Hf w. apply Hf. Qed.

Lemma keeps_bind {A B} (c : M A) (k : A -> M B) :
  keeps c -> (forall a, keeps (k a)) -> keeps (bind c k).
Proof.
  intros Hc Hk w. unfold bind. destruct (Hc w) as [Hq Hp].
  destruct (c w) as [[a|e|] w1]; simpl in *; try (split; assumption).
  destruct (Hk a w1) as [Hq' Hp']. rewrite Hq', Hp'. split; assumption.
Qed.

Lemma keeps_try_except {A} (body : M A) (handler : string -> M A) :
  keeps body -> (forall e, keeps (handler e)) -> keeps (try_except body handler).
Proof.
  intros Hb Hh w. unfold try_except. destruct (Hb w) as [Hq Hp].
  destruct (body w) as [[a|e|] w1]; simpl in *; try (split; assumption).
  destruct (Hh e w1) as [Hq' Hp']. rewrite Hq', Hp'. split; assumption.
Qed.

Lemma keeps_sleep (d : Q) : keeps (sleep controller d).
Proof.
  intros w. unfold sleep. destruct (Qle_bool 0 d); [| split; reflexivity].
  destruct (block_frame controller (log (Sleep d) w)) as (_ & Hq & Hc & _).
  simpl. rewrite Hq, Hc. split; reflexivity.
Qed.

Lemma keeps_channel_call (cmds : list action) :
  keeps (channel_call transport controller cmds).
Proof.
  intros w. unfold channel_call.
  assert (H : forall l w0, data_queue (fold_left (fun acc a => log a acc) l w0)
                           = data_queue w0
                           /\ current_point (fold_left (fun acc a => log a acc) l w0)
                              = current_point w0).
  { induction l as [|a rest IH]; intros w0; [split; reflexivity |].
    simpl. destruct (IH (log a w0)) as [-> ->]. split; reflexivity. }
  destruct (block_frame controller
              (fold_left (fun acc a => log a acc)
                         (went_out (transport (io_calls w)) cmds) w))
    as (_ & Hq & Hc & _).
  destruct (H (went_out (transport (io_calls w)) cmds) w) as [Hq0 Hc0].
  destruct (transport (io_calls w)); simpl; simpl in Hq, Hc, Hq0, Hc0;
    rewrite Hq, Hc, Hq0, Hc0; split; reflexivity.
Qed.

Lemma keeps_set_voltage_and_read (instrument : channel) (voltage : Q) :
  keeps (set_voltage_and_read transport controller instrument voltage).
Proof.
  apply keeps_try_except; [apply keeps_channel_call | intros e; apply keeps_raise].
Qed.

Lemma keeps_read_current (instrument : channel) :
  keeps (read_current transport controller instrument).
Proof.
  apply keeps_try_except; [apply keeps_channel_call | intros e; apply keeps_raise].
Qed.

Lemma keeps_read_csv (p : option string) : keeps (read_csv p).
Proof.
  intros w. unfold read_csv. repeat case_match; split; reflexivity.
Qed.

Lemma keeps_to_csv (df : table) (path : string) : keeps (to_csv df path).
Proof. apply keeps_modify. intros w. split; reflexivity. Qed.

Lemma keeps_append_data (data_row : list Q) : keeps (append_data data_row).
Proof.
  apply keeps_try_except; [| intros e; apply keeps_raise].
  apply keeps_bind; [apply keeps_get | intros p].
  apply keeps_bind; [apply keeps_read_csv | intros df].
  apply keeps_bind.
  { destruct (Py.len (rows df) =? 0); [apply keeps_lift |].
    apply keeps_bind; [apply keeps_lift | intros r; apply keeps_ret]. }
  intros df'. apply keeps_bind.
  { destruct p; [apply keeps_to_csv | apply keeps_raise]. }
  intros _. apply keeps_modify. intros w. split; reflexivity.
Qed.

Lemma keeps_ramp_loop (instrument : channel) (current_voltage voltage_step delay : Q)
      (steps : Z) (indices : list nat) :
  keeps (ramp_loop transport controller instrument current_voltage voltage_step
                   delay steps indices).
Proof.
  induction indices as [|i rest IH]; [apply keeps_ret |].
  cbn [ramp_loop].
  apply keeps_bind; [apply keeps_set_voltage_and_read | intros _].
  apply keeps_bind; [apply keeps_lift | intros d].
  apply keeps_bind; [apply keeps_sleep | intros _]. exact IH.
Qed.

Lemma keeps_set_voltage_gradually (instrument : channel) (target delay : Q) :
  keeps (_set_voltage_gradually transport controller instrument target delay).
Proof.
  unfold _set_voltage_gradually.
  apply keeps_try_except; [| intros e; apply keeps_raise]. cbv zeta.
  match goal with |- context [negb ?b] => destruct (negb b) end;
    [| apply keeps_ret].
  apply keeps_bind; [apply keeps_lift | intros s]. apply keeps_ramp_loop.
Qed.

Lemma keeps_pause_wait (polls : nat) : keeps (pause_wait controller polls).
Proof.
  induction polls as [|n IH].
  - cbn [pause_wait]. apply keeps_bind; [apply keeps_get | intros p].
    destruct p; [apply keeps_hang | apply keeps_ret].
  - cbn [pause_wait]. apply keeps_bind; [apply keeps_get | intros p].
    destruct p; [| apply keeps_ret].
    apply keeps_bind; [apply keeps_sleep | intros _].
    apply keeps_bind; [apply keeps_get | intros m].
    destruct (negb m); [apply keeps_ret | exact IH].
Qed.

End Keeps.

(** ** Progress: what every run preserves *)

Section Progress.

Variable transport : nat -> reply.
Variable controller : nat -> option control.
Variable total : Z.

Lemma emits_refl (w : world) : emits total 0 w w.
Proof.
  exists [], []. rewrite app_nil_r, Z.add_0_r.
  repeat split; try reflexivity; try constructor; lia.
Qed.

Lemma emits_mono (n m : nat) (w w' : world) :
  (n <= m)%nat -> emits total n w w' -> emits total m w w'.
Proof.
  intros Hnm (msgs & ks & Hq & Hp & Hs & Hf & Hc).
  exists msgs, ks. repeat split; try assumption; try lia.
  eapply Forall_impl; [exact Hf |]. simpl. intros k Hk. lia.
Qed.

Lemma emits_trans (n m : nat) (w w1 w2 : world) :
  emits total n w w1 -> emits total m w1 w2 -> emits total (n + m) w w2.
Proof.
  intros (m1 & k1 & Hq1 & Hp1 & Hs1 & Hf1 & Hc1)
         (m2 & k2 & Hq2 & Hp2 & Hs2 & Hf2 & Hc2).
  exists (m1 ++ m2), (k1 ++ k2).
  rewrite Hq2, Hq1, app_assoc, progress_of_app, Hp1, Hp2, map_app.
  split; [reflexivity |]. split; [reflexivity |]. split; [| split].
  - apply StronglySorted_app_2; try assumption.
    intros x1 x2 H1 H2.
    pose proof (proj1 (Forall_forall _ _) Hf1 x1 H1) as B1.
    pose proof (proj1 (Forall_forall _ _) Hf2 x2 H2) as B2.
    simpl in B1, B2. lia.
  - apply Forall_app. split.
    + eapply Forall_impl; [exact Hf1 |]. simpl. intros k Hk. lia.
    + eapply Forall_impl; [exact Hf2 |]. simpl. intros k Hk. lia.
  - lia.
Qed.

Lemma keeps_emits {A} (c : M A) : keeps c -> carries (emits total 0) c.
Proof.
  intros Hk w. destruct (Hk w) as [Hq Hc].
  exists [], []. rewrite Hq, Hc, app_nil_r, Z.add_0_r.
  repeat split; try reflexivity; try constructor; lia.
Qed.

Lemma carries_bind {A B} (n m : nat) (c : M A) (k : A -> M B) :
  carries (emits total n) c ->
  (forall a, carries (emits total m) (k a)) ->
  carries (emits total (n + m)) (bind c k).
Proof.
  intros Hc Hk w. unfold bind. specialize (Hc w).
  destruct (c w) as [[a|e|] w1]; simpl in *.
  - eapply emits_trans; [exact Hc | apply Hk].
  - eapply emits_mono; [| exact Hc]. lia.
  - eapply emits_mono; [| exact Hc]. lia.
Qed.

Lemma carries_bind_l {A B} (n : nat) (c : M A) (k : A -> M B) :
  carries (emits total 0) c ->
  (forall a, carries (emits total n) (k a)) ->
  carries (emits total n) (bind c k).
Proof. intros Hc Hk. apply (carries_bind 0 n); assumption. Qed.

Lemma carries_bind_r {A B} (n : nat) (c : M A) (k : A -> M B) :
  carries (emits total n) c ->
  (forall a, carries (emits total 0) (k a)) ->
  carries (emits total n) (bind c k).
Proof.
  intros Hc Hk w. eapply emits_mono; [| apply (carries_bind n 0); eassumption]. lia.
Qed.

Lemma carries_try_except {A} (n : nat) (body : M A) (handler : string -> M A) :
  carries (emits total n) body ->
  (forall e, carries (emits total 0) (handler e)) ->
  carries (emits total n) (try_except body handler).
Proof.
  intros Hb Hh w. unfold try_except. specialize (Hb w).
  destruct (body w) as [[a|e|] w1]; simpl in *; try exact Hb.
  eapply emits_mono; [| eapply emits_trans; [exact Hb | apply Hh]]. lia.
Qed.

Lemma carries_mono {A} (n m : nat) (c : M A) :
  (n <= m)%nat -> carries (emits total n) c -> carries (emits total m) c.
Proof. intros Hnm Hc w. eapply emits_mono; [exact Hnm | apply Hc]. Qed.

Lemma carries_ret {A} (a : A) : carries (emits total 0) (ret a).
Proof. intros w. apply emits_refl. Qed.

Lemma carries_raise {A} (e : string) : carries (emits total 0) (@raise A e).
Proof. intros w. apply emits_refl. Qed.

Lemma carries_lift {A} (r : result A) : carries (emits total 0) (lift r).
Proof. intros w. apply emits_refl. Qed.

Lemma carries_get {A} (f : world -> A) : carries (emits total 0) (get f).
Proof. intros w. apply emits_refl. Qed.

Lemma carries_hang {A} : carries (emits total 0) (@hang A).
Proof. intros w. apply emits_refl. Qed.

Lemma carries_lift_bind {A B} (n : nat) (r : result A) (k : A -> M B) :
  (forall a, r = Val a -> carries (emits total n) (k a)) ->
  carries (emits total n) (bind (lift r) k).
Proof.
  intros H w. unfold bind, lift. destruct r as [a|e|]; simpl.
  - apply H. reflexivity.
  - eapply emits_mono; [| apply emits_refl]. lia.
  - eapply emits_mono; [| apply emits_refl]. lia.
Qed.

Lemma carries_for_each {A} (n : nat) (body : A -> M loop_exit) (l : list A) :
  (forall x, carries (emits total n) (body x)) ->
  carries (emits total (length l * n)) (for_each body l).
Proof.
  intros Hb. induction l as [|x rest IH]; [apply carries_ret |].
  cbn [for_each length]. change (S (length rest) * n)%nat with (n + length rest * n)%nat.
  apply (carries_bind n (length rest * n)); [apply Hb |].
  intros [|]; [exact IH |].
  eapply carries_mono; [| apply carries_ret]. lia.
Qed.

Lemma carries_enqueue_plain (m : message) :
  progress_of [m] = [] -> carries (emits total 0) (modify (enqueue m)).
Proof.
  intros Hm w. exists [m], []. simpl. rewrite Z.add_0_r.
  repeat split; try assumption; try constructor; lia.
Qed.

Lemma progress_pct_val (c : Z) (q : Q) :
  progress_pct c total = Val q -> q = pct total c.
Proof.
  unfold progress_pct, Py.truediv, pct.
  destruct (Qeq_bool (inject_Z total) 0); [discriminate |].
  intros [= <-]. reflexivity.
Qed.

(** The part of a point that reads the counter, emits, saves and counts. *)
Lemma carries_point_tail (mk : Q -> data_point) (data_row : list Q) (d : Q) :
  (forall q, progress_of [Data (mk q)] = [q]) ->
  carries (emits total 1)
    (c <- get current_point ;;
     p <- lift (progress_pct c total) ;;
     modify (enqueue (Data (mk p))) ;;
     append_data data_row ;;
     modify (set_current_point (c + 1)) ;;
     sleep controller d ;;
     ret Next).
Proof.
  intros Hmk w. unfold bind at 1. unfold get at 1.
  unfold bind at 1. unfold lift at 1.
  destruct (progress_pct (current_point w) total) as [q|e|] eqn:E;
    [| eapply emits_mono; [| apply emits_refl]; lia
     | eapply emits_mono; [| apply emits_refl]; lia].
  apply progress_pct_val in E. subst q.
  unfold bind at 1. unfold modify at 1.
  set (w1 := enqueue (Data (mk (pct total (current_point w)))) w).
  unfold bind at 1.
  destruct (keeps_append_data data_row w1) as [Hq2 Hc2].
  destruct (append_data data_row w1) as [[[]|e|] w2]; simpl in Hq2, Hc2.
  - unfold bind at 1. unfold modify at 1.
    set (w3 := set_current_point (current_point w + 1) w2).
    unfold bind at 1.
    destruct (keeps_sleep controller d w3) as [Hq4 Hc4].
    assert (Hfin : forall w4,
               data_queue w4 = data_queue w3 ->
               current_point w4 = current_point w3 ->
               emits total 1 w w4).
    { intros w4 Hq Hc. exists [Data (mk (pct total (current_point w)))],
                                [current_point w].
      rewrite Hq, Hc. subst w3. simpl. rewrite Hq2. subst w1. simpl.
      repeat split; try apply Hmk; try lia.
      - repeat constructor.
      - repeat constructor; lia. }
    destruct (sleep controller d w3) as [[[]|e|] w4]; simpl in Hq4, Hc4;
      apply Hfin; assumption.
  - exists [Data (mk (pct total (current_point w)))], [current_point w].
    simpl. rewrite Hq2, Hc2. subst w1. simpl.
    repeat split; try apply Hmk; try lia.
    + repeat constructor.
    + repeat constructor; lia.
  - exists [Data (mk (pct total (current_point w)))], [current_point w].
    simpl. rewrite Hq2, Hc2. subst w1. simpl.
    repeat split; try apply Hmk; try lia.
    + repeat constructor.
    + repeat constructor; lia.
Qed.

Lemma carries_point_handler (e : string) :
  carries (emits total 0)
          (modify (enqueue (Error ("Measurement error: " ++ e)%string)) ;; ret Break).
Proof.
  apply carries_bind_l; [| intros _; apply carries_ret].
  apply carries_enqueue_plain. reflexivity.
Qed.

Lemma carries_idvd_point (polls : nat) (vg_hold vds_delay vds_now : Q) :
  carries (emits total 1)
          (idvd_point transport controller polls vg_hold total vds_delay vds_now).
Proof.
  unfold idvd_point.
  apply carries_bind_l; [apply carries_get | intros m].
  destruct (negb m); [eapply carries_mono; [| apply carries_ret]; lia |].
  apply carries_bind_l; [apply keeps_emits, keeps_pause_wait | intros _].
  apply carries_try_except; [| intros e; apply carries_point_handler].
  apply carries_bind_l; [apply keeps_emits, keeps_set_voltage_and_read | intros ids].
  apply carries_bind_l; [apply keeps_emits, keeps_read_current | intros ig].
  apply (carries_point_tail (IdVd vds_now ids ig vg_hold)). reflexivity.
Qed.

Lemma carries_idvg_point (polls : nat) (vds_hold vg_delay vg_now : Q) :
  carries (emits total 1)
          (idvg_point transport controller polls vds_hold total vg_delay vg_now).
Proof.
  unfold idvg_point.
  apply carries_bind_l; [apply carries_get | intros m].
  destruct (negb m); [eapply carries_mono; [| apply carries_ret]; lia |].
  apply carries_bind_l; [apply keeps_emits, keeps_pause_wait | intros _].
  apply carries_try_except; [| intros e; apply carries_point_handler].
  apply carries_bind_l; [apply keeps_emits, keeps_read_current | intros ids].
  apply carries_bind_l; [apply keeps_emits, keeps_set_voltage_and_read | intros ig].
  apply (carries_point_tail (IdVg vg_now ids ig vds_hold)). reflexivity.
Qed.

Lemma carries_idvd_gate_hold (polls : nat)
      (vds_from vds_to vds_step vg_delay vds_delay vg_now : Q) (inner : list Q) :
  sweep_values vds_from vds_to vds_step = Val inner ->
  carries (emits total (2 * length inner))
          (idvd_gate_hold transport controller polls vds_from vds_to vds_step
                          vg_delay vds_delay total vg_now).
Proof.
  intros Hin. unfold idvd_gate_hold.
  apply carries_bind_l; [apply carries_get | intros m].
  destruct (negb m); [eapply carries_mono; [| apply carries_ret]; lia |].
  apply carries_bind_l; [apply keeps_emits, keeps_set_voltage_gradually | intros _].
  apply carries_lift_bind. intros l Hl. rewrite Hin in Hl. injection Hl as <-.
  replace (2 * length inner)%nat
    with (length inner * 1 + length (rev inner) * 1)%nat
    by (rewrite length_rev; lia).
  apply carries_bind;
    [apply carries_for_each; intros x; apply carries_idvd_point | intros _].
  apply carries_bind_r;
    [apply carries_for_each; intros x; apply carries_idvd_point | intros _].
  apply carries_bind_l; [apply keeps_emits, keeps_set_voltage_and_read | intros _].
  apply carries_bind_l; [apply keeps_emits, keeps_sleep | intros _].
  apply carries_ret.
Qed.

Lemma carries_idvg_drain_hold (polls : nat)
      (vg_from vg_to vg_step vds_delay vg_delay vds_now : Q) (inner : list Q) :
  sweep_values vg_from vg_to vg_step = Val inner ->
  carries (emits total (length inner))
          (idvg_drain_hold transport controller polls vg_from vg_to vg_step
                           vds_delay vg_delay total vds_now).
Proof.
  intros Hin. unfold idvg_drain_hold.
  apply carries_bind_l; [apply carries_get | intros m].
  destruct (negb m); [eapply carries_mono; [| apply carries_ret]; lia |].
  apply carries_bind_l; [apply keeps_emits, keeps_set_voltage_gradually | intros _].
  apply carries_lift_bind. intros l Hl. rewrite Hin in Hl. injection Hl as <-.
  replace (length inner) with (length inner * 1)%nat by lia.
  apply carries_bind_r;
    [apply carries_for_each; intros x; apply carries_idvg_point | intros _].
  apply carries_bind_l; [apply keeps_emits, keeps_sleep | intros _].
  apply carries_ret.
Qed.

End Progress.

(** ** Progress of a whole run *)

Lemma pct_mono (total k1 k2 : Z) :
  0 < total -> k1 <= k2 -> (pct total k1 <= pct total k2)%Q.
Proof.
  intros Ht Hk. unfold pct, Qdiv.
  apply Qmult_le_compat_r; [| discriminate].
  apply Qmult_le_compat_r.
  - rewrite <- Zle_Qle. exact Hk.
  - apply Qinv_le_0_compat. change 0%Q with (inject_Z 0). rewrite <- Zle_Qle. lia.
Qed.

Lemma pct_range (total k : Z) :
  0 <= k < total -> (0 <= pct total k)%Q /\ (pct total k < 100)%Q.
Proof.
  intros [Hk Ht]. unfold pct. split.
  - apply Qmult_le_0_compat; [| discriminate].
    unfold Qdiv. apply Qmult_le_0_compat.
    + change 0%Q with (inject_Z 0). rewrite <- Zle_Qle. exact Hk.
    + apply Qinv_le_0_compat. change 0%Q with (inject_Z 0). rewrite <- Zle_Qle. lia.
  - apply Qlt_le_trans with (1 * 100)%Q; [| unfold Qle; simpl; lia].
    apply Qmult_lt_compat_r; [reflexivity |].
    apply Qlt_shift_div_r.
    + change 0%Q with (inject_Z 0). rewrite <- Zlt_Qlt. lia.
    + rewrite Qmult_1_l. rewrite <- Zlt_Qlt. exact Ht.
Qed.

Lemma progress_sorted (total : Z) (ks : list Z) :
  StronglySorted Z.le ks ->
  Forall (fun k => 0 <= k < total) ks ->
  StronglySorted Qle (map (pct total) ks)
  /\ Forall (fun q => (0 <= q)%Q /\ (q < 100)%Q) (map (pct total) ks).
Proof.
  intros Hs Hf. induction Hs as [|k rest Hrest IH Hall].
  - split; constructor.
  - inversion Hf as [|? ? Hk Hf']; subst.
    destruct (IH Hf') as [IHs IHf]. split.
    + cbn [map]. constructor; [exact IHs |].
      apply Forall_map.
      apply Forall_forall. intros k' Hin.
      pose proof (proj1 (Forall_forall _ _) Hall k' Hin) as Hle.
      apply pct_mono; [lia | exact Hle].
    + cbn [map]. constructor; [apply pct_range; exact Hk | exact IHf].
Qed.

(** What the queue gained over a run, as the statements describe it. *)
Lemma produced_of_emits (total : Z) (n : nat) (w w0 w1 w2 : world)
      (tail : list message) :
  emits total n w0 w1 ->
  data_queue w0 = data_queue w ->
  current_point w0 = 0 ->
  Z.of_nat n = total ->
  data_queue w2 = data_queue w1 ++ tail ->
  progress_of tail = [] ->
  exists msgs ks,
    data_queue w2 = data_queue w ++ msgs
    /\ progress_of msgs = map (pct total) ks
    /\ StronglySorted Z.le ks
    /\ Forall (fun k => 0 <= k < total) ks.
Proof.
  intros (msgs & ks & Hq & Hp & Hs & Hf & _) Hq0 Hc0 Hn Hq2 Htail.
  exists (msgs ++ tail), ks.
  rewrite Hq2, Hq, Hq0, app_assoc, progress_of_app, Hp, Htail, app_nil_r.
  repeat split; try assumption.
  eapply Forall_impl; [exact Hf |]. simpl. intros k Hk. lia.
Qed.

Lemma produced_plain (total : Z) (w w2 : world) (tail : list message) :
  data_queue w2 = data_queue w ++ tail ->
  progress_of tail = [] ->
  exists msgs ks,
    data_queue w2 = data_queue w ++ msgs
    /\ progress_of msgs = map (pct total) ks
    /\ StronglySorted Z.le ks
    /\ Forall (fun k => 0 <= k < total) ks.
Proof.
  intros Hq Ht. exists tail, []. rewrite Hq, Ht.
  repeat split; constructor.
Qed.

Lemma idvd_worker_progress (transport : nat -> reply) (controller : nat -> option control)
      (polls : nat) (p : params) (w : world) :
  exists msgs ks,
    data_queue (snd (_idvd_measurement_worker transport controller polls p w))
    = data_queue w ++ msgs
    /\ progress_of msgs = map (pct (idvd_total_points p)) ks
    /\ StronglySorted Z.le ks
    /\ Forall (fun k => 0 <= k < idvd_total_points p) ks.
Proof.
  destruct p as [[[vg_from vg_to] vg_step] [[vds_from vds_to] vds_step]
                   [vg_delay vds_delay]].
  unfold _idvd_measurement_worker, idvd_total_points, range_length.
  cbn [vg_range vds_range delays].
  unfold try_finally, try_except. unfold bind at 1. unfold lift at 1.
  destruct (sweep_values vg_from vg_to vg_step) as [vg_values|e|] eqn:E1;
    [| apply (produced_plain _ _ _ [Error ("Measurement failed: " ++ e)%string]);
       [simpl; reflexivity | reflexivity]
     | apply (produced_plain _ _ _ []); [simpl; rewrite app_nil_r |]; reflexivity].
  unfold bind at 1. unfold lift at 1.
  destruct (sweep_values vds_from vds_to vds_step) as [inner|e|] eqn:E2;
    [| apply (produced_plain _ _ _ [Error ("Measurement failed: " ++ e)%string]);
       [simpl; reflexivity | reflexivity]
     | apply (produced_plain _ _ _ []); [simpl; rewrite app_nil_r |]; reflexivity].
  unfold bind at 1. unfold modify at 1.
  set (total := Py.len vg_values * Py.len inner * 2).
  set (w0 := set_current_point 0 w).
  pose proof (carries_for_each total (2 * length inner)
                (idvd_gate_hold transport controller polls vds_from vds_to vds_step
                                vg_delay vds_delay total)
                vg_values
                (fun x => carries_idvd_gate_hold transport controller total polls
                            vds_from vds_to vds_step vg_delay vds_delay x inner E2)
                w0) as Hem.
  assert (Hn : Z.of_nat (length vg_values * (2 * length inner)) = total)
    by (subst total; unfold Py.len; lia).
  unfold bind at 1.
  destruct (for_each _ vg_values w0) as [[[]|e|] w1]; simpl in Hem.
  - apply (produced_of_emits total _ w w0 w1 _
             [Complete "Measurement completed successfully"] Hem);
      try reflexivity; exact Hn.
  - apply (produced_of_emits total _ w w0 w1 _
             [Error ("Measurement failed: " ++ e)%string] Hem);
      try reflexivity; exact Hn.
  - apply (produced_of_emits total _ w w0 w1 _ [] Hem);
      try reflexivity; try exact Hn. simpl. rewrite app_nil_r. reflexivity.
Qed.

Lemma idvg_worker_progress (transport : nat -> reply) (controller : nat -> option control)
      (polls : nat) (p : params) (w : world) :
  exists msgs ks,
    data_queue (snd (_idvg_measurement_worker transport controller polls p w))
    = data_queue w ++ msgs
    /\ progress_of msgs = map (pct (idvg_total_points p)) ks
    /\ StronglySorted Z.le ks
    /\ Forall (fun k => 0 <= k < idvg_total_points p) ks.
Proof.
  destruct p as [[[vg_from vg_to] vg_step] [[vds_from vds_to] vds_step]
                   [vds_delay vg_delay]].
  unfold _idvg_measurement_worker, idvg_total_points, range_length.
  cbn [vg_range vds_range delays].
  unfold try_finally, try_except. unfold bind at 1. unfold lift at 1.
  destruct (sweep_values vds_from vds_to vds_step) as [vds_values|e|] eqn:E1;
    [| apply (produced_plain _ _ _ [Error ("Measurement failed: " ++ e)%string]);
       [simpl; reflexivity | reflexivity]
     | apply (produced_plain _ _ _ []); [simpl; rewrite app_nil_r |]; reflexivity].
  unfold bind at 1. unfold lift at 1.
  destruct (sweep_values vg_from vg_to vg_step) as [inner|e|] eqn:E2;
    [| apply (produced_plain _ _ _ [Error ("Measurement failed: " ++ e)%string]);
       [simpl; reflexivity | reflexivity]
     | apply (produced_plain _ _ _ []); [simpl; rewrite app_nil_r |]; reflexivity].
  unfold bind at 1. unfold modify at 1.
  set (total := Py.len vds_values * Py.len inner).
  set (w0 := set_current_point 0 w).
  pose proof (carries_for_each total (length inner)
                (idvg_drain_hold transport controller polls vg_from vg_to vg_step
                                 vds_delay vg_delay total)
                vds_values
                (fun x => carries_idvg_drain_hold transport controller total polls
                            vg_from vg_to vg_step vds_delay vg_delay x inner E2)
                w0) as Hem.
  assert (Hn : Z.of_nat (length vds_values * length inner) = total)
    by (subst total; unfold Py.len; lia).
  unfold bind at 1.
  destruct (for_each _ vds_values w0) as [[[]|e|] w1]; simpl in Hem.
  - apply (produced_of_emits total _ w w0 w1 _
             [Complete "Measurement completed successfully"] Hem);
      try reflexivity; exact Hn.
  - apply (produced_of_emits total _ w w0 w1 _
             [Error ("Measurement failed: " ++ e)%string] Hem);
      try reflexivity; exact Hn.
  - apply (produced_of_emits total _ w w0 w1 _ [] Hem);
      try reflexivity; try exact Hn. simpl. rewrite app_nil_r. reflexivity.
Qed.

(** ** Progress of an error-free, uninterrupted run *)

Lemma pcts_from_app (total c : Z) (n m : nat) :
  pcts_from total c (n + m)
  = pcts_from total c n ++ pcts_from total (c + Z.of_nat n) m.
Proof.
  revert c. induction n as [|n IH]; intros c.
  - simpl. rewrite Z.add_0_r. reflexivity.
  - cbn [Nat.add pcts_from app]. rewrite IH. do 3 f_equal. lia.
Qed.

Lemma pcts_from_seq (total c : Z) (n : nat) :
  pcts_from total c n = map (fun k => pct total (c + Z.of_nat k)) (seq 0 n).
Proof.
  revert c. induction n as [|n IH]; intros c; [reflexivity |].
  cbn [pcts_from seq map]. rewrite IH, <- seq_shift, map_map.
  f_equal; [f_equal; lia |].
  apply map_ext. intros k. f_equal. lia.
Qed.

Lemma progress_of_idvd_messages (transport : nat -> reply) (g : Q) (total c : Z)
      (io : nat) (l : list Q) :
  progress_of (idvd_messages transport g total c io l) = pcts_from total c (length l).
Proof.
  revert c io. induction l as [|v rest IH]; intros c io; [reflexivity |].
  cbn [idvd_messages length pcts_from].
  change (progress_of (?m :: ?q)) with (progress_of [m] ++ progress_of q).
  rewrite IH. reflexivity.
Qed.

Lemma progress_of_idvg_messages (transport : nat -> reply) (d : Q) (total c : Z)
      (io : nat) (l : list Q) :
  progress_of (idvg_messages transport d total c io l) = pcts_from total c (length l).
Proof.
  revert c io. induction l as [|v rest IH]; intros c io; [reflexivity |].
  cbn [idvg_messages length pcts_from].
  change (progress_of (?m :: ?q)) with (progress_of [m] ++ progress_of q).
  rewrite IH. reflexivity.
Qed.

Section NominalRun.

Variable transport : nat -> reply.
Variable controller : nat -> option control.
Hypothesis transport_healthy : healthy transport.
Hypothesis controller_quiet : quiet controller.

Lemma idvd_outer_nominal (path : string) (polls : nat)
      (vds_from vds_to vds_step vg_delay vds_delay : Q) (total : Z) (l : list Q) :
  total <> 0 ->
  (0 <= vg_delay)%Q ->
  (0 <= vds_delay)%Q ->
  sweep_values vds_from vds_to vds_step = Val l ->
  forall (gs : list Q) (w : world),
    ready path w ->
    exists w' msgs,
      for_each (idvd_gate_hold transport controller polls vds_from vds_to vds_step
                               vg_delay vds_delay total) gs w = (Val tt, w')
      /\ ready path w'
      /\ data_queue w' = data_queue w ++ msgs
      /\ map kind_of msgs = repeat data (length gs * (2 * length l))
      /\ progress_of msgs
         = pcts_from total (current_point w) (length gs * (2 * length l))
      /\ current_point w'
         = current_point w + Z.of_nat (length gs * (2 * length l)).
Proof.
  intros Htot Hvg Hvd Hl. induction gs as [|g rest IH]; intros w Hr.
  - exists w, []. simpl. rewrite app_nil_r, Z.add_0_r. auto 10.
  - destruct (idvd_gate_hold_nominal transport controller transport_healthy
                controller_quiet path polls vds_from vds_to vds_step
                vg_delay vds_delay total g l w Hr Htot Hvg Hvd Hl)
      as (w1 & Hrun1 & Hadv1).
    pose proof (ready_advances _ _ _ _ _ _ Hr Hadv1) as Hr1.
    destruct (IH w1 Hr1) as (w' & msgs & Hrun & Hr' & Hq & Hk & Hp & Hc).
    destruct Hadv1 as (_ & _ & _ & _ & Hq1 & _ & Hc1 & _).
    assert (Hlen : length (idvd_hold_messages transport g total (current_point w)
                             (io_calls w) l) = (2 * length l)%nat).
    { unfold idvd_hold_messages.
      rewrite length_app, !length_idvd_messages, length_rev. lia. }
    rewrite Hlen in Hc1.
    exists w', (idvd_hold_messages transport g total (current_point w) (io_calls w) l
                  ++ msgs).
    split; [| split; [exact Hr' | split; [| split; [| split]]]].
    + cbn [for_each]. unfold bind at 1. rewrite Hrun1. exact Hrun.
    + rewrite Hq, Hq1, app_assoc. reflexivity.
    + rewrite map_app, Hk. unfold idvd_hold_messages.
      rewrite map_app, !kinds_idvd_messages, length_rev, <- !repeat_app.
      f_equal; cbn [length]; lia.
    + rewrite progress_of_app, Hp, Hc1. unfold idvd_hold_messages.
      rewrite progress_of_app, !progress_of_idvd_messages, length_rev.
      rewrite <- pcts_from_app.
      replace (length l + length l)%nat with (2 * length l)%nat by lia.
      rewrite <- pcts_from_app. f_equal; cbn [length]; lia.
    + rewrite Hc, Hc1. cbn [length]. lia.
Qed.

Lemma idvg_outer_nominal (path : string) (polls : nat)
      (vg_from vg_to vg_step vds_delay vg_delay : Q) (total : Z) (l : list Q) :
  total <> 0 ->
  (0 <= vds_delay)%Q ->
  (0 <= vg_delay)%Q ->
  sweep_values vg_from vg_to vg_step = Val l ->
  forall (ds : list Q) (w : world),
    ready path w ->
    exists w' msgs,
      for_each (idvg_drain_hold transport controller polls vg_from vg_to vg_step
                                vds_delay vg_delay total) ds w = (Val tt, w')
      /\ ready path w'
      /\ data_queue w' = data_queue w ++ msgs
      /\ map kind_of msgs = repeat data (length ds * length l)
      /\ progress_of msgs = pcts_from total (current_point w) (length ds * length l)
      /\ current_point w' = current_point w + Z.of_nat (length ds * length l).
Proof.
  intros Htot Hvd Hvg Hl. induction ds as [|d rest IH]; intros w Hr.
  - exists w, []. simpl. rewrite app_nil_r, Z.add_0_r. auto 10.
  - destruct (idvg_drain_hold_nominal transport controller transport_healthy
                controller_quiet path polls vg_from vg_to vg_step
                vds_delay vg_delay total d l w Hr Htot Hvd Hvg Hl)
      as (w1 & Hrun1 & Hadv1).
    pose proof (ready_advances _ _ _ _ _ _ Hr Hadv1) as Hr1.
    destruct (IH w1 Hr1) as (w' & msgs & Hrun & Hr' & Hq & Hk & Hp & Hc).
    destruct Hadv1 as (_ & _ & _ & _ & Hq1 & _ & Hc1 & _).
    assert (Hlen : length (idvg_hold_messages transport d total (current_point w)
                             (io_calls w) l) = length l).
    { unfold idvg_hold_messages. apply length_idvg_messages. }
    rewrite Hlen in Hc1.
    exists w', (idvg_hold_messages transport d total (current_point w) (io_calls w) l
                  ++ msgs).
    split; [| split; [exact Hr' | split; [| split; [| split]]]].
    + cbn [for_each]. unfold bind at 1. rewrite Hrun1. exact Hrun.
    + rewrite Hq, Hq1, app_assoc. reflexivity.
    + rewrite map_app, Hk. unfold idvg_hold_messages.
      rewrite kinds_idvg_messages, <- !repeat_app. reflexivity.
    + rewrite progress_of_app, Hp, Hc1. unfold idvg_hold_messages.
      rewrite progress_of_idvg_messages, <- pcts_from_app. reflexivity.
    + rewrite Hc, Hc1. cbn [length]. lia.
Qed.

Lemma ready_set_current_point (path : string) (c : Z) (w : world) :
  ready path w -> ready path (set_current_point c w).
Proof. intros H. exact H. Qed.

Lemma idvd_worker_nominal (path : string) (polls : nat) (p : params) (w : world) :
  ready path w ->
  idvd_total_points p <> 0 ->
  (0 <= fst (delays p))%Q ->
  (0 <= snd (delays p))%Q ->
  exists w' msgs,
    _idvd_measurement_worker transport controller polls p w = (Val tt, w')
    /\ data_queue w'
       = data_queue w ++ msgs ++ [Complete "Measurement completed successfully"]
    /\ map kind_of msgs = repeat data (Z.to_nat (idvd_total_points p))
    /\ progress_of msgs
       = map (fun k => pct (idvd_total_points p) (Z.of_nat k))
             (seq 0 (Z.to_nat (idvd_total_points p))).
Proof.
  destruct p as [[[vg_from vg_to] vg_step] [[vds_from vds_to] vds_step]
                   [vg_delay vds_delay]].
  unfold idvd_total_points, range_length. cbn [vg_range vds_range delays fst snd].
  intros Hr Htot Hvg Hvd.
  destruct (sweep_values vg_from vg_to vg_step) as [vg_values|e|] eqn:E1;
    try (exfalso; apply Htot; reflexivity).
  destruct (sweep_values vds_from vds_to vds_step) as [inner|e|] eqn:E2;
    try (exfalso; apply Htot; lia).
  set (total := Py.len vg_values * Py.len inner * 2) in *.
  destruct (idvd_outer_nominal path polls vds_from vds_to vds_step vg_delay
              vds_delay total inner Htot Hvg Hvd E2 vg_values
              (set_current_point 0 w) (ready_set_current_point path 0 w Hr))
    as (w1 & msgs & Hrun & _ & Hq & Hk & Hp & _).
  assert (Hn : (length vg_values * (2 * length inner))%nat = Z.to_nat total)
    by (subst total; unfold Py.len; lia).
  rewrite Hn in Hk, Hp.
  eexists _, msgs. split; [| split; [| split]].
  - unfold _idvd_measurement_worker. cbn [vg_range vds_range delays].
    unfold try_finally, try_except. unfold bind at 1. unfold lift at 1.
    rewrite E1. unfold bind at 1. unfold lift at 1. rewrite E2.
    unfold bind at 1. unfold modify at 1. unfold bind at 1.
    fold total. rewrite Hrun. unfold modify. reflexivity.
  - cbn. rewrite Hq. cbn. rewrite <- app_assoc. reflexivity.
  - exact Hk.
  - rewrite Hp. cbn [current_point set_current_point]. rewrite pcts_from_seq.
    reflexivity.
Qed.

Lemma idvg_worker_nominal (path : string) (polls : nat) (p : params) (w : world) :
  ready path w ->
  idvg_total_points p <> 0 ->
  (0 <= fst (delays p))%Q ->
  (0 <= snd (delays p))%Q ->
  exists w' msgs,
    _idvg_measurement_worker transport controller polls p w = (Val tt, w')
    /\ data_queue w'
       = data_queue w ++ msgs ++ [Complete "Measurement completed successfully"]
    /\ map kind_of msgs = repeat data (Z.to_nat (idvg_total_points p))
    /\ progress_of msgs
       = map (fun k => pct (idvg_total_points p) (Z.of_nat k))
             (seq 0 (Z.to_nat (idvg_total_points p))).
Proof.
  destruct p as [[[vg_from vg_to] vg_step] [[vds_from vds_to] vds_step]
                   [vds_delay vg_delay]].
  unfold idvg_total_points, range_length. cbn [vg_range vds_range delays fst snd].
  intros Hr Htot Hvd Hvg.
  destruct (sweep_values vds_from vds_to vds_step) as [vds_values|e|] eqn:E1;
    try (exfalso; apply Htot; reflexivity).
  destruct (sweep_values vg_from vg_to vg_step) as [inner|e|] eqn:E2;
    try (exfalso; apply Htot; lia).
  set (total := Py.len vds_values * Py.len inner) in *.
  destruct (idvg_outer_nominal path polls vg_from vg_to vg_step vds_delay
              vg_delay total inner Htot Hvd Hvg E2 vds_values
              (set_current_point 0 w) (ready_set_current_point path 0 w Hr))
    as (w1 & msgs & Hrun & _ & Hq & Hk & Hp & _).
  assert (Hn : (length vds_values * length inner)%nat = Z.to_nat total)
    by (subst total; unfold Py.len; lia).
  rewrite Hn in Hk, Hp.
  eexists _, msgs. split; [| split; [| split]].
  - unfold _idvg_measurement_worker. cbn [vg_range vds_range delays].
    unfold try_finally, try_except. unfold bind at 1. unfold lift at 1.
    rewrite E1. unfold bind at 1. unfold lift at 1. rewrite E2.
    unfold bind at 1. unfold modify at 1. unfold bind at 1.
    fold total. rewrite Hrun. unfold modify. reflexivity.
  - cbn. rewrite Hq. cbn. rewrite <- app_assoc. reflexivity.
  - exact Hk.
  - rewrite Hp. cbn [current_point set_current_point]. rewrite pcts_from_seq.
    reflexivity.
Qed.

End NominalRun.

(** C6, as the code has it.  Whatever the instruments and the GUI thread
    do, the progress values carried by the [Data] messages of one run
    never decrease; each is [k / total * 100] for the value [k] of the
    point counter when the message was built, that is, the number of
    points committed before it, with [total] the product of the outer
    and inner point counts (times 2 for ID-VD); every [k] is below
    [total], so no message carries 100.  In an error-free, uninterrupted
    run the messages are [total] in number and the k-th of them, counted
    from 0, carries [k / total * 100]: the final point carries
    [(total - 1) / total * 100]. *)
Theorem progress_nondecreasing_below_100
        (transport : nat -> reply) (controller : nat -> option control)
        (polls : nat) (p : params) (w : world) :
  (exists msgs ks,
      data_queue (snd (_idvd_measurement_worker transport controller polls p w))
      = data_queue w ++ msgs
      /\ progress_of msgs = map (pct (idvd_total_points p)) ks
      /\ StronglySorted Z.le ks
      /\ Forall (fun k => 0 <= k < idvd_total_points p) ks
      /\ StronglySorted Qle (progress_of msgs)
      /\ Forall (fun q => (0 <= q)%Q /\ (q < 100)%Q) (progress_of msgs))
  /\ (exists msgs ks,
         data_queue (snd (_idvg_measurement_worker transport controller polls p w))
         = data_queue w ++ msgs
         /\ progress_of msgs = map (pct (idvg_total_points p)) ks
         /\ StronglySorted Z.le ks
         /\ Forall (fun k => 0 <= k < idvg_total_points p) ks
         /\ StronglySorted Qle (progress_of msgs)
         /\ Forall (fun q => (0 <= q)%Q /\ (q < 100)%Q) (progress_of msgs))
  /\ (healthy transport ->
      quiet controller ->
      forall path,
        ready path w ->
        (0 <= fst (delays p))%Q ->
        (0 <= snd (delays p))%Q ->
        (idvd_total_points p <> 0 ->
         exists w' msgs,
           _idvd_measurement_worker transport controller polls p w = (Val tt, w')
           /\ data_queue w'
              = data_queue w ++ msgs ++ [Complete "Measurement completed successfully"]
           /\ map kind_of msgs = repeat data (Z.to_nat (idvd_total_points p))
           /\ progress_of msgs
              = map (fun k => pct (idvd_total_points p) (Z.of_nat k))
                    (seq 0 (Z.to_nat (idvd_total_points p))))
        /\ (idvg_total_points p <> 0 ->
            exists w' msgs,
              _idvg_measurement_worker transport controller polls p w = (Val tt, w')
              /\ data_queue w'
                 = data_queue w ++ msgs
                     ++ [Complete "Measurement completed successfully"]
              /\ map kind_of msgs = repeat data (Z.to_nat (idvg_total_points p))
              /\ progress_of msgs
                 = map (fun k => pct (idvg_total_points p) (Z.of_nat k))
                       (seq 0 (Z.to_nat (idvg_total_points p))))).
Proof.
  split; [| split].
  - destruct (idvd_worker_progress transport controller polls p w)
      as (msgs & ks & Hq & Hp & Hs & Hf).
    destruct (progress_sorted _ _ Hs Hf) as [Hqs Hqf].
    exists msgs, ks. rewrite Hp. auto 10.
  - destruct (idvg_worker_progress transport controller polls p w)
      as (msgs & ks & Hq & Hp & Hs & Hf).
    destruct (progress_sorted _ _ Hs Hf) as [Hqs Hqf].
    exists msgs, ks. rewrite Hp. auto 10.
  - intros Hh Hquiet path Hr Hd1 Hd2. split; intros Htot.
    + apply (idvd_worker_nominal transport controller Hh Hquiet path); assumption.
    + apply (idvg_worker_nominal transport controller Hh Hquiet path); assumption.
Qed.

(** C6 as the specification states it fails: progress does not reach 100
    at the final point of a successful run.  The ID-VG run over one drain
    value and two gate values succeeds with two points and a completion
    message; the points carry 0 and 50. *)
Lemma progress_never_reaches_100_counterexample :
  fst (gui_start_idvg_measurement steady silent 0 "out" "dev" two_point_request
         (idle ∅ ∅ None)) = Val (true, "Measurement started")
  /\ map kind_of
       (data_queue (snd (gui_start_idvg_measurement steady silent 0 "out" "dev"
                           two_point_request (idle ∅ ∅ None))))
     = [data; data; complete]
  /\ map Qred
       (progress_of
          (data_queue (snd (gui_start_idvg_measurement steady silent 0 "out" "dev"
                              two_point_request (idle ∅ ∅ None)))))
     = [0; 50]%Q.
Proof. split; [| split]; vm_compute; reflexivity. Qed.

(** ** Faults and stop requests *)

(** C1. An ID-VG run over two drain values and five gate values on a bus
    whose ninth channel call, the drain read of the fifth point, times
    out once: the error is reported after four points, and the run goes
    on with the second drain value, commits five more rows (nine in all)
    and reports completion.  On a bus that stays dead from that call on,
    the run stops at four rows but reports two errors and no state other
    than not measuring. *)
Theorem fault_in_fifth_point_does_not_abort_run :
  map kind_of
      (data_queue (snd (gui_start_idvg_measurement fifth_point_fault silent 0
                          "out" "dev" ten_point_request (idle ∅ ∅ None))))
  = [data; data; data; data; error; data; data; data; data; data; complete]
  /\ length (rows_at "out/dev-IDVG.csv"
               (snd (gui_start_idvg_measurement fifth_point_fault silent 0
                       "out" "dev" ten_point_request (idle ∅ ∅ None)))) = 9%nat
  /\ map kind_of
        (data_queue (snd (gui_start_idvg_measurement dead_from_fifth_point silent 0
                            "out" "dev" ten_point_request (idle ∅ ∅ None))))
     = [data; data; data; data; error; error]
  /\ length (rows_at "out/dev-IDVG.csv"
               (snd (gui_start_idvg_measurement dead_from_fifth_point silent 0
                       "out" "dev" ten_point_request (idle ∅ ∅ None)))) = 4%nat.
Proof. repeat split; vm_compute; reflexivity. Qed.

(** C7. An ID-VG run over three gate values in which the operator pauses
    during the first channel call and presses stop during the first
    100 ms poll of the pause: no channel call is in flight when the stop
    arrives, yet the worker leaves the poll, makes the two channel calls
    of the second point and appends its row before it looks at the flag
    again; the run ends with two rows and a completion message.  A stop
    that arrives while the worker is not paused is honoured at the top
    of the inner loop: nothing is appended after it. *)
Theorem stop_while_paused_appends_one_more_row :
  map step_of
      (after_stop
         (trace (snd (gui_start_idvg_measurement steady pause_then_stop 5
                        "out" "dev" three_point_request (idle ∅ ∅ None)))))
  = [s_query vds; s_sour vg; s_query vg; s_append; s_sleep; s_sleep]
  /\ length (rows_at "out/dev-IDVG.csv"
               (snd (gui_start_idvg_measurement steady pause_then_stop 5
                       "out" "dev" three_point_request (idle ∅ ∅ None)))) = 2%nat
  /\ map kind_of
        (data_queue (snd (gui_start_idvg_measurement steady pause_then_stop 5
                            "out" "dev" three_point_request (idle ∅ ∅ None))))
     = [data; data; complete]
  /\ map step_of
        (after_stop
           (trace (snd (gui_start_idvg_measurement steady stop_after_first_point 5
                          "out" "dev" three_point_request (idle ∅ ∅ None)))))
     = [s_sleep].
Proof. repeat split; vm_compute; reflexivity. Qed.

(** * Further properties of the code *)

(** ** DataManager: failures and repeated initialisation *)

Lemma append_data_outcomes (data_row : list Q) (w : world) :
  ((exists w', append_data data_row w = (Val tt, w'))
   <-> (exists path t,
           csv_file w = Some path
           /\ files w !! path = Some t
           /\ columns t <> []
           /\ length data_row = length (columns t)))
  /\ (forall r w',
         append_data data_row w = (r, w') ->
         r <> Val tt ->
         w' = w /\ exists e, r = Exn ("Data save error: " ++ e)%string).
Proof.
  split; [split |].
  - intros [w' H]. unfold append_data in H. unfold_monad.
    unfold read_csv, DataFrame, to_csv, modify in H.
    destruct (csv_file w) as [path|] eqn:Hp; [| simpl in H; discriminate].
    destruct (files w !! path) as [t|] eqn:Hf; [| simpl in H; discriminate].
    exists path, t. split; [reflexivity |]. split; [exact Hf |]. clear Hf.
    destruct t as [cols rws]. cbn [columns rows] in *.
    destruct cols as [|c cs]; [simpl in H; discriminate |].
    split; [discriminate |].
    cbn [columns rows] in H. rewrite length_map in H.
    destruct (length (c :: cs) =? length data_row)%nat eqn:E.
    + apply Nat.eqb_eq in E. symmetry. exact E.
    + exfalso. destruct (Py.len rws =? 0); cbn in H; discriminate H.
  - intros (path & t & Hp & Hf & Hc & Hl).
    eexists. apply (append_data_ok w path t); assumption.
  - intros r w' H Hr. destruct r as [[]|e|].
    + contradiction.
    + split; [apply (append_data_exn_files _ _ _ _ H) |].
      unfold append_data in H. unfold_monad.
      unfold read_csv, DataFrame, to_csv, modify in H.
      repeat case_match; simplify_eq/=; eexists; reflexivity.
    + exfalso. unfold append_data in H. unfold_monad.
      unfold read_csv, DataFrame, to_csv, modify in H.
      repeat case_match; simplify_eq/=.
Qed.

(** X1.  [append_data] succeeds exactly when the sink points at an existing
    file with a header of as many columns as the row; in every other
    case it raises an exception whose text starts with
    ["Data save error: "] and leaves the world as it was. *)
Theorem append_data_succeeds_iff (data_row : list Q) (w : world) :
  ((exists w', append_data data_row w = (Val tt, w'))
   <-> (exists path t,
           csv_file w = Some path
           /\ files w !! path = Some t
           /\ columns t <> []
           /\ length data_row = length (columns t)))
  /\ (forall r w',
         append_data data_row w = (r, w') ->
         r <> Val tt ->
         w' = w /\ exists e, r = Exn ("Data save error: " ++ e)%string).
Proof. exact (append_data_outcomes data_row w). Qed.

Lemma path_exists_after_makedirs (p : string) (w : world) :
  path_exists p (set_dirs ({[p]} ∪ dirs w) w) = true.
Proof.
  unfold path_exists. simpl.
  rewrite bool_decide_true by set_solver. reflexivity.
Qed.

Lemma path_exists_after_to_csv (p : string) (df : table) (w : world) :
  path_exists p (set_files (<[p := df]> (files w)) w) = true.
Proof.
  unfold path_exists. simpl. rewrite lookup_insert_eq.
  rewrite (bool_decide_true (is_Some (Some df))) by eauto.
  apply orb_true_r.
Qed.

Lemma path_exists_mono (p : string) (w w' : world) :
  dirs w ⊆ dirs w' ->
  (forall q, is_Some (files w !! q) -> is_Some (files w' !! q)) ->
  path_exists p w = true -> path_exists p w' = true.
Proof.
  unfold path_exists. intros Hd Hf H.
  apply orb_true_iff in H as [H|H]; apply bool_decide_eq_true in H;
    apply orb_true_iff; [left | right]; apply bool_decide_eq_true.
  - set_solver.
  - apply Hf. exact H.
Qed.

Lemma initialize_csv_eq (save_dir filename measurement_type : string) (w : world) :
  initialize_csv save_dir filename measurement_type w
  = (Val (csv_target save_dir filename measurement_type),
     initialized save_dir filename measurement_type w).
Proof.
  unfold initialize_csv, initialized, csv_target, csv_header.
  unfold_monad. unfold makedirs, to_csv, modify.
  destruct (String.eqb measurement_type "IDVD");
    destruct (path_exists save_dir w); cbn [negb];
    match goal with
    | |- context [path_exists ?p (set_csv_file ?q ?w1)] =>
        destruct (path_exists p (set_csv_file q w1))
    end; reflexivity.
Qed.

Lemma initialized_exists (save_dir filename measurement_type : string) (w : world) :
  path_exists save_dir (initialized save_dir filename measurement_type w) = true
  /\ path_exists (csv_target save_dir filename measurement_type)
                 (initialized save_dir filename measurement_type w) = true.
Proof.
  unfold initialized.
  set (path := csv_target save_dir filename measurement_type).
  set (w1 := if path_exists save_dir w then w
             else set_dirs ({[save_dir]} ∪ dirs w) w).
  assert (H1 : path_exists save_dir w1 = true).
  { subst w1. destruct (path_exists save_dir w) eqn:E; [exact E |].
    apply path_exists_after_makedirs. }
  destruct (path_exists path (set_csv_file (Some path) w1)) eqn:Hex.
  - split; [exact H1 | exact Hex].
  - split; [| apply path_exists_after_to_csv].
    apply (path_exists_mono save_dir w1); [reflexivity | | exact H1].
    intros q Hq. cbn.
    destruct (decide (path = q)) as [<-|Hne].
    + rewrite lookup_insert_eq. eauto.
    + rewrite lookup_insert_ne by assumption. exact Hq.
Qed.

(** X2.  [initialize_csv] is idempotent: a second call with the same arguments
    returns the same path and changes nothing.  The first call leaves
    every file other than the target as it was, never removes a
    directory, and touches neither the flags, the queue nor the
    instruments. *)
Theorem initialize_csv_idempotent (save_dir filename measurement_type : string)
        (w : world) :
  initialize_csv save_dir filename measurement_type
                 (snd (initialize_csv save_dir filename measurement_type w))
  = initialize_csv save_dir filename measurement_type w
  /\ (forall other,
         Val other <> fst (initialize_csv save_dir filename measurement_type w) ->
         files (snd (initialize_csv save_dir filename measurement_type w)) !! other
         = files w !! other)
  /\ dirs w ⊆ dirs (snd (initialize_csv save_dir filename measurement_type w))
  /\ trace (snd (initialize_csv save_dir filename measurement_type w)) = trace w
  /\ data_queue (snd (initialize_csv save_dir filename measurement_type w))
     = data_queue w
  /\ is_measuring (snd (initialize_csv save_dir filename measurement_type w))
     = is_measuring w.
Proof.
  rewrite !initialize_csv_eq. cbn [fst snd].
  destruct (initialized_exists save_dir filename measurement_type w) as [E1 E2].
  split.
  - f_equal. unfold initialized at 1.
    rewrite E1. unfold initialized in E2 |- *.
    set (path := csv_target save_dir filename measurement_type) in *.
    set (w1 := if path_exists save_dir w then w
               else set_dirs ({[save_dir]} ∪ dirs w) w) in *.
    destruct (path_exists path (set_csv_file (Some path) w1)) eqn:Hex.
    + change (set_csv_file (Some path) (set_csv_file (Some path) w1))
        with (set_csv_file (Some path) w1). rewrite Hex. reflexivity.
    + set (w3 := set_files _ _) in *.
      change (set_csv_file (Some path) w3) with w3. rewrite E2. reflexivity.
  - unfold initialized.
    set (path := csv_target save_dir filename measurement_type).
    destruct (path_exists save_dir w);
      match goal with
      | |- context [path_exists path ?w2] => destruct (path_exists path w2)
      end; cbn.
    all: repeat split; try reflexivity; try set_solver.
    all: intros other Hne; apply lookup_insert_ne; congruence.
Qed.

(** ** Ranges the workers refuse or cut short *)

Lemma int_bounds (q : Q) :
  ((q <= -2)%Q -> Py.int q + 1 < 0)
  /\ ((-2 < q)%Q /\ (q <= -1)%Q -> Py.int q + 1 = 0)
  /\ ((-1 < q)%Q /\ (q < 1)%Q -> Py.int q + 1 = 1).
Proof.
  destruct q as [n d]. unfold Qle, Qlt, Py.int. cbn [Qnum Qden].
  pose proof (Pos2Z.is_pos d) as Hd.
  pose proof (Z.quot_rem' n (Z.pos d)) as Hqr.
  assert (Hr : n <= 0 -> - Z.pos d < Z.rem n (Z.pos d) <= 0).
  { intros Hn. pose proof (Z.rem_nonpos n (Z.pos d) ltac:(lia) Hn).
    pose proof (Z.rem_bound_abs n (Z.pos d) ltac:(lia)). lia. }
  assert (Hr' : 0 <= n -> 0 <= Z.rem n (Z.pos d) < Z.pos d).
  { intros Hn. apply Z.rem_bound_pos; lia. }
  repeat split; intros; nia.
Qed.

(** X3.  The workers decide from the quotient [q] they compute in double
    precision for [(to - from) / step].  A step that is zero as a double
    is refused (division by zero), and so is a quotient that is
    infinite or not a number (it has no integer part).  Otherwise a
    range with [q <= -2] is refused, a range with [-2 < q <= -1] is
    accepted and empty, and a range with [-1 < q < 1] is the single
    value [from]: the endpoint [to] is not measured. *)
Theorem sweep_values_short_or_backward (from to step : Q) :
  ((exists s, Py.float step = S754_zero s) ->
   exists e, sweep_values from to step = Exn e)
  /\ (forall q, sweep_quotient from to step = Val q ->
        (forall e, Py.float_int q = Exn e -> sweep_values from to step = Exn e)
        /\ (forall n, Py.float_int q = Val n ->
              ((Py.value q <= -2)%Q -> exists e, sweep_values from to step = Exn e)
              /\ ((-2 < Py.value q)%Q /\ (Py.value q <= -1)%Q ->
                  sweep_values from to step = Val [])
              /\ ((-1 < Py.value q)%Q /\ (Py.value q < 1)%Q ->
                  sweep_values from to step = Val [from]))).
Proof.
  split.
  - intros [s Hs]. unfold sweep_values, point_count, sweep_quotient, Py.float_truediv.
    rewrite Hs. eexists. reflexivity.
  - intros q Hq. split.
    + intros e He. unfold sweep_values, point_count. rewrite Hq, He. reflexivity.
    + intros n Hn. unfold sweep_values.
      rewrite (point_count_of_quotient _ _ _ _ _ Hq Hn).
      rewrite (float_int_value _ _ Hn).
      destruct (int_bounds (Py.value q)) as (H1 & H2 & H3).
      unfold Py.linspace. repeat split; intros H.
      * specialize (H1 H). apply Z.ltb_lt in H1. rewrite H1. eexists. reflexivity.
      * rewrite (H2 H). reflexivity.
      * rewrite (H3 H). reflexivity.
Qed.

(** The quotient is the rounded one.  From -1.2 V to -0.2 V in steps of
    1 V the doubles' difference is 1.0 exactly and two values are swept;
    from -1.85 V to -2 V in steps of 0.15 V the quotient comes out just
    above -1 and the single value -1.85 V is swept. *)
Lemma sweep_values_rounded_quotient :
  sweep_quotient (- (12 # 10)) (- (2 # 10)) 1 = Val (S754_finite false 4503599627370496 (-52))
  /\ option_map (map Qred)
       (match sweep_values (- (12 # 10)) (- (2 # 10)) 1 with
        | Val l => Some l
        | _ => None
        end)
     = Some [- (6 # 5); - (1 # 5)]%Q
  /\ sweep_quotient (- (185 # 100)) (-2) (15 # 100)
     = Val (S754_finite true 9007199254740987 (-53))
  /\ option_map (map Qred)
       (match sweep_values (- (185 # 100)) (-2) (15 # 100) with
        | Val l => Some l
        | _ => None
        end)
     = Some [- (37 # 20)]%Q.
Proof. repeat split; vm_compute; reflexivity. Qed.

(** X4.  A request with a refused range never reaches the instruments: the
    worker puts the single message ["Measurement failed: ..."] on the
    queue, clears [is_measuring], and changes nothing else (no channel
    call, no sleep, no CSV row).  The outer range is examined first. *)
Theorem refused_range_ends_run_before_any_command
        (transport : nat -> reply) (controller : nat -> option control)
        (polls : nat) (p : params) (w : world) (e : string) :
  let '(vg_from, vg_to, vg_step) := vg_range p in
  let '(vds_from, vds_to, vds_step) := vds_range p in
  let failed := set_is_measuring false
                  (enqueue (Error ("Measurement failed: " ++ e)%string) w) in
  ((sweep_values vg_from vg_to vg_step = Exn e
    \/ ((exists l, sweep_values vg_from vg_to vg_step = Val l)
        /\ sweep_values vds_from vds_to vds_step = Exn e)) ->
   _idvd_measurement_worker transport controller polls p w = (Val tt, failed))
  /\ ((sweep_values vds_from vds_to vds_step = Exn e
       \/ ((exists l, sweep_values vds_from vds_to vds_step = Val l)
           /\ sweep_values vg_from vg_to vg_step = Exn e)) ->
      _idvg_measurement_worker transport controller polls p w = (Val tt, failed)).
Proof.
  destruct p as [[[vg_from vg_to] vg_step] [[vds_from vds_to] vds_step] [d1 d2]].
  cbn [vg_range vds_range]. split.
  - intros [H | [[l Hl] H]];
      unfold _idvd_measurement_worker; cbn [vg_range vds_range delays];
      unfold try_finally, try_except, bind, lift; rewrite ?Hl, H; reflexivity.
  - intros [H | [[l Hl] H]];
      unfold _idvg_measurement_worker; cbn [vg_range vds_range delays];
      unfold try_finally, try_except, bind, lift; rewrite ?Hl, H; reflexivity.
Qed.

(** ** How a worker ends *)

Section Ending.

Variable transport : nat -> reply.
Variable controller : nat -> option control.

Lemma never_hangs_ret {A} (a : A) : never_hangs (ret a).
Proof. intros w. discriminate. Qed.

Lemma never_hangs_raise {A} (e : string) : never_hangs (@raise A e).
Proof. intros w. discriminate. Qed.

Lemma never_hangs_get {A} (f : world -> A) : never_hangs (get f).
Proof. intros w. discriminate. Qed.

Lemma never_hangs_modify (f : world -> world) : never_hangs (modify f).
Proof. intros w. discriminate. Qed.

Lemma never_hangs_lift {A} (r : result A) : r <> Hang -> never_hangs (lift r).
Proof. intros Hr w. exact Hr. Qed.

Lemma never_hangs_bind {A B} (c : M A) (k : A -> M B) :
  never_hangs c -> (forall a, never_hangs (k a)) -> never_hangs (bind c k).
Proof.
  intros Hc Hk w. unfold bind. specialize (Hc w).
  destruct (c w) as [[a|e|] w1]; simpl in *;
    [apply Hk | discriminate | contradiction].
Qed.

Lemma never_hangs_try_except {A} (body : M A) (handler : string -> M A) :
  never_hangs body -> (forall e, never_hangs (handler e)) ->
  never_hangs (try_except body handler).
Proof.
  intros Hb Hh w. unfold try_except. specialize (Hb w).
  destruct (body w) as [[a|e|] w1]; simpl in *;
    [discriminate | apply Hh | contradiction].
Qed.

Lemma truediv_not_hang (a b : Q) : Py.truediv a b <> Hang.
Proof. unfold Py.truediv. destruct (Qeq_bool b 0); discriminate. Qed.

Lemma progress_pct_not_hang (c total : Z) : progress_pct c total <> Hang.
Proof.
  unfold progress_pct, Py.truediv.
  destruct (Qeq_bool (inject_Z total) 0); discriminate.
Qed.

Lemma sweep_values_not_hang (from to step : Q) : sweep_values from to step <> Hang.
Proof.
  unfold sweep_values, point_count.
  destruct (sweep_quotient from to step) as [q| |] eqn:E.
  - destruct (Py.float_int q) as [n| |] eqn:E2; try discriminate.
    + unfold Py.linspace. destruct (_ <? 0); discriminate.
    + destruct q; discriminate.
  - discriminate.
  - unfold sweep_quotient, Py.float_truediv in E.
    destruct (Py.float step); discriminate.
Qed.

Lemma DataFrame_not_hang (data_row : list cell) (cols : list string) :
  DataFrame data_row cols <> Hang.
Proof. unfold DataFrame. destruct (_ =? _)%nat; discriminate. Qed.

Lemma never_hangs_sleep (d : Q) : never_hangs (sleep controller d).
Proof. intros w. unfold sleep. destruct (Qle_bool 0 d); discriminate. Qed.

Lemma never_hangs_channel_call (cmds : list action) :
  never_hangs (channel_call transport controller cmds).
Proof.
  intros w. unfold channel_call. destruct (transport (io_calls w)); discriminate.
Qed.

Lemma never_hangs_set_voltage_and_read (instrument : channel) (voltage : Q) :
  never_hangs (set_voltage_and_read transport controller instrument voltage).
Proof.
  apply never_hangs_try_except;
    [apply never_hangs_channel_call | intros e; apply never_hangs_raise].
Qed.

Lemma never_hangs_read_current (instrument : channel) :
  never_hangs (read_current transport controller instrument).
Proof.
  apply never_hangs_try_except;
    [apply never_hangs_channel_call | intros e; apply never_hangs_raise].
Qed.

Lemma never_hangs_append_data (data_row : list Q) :
  never_hangs (append_data data_row).
Proof.
  apply never_hangs_try_except; [| intros e; apply never_hangs_raise].
  apply never_hangs_bind; [apply never_hangs_get | intros p].
  apply never_hangs_bind.
  { intros w. unfold read_csv. repeat case_match; discriminate. }
  intros df. apply never_hangs_bind.
  { destruct (Py.len (rows df) =? 0).
    - apply never_hangs_lift, DataFrame_not_hang.
    - apply never_hangs_bind;
        [apply never_hangs_lift, DataFrame_not_hang
        | intros r; apply never_hangs_ret]. }
  intros df'. apply never_hangs_bind; [| intros _; apply never_hangs_modify].
  destruct p; [apply never_hangs_modify | apply never_hangs_raise].
Qed.

Lemma never_hangs_ramp_loop (instrument : channel)
      (current_voltage voltage_step delay : Q) (steps : Z) (indices : list nat) :
  never_hangs (ramp_loop transport controller instrument current_voltage
                         voltage_step delay steps indices).
Proof.
  induction indices as [|i rest IH]; [apply never_hangs_ret |].
  cbn [ramp_loop].
  apply never_hangs_bind; [apply never_hangs_set_voltage_and_read | intros _].
  apply never_hangs_bind;
    [apply never_hangs_lift, truediv_not_hang | intros d].
  apply never_hangs_bind; [apply never_hangs_sleep | intros _]. exact IH.
Qed.

Lemma never_hangs_set_voltage_gradually (instrument : channel) (target delay : Q) :
  never_hangs (_set_voltage_gradually transport controller instrument target delay).
Proof.
  unfold _set_voltage_gradually.
  apply never_hangs_try_except; [| intros e; apply never_hangs_raise]. cbv zeta.
  match goal with |- context [negb ?b] => destruct (negb b) end;
    [| apply never_hangs_ret].
  apply never_hangs_bind;
    [apply never_hangs_lift, truediv_not_hang | intros s].
  apply never_hangs_ramp_loop.
Qed.

Lemma never_hangs_only_paused {A} (c : M A) : never_hangs c -> hangs_only_paused c.
Proof. intros Hc w H. exfalso. exact (Hc w H). Qed.

Lemma hangs_only_paused_bind {A B} (c : M A) (k : A -> M B) :
  hangs_only_paused c -> (forall a, hangs_only_paused (k a)) ->
  hangs_only_paused (bind c k).
Proof.
  intros Hc Hk w. unfold bind. specialize (Hc w).
  destruct (c w) as [[a|e|] w1]; simpl in *;
    [apply Hk | discriminate | intros _; apply Hc; reflexivity].
Qed.

Lemma hangs_only_paused_try_except {A} (body : M A) (handler : string -> M A) :
  hangs_only_paused body -> (forall e, hangs_only_paused (handler e)) ->
  hangs_only_paused (try_except body handler).
Proof.
  intros Hb Hh w. unfold try_except. specialize (Hb w).
  destruct (body w) as [[a|e|] w1]; simpl in *;
    [discriminate | apply Hh | intros _; apply Hb; reflexivity].
Qed.

Lemma hangs_only_paused_for_each {A} (body : A -> M loop_exit) (l : list A) :
  (forall x, hangs_only_paused (body x)) -> hangs_only_paused (for_each body l).
Proof.
  intros Hb. induction l as [|x rest IH];
    [apply never_hangs_only_paused, never_hangs_ret |].
  cbn [for_each]. apply hangs_only_paused_bind; [apply Hb |].
  intros [|]; [exact IH | apply never_hangs_only_paused, never_hangs_ret].
Qed.

Lemma bind_get_run {A B} (f : world -> A) (k : A -> M B) (w : world) :
  bind (get f) k w = k (f w) w.
Proof. reflexivity. Qed.

Lemma hangs_only_paused_pause_wait (polls : nat) :
  hangs_only_paused (pause_wait controller polls).
Proof.
  induction polls as [|n IH]; intros w; cbn [pause_wait];
    rewrite !bind_get_run;
    destruct (is_paused w) eqn:E; try (intros H; discriminate H).
  - intros _. exact E.
  - apply (hangs_only_paused_bind (sleep controller (1 # 10))
             (fun _ => m <- get is_measuring ;;
                       if negb m then ret tt else pause_wait controller n)).
    + apply never_hangs_only_paused, never_hangs_sleep.
    + intros _. apply hangs_only_paused_bind;
        [apply never_hangs_only_paused, never_hangs_get | intros m].
      destruct (negb m); [apply never_hangs_only_paused, never_hangs_ret | exact IH].
Qed.

Lemma hangs_only_paused_point {A} (polls : nat) (work : M A) (k : A -> M loop_exit) :
  never_hangs (bind work k) ->
  hangs_only_paused
    (m <- get is_measuring ;;
     if negb m then ret Break else
     pause_wait controller polls ;;
     try_except (bind work k)
       (fun e => modify (enqueue (Error ("Measurement error: " ++ e)%string)) ;;
                 ret Break)).
Proof.
  intros Hw.
  apply hangs_only_paused_bind;
    [apply never_hangs_only_paused, never_hangs_get | intros m].
  destruct (negb m); [apply never_hangs_only_paused, never_hangs_ret |].
  apply hangs_only_paused_bind; [apply hangs_only_paused_pause_wait | intros _].
  apply never_hangs_only_paused, never_hangs_try_except; [exact Hw |].
  intros e. apply never_hangs_bind;
    [apply never_hangs_modify | intros _; apply never_hangs_ret].
Qed.

Lemma never_hangs_point_tail (total : Z) (mk : Q -> data_point)
      (data_row : list Q) (d : Q) :
  never_hangs
    (c <- get current_point ;;
     p <- lift (progress_pct c total) ;;
     modify (enqueue (Data (mk p))) ;;
     append_data data_row ;;
     modify (set_current_point (c + 1)) ;;
     sleep controller d ;;
     ret Next).
Proof.
  apply never_hangs_bind; [apply never_hangs_get | intros c].
  apply never_hangs_bind;
    [apply never_hangs_lift, progress_pct_not_hang | intros p].
  apply never_hangs_bind; [apply never_hangs_modify | intros _].
  apply never_hangs_bind; [apply never_hangs_append_data | intros _].
  apply never_hangs_bind; [apply never_hangs_modify | intros _].
  apply never_hangs_bind; [apply never_hangs_sleep | intros _].
  apply never_hangs_ret.
Qed.

Lemma hangs_only_paused_idvd_point (polls : nat) (vg_hold : Q) (total : Z)
      (vds_delay vds_now : Q) :
  hangs_only_paused
    (idvd_point transport controller polls vg_hold total vds_delay vds_now).
Proof.
  unfold idvd_point.
  apply (hangs_only_paused_point polls
           (set_voltage_and_read transport controller vds vds_now)).
  apply never_hangs_bind; [apply never_hangs_set_voltage_and_read | intros ids].
  apply never_hangs_bind; [apply never_hangs_read_current | intros ig].
  apply (never_hangs_point_tail total (IdVd vds_now ids ig vg_hold)).
Qed.

Lemma hangs_only_paused_idvg_point (polls : nat) (vds_hold : Q) (total : Z)
      (vg_delay vg_now : Q) :
  hangs_only_paused
    (idvg_point transport controller polls vds_hold total vg_delay vg_now).
Proof.
  unfold idvg_point.
  apply (hangs_only_paused_point polls (read_current transport controller vds)).
  apply never_hangs_bind; [apply never_hangs_read_current | intros ids].
  apply never_hangs_bind; [apply never_hangs_set_voltage_and_read | intros ig].
  apply (never_hangs_point_tail total (IdVg vg_now ids ig vds_hold)).
Qed.

Lemma hangs_only_paused_idvd_gate_hold (polls : nat)
      (vds_from vds_to vds_step vg_delay vds_delay : Q) (total : Z) (vg_now : Q) :
  hangs_only_paused
    (idvd_gate_hold transport controller polls vds_from vds_to vds_step
                    vg_delay vds_delay total vg_now).
Proof.
  unfold idvd_gate_hold.
  apply hangs_only_paused_bind;
    [apply never_hangs_only_paused, never_hangs_get | intros m].
  destruct (negb m); [apply never_hangs_only_paused, never_hangs_ret |].
  apply hangs_only_paused_bind;
    [apply never_hangs_only_paused, never_hangs_set_voltage_gradually | intros _].
  apply hangs_only_paused_bind;
    [apply never_hangs_only_paused, never_hangs_lift, sweep_values_not_hang
    | intros l].
  apply hangs_only_paused_bind;
    [apply hangs_only_paused_for_each; intros x; apply hangs_only_paused_idvd_point
    | intros _].
  apply hangs_only_paused_bind;
    [apply hangs_only_paused_for_each; intros x; apply hangs_only_paused_idvd_point
    | intros _].
  apply never_hangs_only_paused.
  apply never_hangs_bind; [apply never_hangs_set_voltage_and_read | intros _].
  apply never_hangs_bind; [apply never_hangs_sleep | intros _].
  apply never_hangs_ret.
Qed.

Lemma hangs_only_paused_idvg_drain_hold (polls : nat)
      (vg_from vg_to vg_step vds_delay vg_delay : Q) (total : Z) (vds_now : Q) :
  hangs_only_paused
    (idvg_drain_hold transport controller polls vg_from vg_to vg_step
                     vds_delay vg_delay total vds_now).
Proof.
  unfold idvg_drain_hold.
  apply hangs_only_paused_bind;
    [apply never_hangs_only_paused, never_hangs_get | intros m].
  destruct (negb m); [apply never_hangs_only_paused, never_hangs_ret |].
  apply hangs_only_paused_bind;
    [apply never_hangs_only_paused, never_hangs_set_voltage_gradually | intros _].
  apply hangs_only_paused_bind;
    [apply never_hangs_only_paused, never_hangs_lift, sweep_values_not_hang
    | intros l].
  apply hangs_only_paused_bind;
    [apply hangs_only_paused_for_each; intros x; apply hangs_only_paused_idvg_point
    | intros _].
  apply never_hangs_only_paused.
  apply never_hangs_bind; [apply never_hangs_sleep | intros _].
  apply never_hangs_ret.
Qed.

Lemma bind_val_inv {A B} (c : M A) (k : A -> M B) (w w' : world) (b : B) :
  bind c k w = (Val b, w') ->
  exists a w1, c w = (Val a, w1) /\ k a w1 = (Val b, w').
Proof.
  unfold bind. destruct (c w) as [[a|e|] w1]; try discriminate.
  intros H. exists a, w1. split; [reflexivity | exact H].
Qed.

Lemma worker_outcome_of_body (body : M unit) (w : world) :
  hangs_only_paused body ->
  (forall w1, body w = (Val tt, w1) ->
              exists w0, w1 = enqueue (Complete "Measurement completed successfully") w0) ->
  worker_outcome
    (try_finally
       (try_except body
          (fun e => modify (enqueue (Error ("Measurement failed: " ++ e)%string))))
       (set_is_measuring false) w).
Proof.
  intros Hh Hv. unfold try_finally, try_except, worker_outcome.
  specialize (Hh w).
  destruct (body w) as [[[]|e|] w1]; cbn in *.
  - split; [reflexivity |]. destruct (Hv w1 eq_refl) as [w0 ->].
    exists (data_queue w0), (Complete "Measurement completed successfully").
    split; [reflexivity | left; reflexivity].
  - split; [reflexivity |].
    exists (data_queue w1), (Error ("Measurement failed: " ++ e)%string).
    split; [reflexivity | right; eexists; reflexivity].
  - apply Hh. reflexivity.
Qed.

Lemma worker_outcomes (polls : nat) (p : params) (w : world) :
  worker_outcome (_idvd_measurement_worker transport controller polls p w)
  /\ worker_outcome (_idvg_measurement_worker transport controller polls p w).
Proof.
  destruct p as [[[vg_from vg_to] vg_step] [[vds_from vds_to] vds_step] [d1 d2]].
  split.
  - unfold _idvd_measurement_worker. cbn [vg_range vds_range delays].
    apply worker_outcome_of_body.
    + apply hangs_only_paused_bind;
        [apply never_hangs_only_paused, never_hangs_lift, sweep_values_not_hang
        | intros vg_values].
      apply hangs_only_paused_bind;
        [apply never_hangs_only_paused, never_hangs_lift, sweep_values_not_hang
        | intros inner].
      apply hangs_only_paused_bind;
        [apply never_hangs_only_paused, never_hangs_modify | intros _].
      apply hangs_only_paused_bind;
        [apply hangs_only_paused_for_each; intros x;
         apply hangs_only_paused_idvd_gate_hold
        | intros _; apply never_hangs_only_paused, never_hangs_modify].
    + intros w1 H.
      apply bind_val_inv in H as (vg_values & w2 & _ & H).
      apply bind_val_inv in H as (inner & w3 & _ & H).
      apply bind_val_inv in H as (_ & w4 & _ & H).
      apply bind_val_inv in H as (_ & w5 & _ & H).
      exists w5. unfold modify in H. congruence.
  - unfold _idvg_measurement_worker. cbn [vg_range vds_range delays].
    apply worker_outcome_of_body.
    + apply hangs_only_paused_bind;
        [apply never_hangs_only_paused, never_hangs_lift, sweep_values_not_hang
        | intros vds_values].
      apply hangs_only_paused_bind;
        [apply never_hangs_only_paused, never_hangs_lift, sweep_values_not_hang
        | intros inner].
      apply hangs_only_paused_bind;
        [apply never_hangs_only_paused, never_hangs_modify | intros _].
      apply hangs_only_paused_bind;
        [apply hangs_only_paused_for_each; intros x;
         apply hangs_only_paused_idvg_drain_hold
        | intros _; apply never_hangs_only_paused, never_hangs_modify].
    + intros w1 H.
      apply bind_val_inv in H as (vds_values & w2 & _ & H).
      apply bind_val_inv in H as (inner & w3 & _ & H).
      apply bind_val_inv in H as (_ & w4 & _ & H).
      apply bind_val_inv in H as (_ & w5 & _ & H).
      exists w5. unfold modify in H. congruence.
Qed.

(** X5.  No exception leaves a worker.  A worker that has returned has
    cleared [is_measuring] and its last message on the queue is either
    the completion message or a ["Measurement failed: ..."] error; a
    worker that has not returned is polling with the pause flag up. *)
Theorem workers_end_with_a_closing_message (polls : nat) (p : params) (w : world) :
  worker_outcome (_idvd_measurement_worker transport controller polls p w)
  /\ worker_outcome (_idvg_measurement_worker transport controller polls p w).
Proof. exact (worker_outcomes polls p w). Qed.

End Ending.

(** ** Properties of the world that a run keeps *)

(** [append_data] either fails and changes nothing, or finds the file
    the sink points at and leaves it with one more row. *)
Lemma append_data_cases (data_row : list Q) (w : world) :
  (exists e, append_data data_row w = (Exn e, w))
  \/ (exists path t,
         csv_file w = Some path
         /\ files w !! path = Some t
         /\ append_data data_row w = (Val tt, appended path t data_row w)).
Proof.
  destruct (append_data data_row w) as [[[]|e|] w'] eqn:H.
  - right.
    destruct (proj1 (proj1 (append_data_outcomes data_row w))
                (ex_intro _ w' H)) as (path & t & Hp & Hf & Hc & Hl).
    exists path, t. split; [exact Hp |]. split; [exact Hf |].
    rewrite <- H. apply append_data_ok; assumption.
  - left. exists e. rewrite (append_data_exn_files _ _ _ _ H). reflexivity.
  - exfalso.
    destruct (proj2 (append_data_outcomes data_row w) Hang w' H
                ltac:(discriminate)) as [_ [e' He']].
    discriminate He'.
Qed.

Section Invariant.

Variable transport : nat -> reply.
Variable controller : nat -> option control.
Variable I : world -> Prop.

(** What a run does to the world, step by step: it logs commands and
    sleeps, puts a point on the queue, saves the row of the point it
    has just put there, puts a point error on the queue, counts, and
    blocks. *)
Hypothesis I_log : forall a w, (forall r, a <> Append r) -> I w -> I (log a w).
Hypothesis I_data : forall point w, I w -> I (enqueue (Data point) w).
Hypothesis I_error :
  forall e w, I w -> I (enqueue (Error ("Measurement error: " ++ e)%string) w).
Hypothesis I_counter : forall c w, I w -> I (set_current_point c w).
Hypothesis I_io : forall n w, I w -> I (set_io_calls n w).
Hypothesis I_block : forall w, I w -> I (block controller w).
Hypothesis I_row :
  forall path t point w,
    csv_file w = Some path ->
    files w !! path = Some t ->
    I w ->
    I (appended path t (row_of point) (enqueue (Data point) w)).

Lemma preserves_ret {A} (a : A) : preserves I (ret a).
Proof. intros w H. exact H. Qed.

Lemma preserves_raise {A} (e : string) : preserves I (@raise A e).
Proof. intros w H. exact H. Qed.

Lemma preserves_lift {A} (r : result A) : preserves I (lift r).
Proof. intros w H. exact H. Qed.

Lemma preserves_get {A} (f : world -> A) : preserves I (get f).
Proof. intros w H. exact H. Qed.

Lemma preserves_hang {A} : preserves I (@hang A).
Proof. intros w H. exact H. Qed.

Lemma preserves_modify (f : world -> world) :
  (forall w, I w -> I (f w)) -> preserves I (modify f).
Proof. intros Hf w H. apply Hf. exact H. Qed.

Lemma preserves_bind {A B} (c : M A) (k : A -> M B) :
  preserves I c -> (forall a, preserves I (k a)) -> preserves I (bind c k).
Proof.
  intros Hc Hk w H. unfold bind. specialize (Hc w H).
  destruct (c w) as [[a|e|] w1]; simpl in *; try exact Hc.
  apply Hk. exact Hc.
Qed.

Lemma preserves_try_except {A} (body : M A) (handler : string -> M A) :
  preserves I body -> (forall e, preserves I (handler e)) ->
  preserves I (try_except body handler).
Proof.
  intros Hb Hh w H. unfold try_except. specialize (Hb w H).
  destruct (body w) as [[a|e|] w1]; simpl in *; try exact Hb.
  apply Hh. exact Hb.
Qed.

Lemma preserves_try_finally {A} (body : M A) (cleanup : world -> world) :
  preserves I body -> (forall w, I w -> I (cleanup w)) ->
  preserves I (try_finally body cleanup).
Proof.
  intros Hb Hc w H. unfold try_finally. specialize (Hb w H).
  destruct (body w) as [[a|e|] w1]; simpl in *;
    [apply Hc | apply Hc |]; exact Hb.
Qed.

Lemma preserves_for_each {A} (body : A -> M loop_exit) (l : list A) :
  (forall x, preserves I (body x)) -> preserves I (for_each body l).
Proof.
  intros Hb. induction l as [|x rest IH]; [apply preserves_ret |].
  cbn [for_each]. apply preserves_bind; [apply Hb |].
  intros [|]; [exact IH | apply preserves_ret].
Qed.

Lemma preserves_sleep (d : Q) : preserves I (sleep controller d).
Proof.
  intros w H. unfold sleep. destruct (Qle_bool 0 d); [| exact H].
  cbn. apply I_block, I_log; [discriminate | exact H].
Qed.

Lemma preserves_channel_call (cmds : list action) :
  Forall (fun a => forall r, a <> Append r) cmds ->
  preserves I (channel_call transport controller cmds).
Proof.
  intros Hcmds w H. unfold channel_call.
  assert (Hl : forall l, Forall (fun a => forall r, a <> Append r) l ->
                         forall w0, I w0 ->
                                    I (fold_left (fun acc a => log a acc) l w0)).
  { intros l Hall. induction Hall as [|a rest Ha _ IH]; intros w0 H0; [exact H0 |].
    cbn. apply IH, I_log; [exact Ha | exact H0]. }
  destruct (transport (io_calls w)); cbn; apply I_io, I_block, Hl;
    first [exact H | exact Hcmds | apply Forall_take, Hcmds].
Qed.

Lemma preserves_set_voltage_and_read (instrument : channel) (voltage : Q) :
  preserves I (set_voltage_and_read transport controller instrument voltage).
Proof.
  apply preserves_try_except;
    [apply preserves_channel_call; repeat constructor; discriminate
    | intros e; apply preserves_raise].
Qed.

Lemma preserves_read_current (instrument : channel) :
  preserves I (read_current transport controller instrument).
Proof.
  apply preserves_try_except;
    [apply preserves_channel_call; repeat constructor; discriminate
    | intros e; apply preserves_raise].
Qed.

(** A point is put on the queue, then its row is saved. *)
Lemma preserves_emit_and_save {A} (point : data_point) (k : M A) :
  preserves I k ->
  preserves I (modify (enqueue (Data point)) ;; append_data (row_of point) ;; k).
Proof.
  intros Hk w H. unfold bind at 1. unfold modify at 1.
  unfold bind at 1.
  destruct (append_data_cases (row_of point) (enqueue (Data point) w))
    as [[e ->] | (path & t & Hp & Hf & ->)].
  - cbn. apply I_data, H.
  - apply Hk, (I_row path t); assumption.
Qed.

Lemma preserves_ramp_loop (instrument : channel)
      (current_voltage voltage_step delay : Q) (steps : Z) (indices : list nat) :
  preserves I (ramp_loop transport controller instrument current_voltage
                         voltage_step delay steps indices).
Proof.
  induction indices as [|i rest IH]; [apply preserves_ret |].
  cbn [ramp_loop].
  apply preserves_bind; [apply preserves_set_voltage_and_read | intros _].
  apply preserves_bind; [apply preserves_lift | intros d].
  apply preserves_bind; [apply preserves_sleep | intros _]. exact IH.
Qed.

Lemma preserves_set_voltage_gradually (instrument : channel) (target delay : Q) :
  preserves I (_set_voltage_gradually transport controller instrument target delay).
Proof.
  unfold _set_voltage_gradually.
  apply preserves_try_except; [| intros e; apply preserves_raise]. cbv zeta.
  match goal with |- context [negb ?b] => destruct (negb b) end;
    [| apply preserves_ret].
  apply preserves_bind; [apply preserves_lift | intros s].
  apply preserves_ramp_loop.
Qed.

Lemma preserves_pause_wait (polls : nat) : preserves I (pause_wait controller polls).
Proof.
  induction polls as [|n IH]; cbn [pause_wait];
    (apply preserves_bind; [apply preserves_get | intros p]);
    destruct p; try apply preserves_ret; [apply preserves_hang |].
  apply preserves_bind; [apply preserves_sleep | intros _].
  apply preserves_bind; [apply preserves_get | intros m].
  destruct (negb m); [apply preserves_ret | exact IH].
Qed.

Lemma preserves_point_tail (total : Z) (mk : Q -> data_point)
      (data_row : list Q) (d : Q) :
  (forall q, row_of (mk q) = data_row) ->
  preserves I
    (c <- get current_point ;;
     p <- lift (progress_pct c total) ;;
     modify (enqueue (Data (mk p))) ;;
     append_data data_row ;;
     modify (set_current_point (c + 1)) ;;
     sleep controller d ;;
     ret Next).
Proof.
  intros Hrow.
  apply preserves_bind; [apply preserves_get | intros c].
  apply preserves_bind; [apply preserves_lift | intros p].
  rewrite <- (Hrow p). apply preserves_emit_and_save.
  apply preserves_bind; [apply preserves_modify, I_counter | intros _].
  apply preserves_bind; [apply preserves_sleep | intros _].
  apply preserves_ret.
Qed.

Lemma preserves_point_handler (e : string) :
  preserves I (modify (enqueue (Error ("Measurement error: " ++ e)%string)) ;;
               ret Break).
Proof.
  apply preserves_bind; [apply preserves_modify, I_error | intros _].
  apply preserves_ret.
Qed.

Lemma preserves_idvd_point (polls : nat) (vg_hold : Q) (total : Z)
      (vds_delay vds_now : Q) :
  preserves I (idvd_point transport controller polls vg_hold total vds_delay vds_now).
Proof.
  unfold idvd_point.
  apply preserves_bind; [apply preserves_get | intros m].
  destruct (negb m); [apply preserves_ret |].
  apply preserves_bind; [apply preserves_pause_wait | intros _].
  apply preserves_try_except; [| intros e; apply preserves_point_handler].
  apply preserves_bind; [apply preserves_set_voltage_and_read | intros ids].
  apply preserves_bind; [apply preserves_read_current | intros ig].
  apply (preserves_point_tail total (IdVd vds_now ids ig vg_hold)).
  reflexivity.
Qed.

Lemma preserves_idvg_point (polls : nat) (vds_hold : Q) (total : Z)
      (vg_delay vg_now : Q) :
  preserves I (idvg_point transport controller polls vds_hold total vg_delay vg_now).
Proof.
  unfold idvg_point.
  apply preserves_bind; [apply preserves_get | intros m].
  destruct (negb m); [apply preserves_ret |].
  apply preserves_bind; [apply preserves_pause_wait | intros _].
  apply preserves_try_except; [| intros e; apply preserves_point_handler].
  apply preserves_bind; [apply preserves_read_current | intros ids].
  apply preserves_bind; [apply preserves_set_voltage_and_read | intros ig].
  apply (preserves_point_tail total (IdVg vg_now ids ig vds_hold)).
  reflexivity.
Qed.

Lemma preserves_idvd_gate_hold (polls : nat)
      (vds_from vds_to vds_step vg_delay vds_delay : Q) (total : Z) (vg_now : Q) :
  preserves I (idvd_gate_hold transport controller polls vds_from vds_to vds_step
                              vg_delay vds_delay total vg_now).
Proof.
  unfold idvd_gate_hold.
  apply preserves_bind; [apply preserves_get | intros m].
  destruct (negb m); [apply preserves_ret |].
  apply preserves_bind; [apply preserves_set_voltage_gradually | intros _].
  apply preserves_bind; [apply preserves_lift | intros l].
  apply preserves_bind;
    [apply preserves_for_each; intros x; apply preserves_idvd_point | intros _].
  apply preserves_bind;
    [apply preserves_for_each; intros x; apply preserves_idvd_point | intros _].
  apply preserves_bind; [apply preserves_set_voltage_and_read | intros _].
  apply preserves_bind; [apply preserves_sleep | intros _].
  apply preserves_ret.
Qed.

Lemma preserves_idvg_drain_hold (polls : nat)
      (vg_from vg_to vg_step vds_delay vg_delay : Q) (total : Z) (vds_now : Q) :
  preserves I (idvg_drain_hold transport controller polls vg_from vg_to vg_step
                               vds_delay vg_delay total vds_now).
Proof.
  unfold idvg_drain_hold.
  apply preserves_bind; [apply preserves_get | intros m].
  destruct (negb m); [apply preserves_ret |].
  apply preserves_bind; [apply preserves_set_voltage_gradually | intros _].
  apply preserves_bind; [apply preserves_lift | intros l].
  apply preserves_bind;
    [apply preserves_for_each; intros x; apply preserves_idvg_point | intros _].
  apply preserves_bind; [apply preserves_sleep | intros _].
  apply preserves_ret.
Qed.

(** How a worker ends: a closing message, and [is_measuring] cleared. *)
Hypothesis I_closing :
  forall m w,
    m = Complete "Measurement completed successfully"
    \/ (exists e, m = Error ("Measurement failed: " ++ e)%string) ->
    I w -> I (enqueue m w).
Hypothesis I_cleared : forall w, I w -> I (set_is_measuring false w).

Lemma preserves_idvd_worker (polls : nat) (p : params) :
  preserves I (_idvd_measurement_worker transport controller polls p).
Proof.
  destruct p as [[[vg_from vg_to] vg_step] [[vds_from vds_to] vds_step] [d1 d2]].
  unfold _idvd_measurement_worker. cbn [vg_range vds_range delays].
  apply preserves_try_finally; [| exact I_cleared].
  apply preserves_try_except;
    [| intros e; apply preserves_modify; intros w0 H0;
       apply I_closing; [right; exists e; reflexivity | exact H0]].
  apply preserves_bind; [apply preserves_lift | intros vg_values].
  apply preserves_bind; [apply preserves_lift | intros inner].
  apply preserves_bind; [apply preserves_modify, I_counter | intros _].
  apply preserves_bind;
    [apply preserves_for_each; intros x; apply preserves_idvd_gate_hold
    | intros _; apply preserves_modify; intros w0 H0;
      apply I_closing; [left; reflexivity | exact H0]].
Qed.

Lemma preserves_idvg_worker (polls : nat) (p : params) :
  preserves I (_idvg_measurement_worker transport controller polls p).
Proof.
  destruct p as [[[vg_from vg_to] vg_step] [[vds_from vds_to] vds_step] [d1 d2]].
  unfold _idvg_measurement_worker. cbn [vg_range vds_range delays].
  apply preserves_try_finally; [| exact I_cleared].
  apply preserves_try_except;
    [| intros e; apply preserves_modify; intros w0 H0;
       apply I_closing; [right; exists e; reflexivity | exact H0]].
  apply preserves_bind; [apply preserves_lift | intros vds_values].
  apply preserves_bind; [apply preserves_lift | intros inner].
  apply preserves_bind; [apply preserves_modify, I_counter | intros _].
  apply preserves_bind;
    [apply preserves_for_each; intros x; apply preserves_idvg_drain_hold
    | intros _; apply preserves_modify; intros w0 H0;
      apply I_closing; [left; reflexivity | exact H0]].
Qed.

End Invariant.

(** X6.  When the GUI thread never requests a pause and the pause flag is down
    at the start, a worker returns, whatever the instruments answer,
    whatever other requests arrive and however small the budget of
    polls: it never waits.  It returns with both flags down. *)
Theorem workers_return_when_never_paused
        (transport : nat -> reply) (controller : nat -> option control)
        (polls : nat) (p : params) (w : world) :
  (forall n, controller n <> Some Pause) ->
  is_paused w = false ->
  (exists w', _idvd_measurement_worker transport controller polls p w = (Val tt, w')
              /\ is_paused w' = false /\ is_measuring w' = false)
  /\ (exists w', _idvg_measurement_worker transport controller polls p w = (Val tt, w')
                 /\ is_paused w' = false /\ is_measuring w' = false).
Proof.
  intros Hctl Hp.
  assert (Hblock : forall w0, is_paused w0 = false ->
                              is_paused (block controller w0) = false).
  { intros w0 H0. unfold block.
    destruct (controller (clock w0)) as [[| | |sd fn mt]|] eqn:E;
      [| reflexivity | reflexivity | | exact H0].
    - exfalso. exact (Hctl _ E).
    - destruct (request_start_paused sd fn mt (set_clock (S (clock w0)) w0))
        as [H | H]; rewrite H; [reflexivity | exact H0]. }
  destruct (worker_outcomes transport controller polls p w)
    as [Hd Hg].
  split.
  - pose proof (preserves_idvd_worker transport controller
                  (fun w0 => is_paused w0 = false)
                  (fun _ _ _ H => H) (fun _ _ H => H) (fun _ _ H => H)
                  (fun _ _ H => H) (fun _ _ H => H) Hblock
                  (fun _ _ _ _ _ _ H => H) (fun _ _ _ H => H)
                  (fun _ H => H) polls p w Hp) as Hkeep.
    unfold worker_outcome in Hd.
    destruct (_idvd_measurement_worker transport controller polls p w)
      as [[[]|e|] w']; cbn in *.
    + exists w'. destruct Hd as [Hm _]. auto.
    + contradiction.
    + congruence.
  - pose proof (preserves_idvg_worker transport controller
                  (fun w0 => is_paused w0 = false)
                  (fun _ _ _ H => H) (fun _ _ H => H) (fun _ _ H => H)
                  (fun _ _ H => H) (fun _ _ H => H) Hblock
                  (fun _ _ _ _ _ _ H => H) (fun _ _ _ H => H)
                  (fun _ H => H) polls p w Hp) as Hkeep.
    unfold worker_outcome in Hg.
    destruct (_idvg_measurement_worker transport controller polls p w)
      as [[[]|e|] w']; cbn in *.
    + exists w'. destruct Hg as [Hm _]. auto.
    + contradiction.
    + congruence.
Qed.

(** A stop during the first settle sleep, on a bus whose ninth call
    fails, with no poll allowed. *)
Lemma workers_return_when_never_paused_witness :
  (exists w', _idvd_measurement_worker fifth_point_fault stop_after_first_point 0
                three_point_request armed_idvg = (Val tt, w')
              /\ is_paused w' = false /\ is_measuring w' = false)
  /\ (exists w', _idvg_measurement_worker fifth_point_fault stop_after_first_point 0
                   three_point_request armed_idvg = (Val tt, w')
                 /\ is_paused w' = false /\ is_measuring w' = false).
Proof.
  apply (workers_return_when_never_paused fifth_point_fault stop_after_first_point 0
           three_point_request armed_idvg).
  - intros [|[|[|n]]]; discriminate.
  - reflexivity.
Defined.

(** Unless a Start button is pressed, a blocking call touches neither
    the sink nor the file system. *)
Lemma only_appends_block (controller : nat -> option control)
      (P : option string -> gset string -> gmap string table -> Prop) (w : world) :
  no_start controller ->
  P (csv_file w) (dirs w) (files w) ->
  P (csv_file (block controller w)) (dirs (block controller w))
    (files (block controller w)).
Proof.
  intros Hn H. destruct (block_sink controller w Hn) as (-> & -> & ->). exact H.
Qed.

(** X7.  A run only ever appends to the file the sink points at, as long
    as no Start button is pressed while it runs.  Whatever the
    instruments do and whenever Pause, Resume and Stop are pressed,
    after a worker has run (or while it is still polling) the sink
    points at the same file, that file has the header it had and begins
    with the rows it had, every other file is as it was, and no
    directory was created or removed. *)
Theorem workers_only_append_to_the_sink
        (transport : nat -> reply) (controller : nat -> option control)
        (polls : nat) (p : params) (w : world) (path : string) (t : table) :
  no_start controller ->
  csv_file w = Some path ->
  files w !! path = Some t ->
  only_appended path t w
                (snd (_idvd_measurement_worker transport controller polls p w))
  /\ only_appended path t w
                   (snd (_idvg_measurement_worker transport controller polls p w)).
Proof.
  intros Hn Hp Hf.
  assert (I0 : only_appended path t w w).
  { repeat split; try assumption; try reflexivity.
    exists []. rewrite table_rows_nil. exact Hf. }
  assert (I_block : forall w0, only_appended path t w w0 ->
                               only_appended path t w (block controller w0)).
  { intros w0 H0.
    apply (only_appends_block controller
             (fun c d f =>
                c = Some path /\ d = dirs w
                /\ (exists more, f !! path = Some (Table (columns t) (rows t ++ more)))
                /\ (forall other, other <> path -> f !! other = files w !! other))).
    - exact Hn.
    - exact H0. }
  assert (I_row : forall path0 t0 point w0,
             csv_file w0 = Some path0 -> files w0 !! path0 = Some t0 ->
             only_appended path t w w0 ->
             only_appended path t w
               (appended path0 t0 (row_of point) (enqueue (Data point) w0))).
  { intros path0 t0 point w0 Hp0 Hf0 (Hc & Hd & [more Hm] & Ho).
    assert (path0 = path) by congruence. subst path0.
    rewrite Hm in Hf0. injection Hf0 as <-.
    unfold appended. repeat split; cbn; try assumption.
    - exists (more ++ [map Num (row_of point)]).
      rewrite lookup_insert_eq, app_assoc. reflexivity.
    - intros other Hne. rewrite lookup_insert_ne by congruence. apply Ho, Hne. }
  split.
  - apply (preserves_idvd_worker transport controller (only_appended path t w)
             (fun _ _ _ H => H) (fun _ _ H => H) (fun _ _ H => H)
             (fun _ _ H => H) (fun _ _ H => H) I_block I_row
             (fun _ _ _ H => H) (fun _ H => H) polls p w I0).
  - apply (preserves_idvg_worker transport controller (only_appended path t w)
             (fun _ _ _ H => H) (fun _ _ H => H) (fun _ _ H => H)
             (fun _ _ H => H) (fun _ _ H => H) I_block I_row
             (fun _ _ _ H => H) (fun _ H => H) polls p w I0).
Qed.

(** Runs on the faulty bus, paused and stopped, over the earlier log. *)
Lemma workers_only_append_to_the_sink_witness :
  only_appended "out/dev-IDVD.csv" old_log (set_is_measuring true sink_with_old_log)
    (snd (_idvd_measurement_worker fifth_point_fault pause_then_stop 5
            three_point_request (set_is_measuring true sink_with_old_log)))
  /\ only_appended "out/dev-IDVD.csv" old_log (set_is_measuring true sink_with_old_log)
       (snd (_idvg_measurement_worker fifth_point_fault pause_then_stop 5
               three_point_request (set_is_measuring true sink_with_old_log))).
Proof.
  apply (workers_only_append_to_the_sink fifth_point_fault pause_then_stop 5
           three_point_request (set_is_measuring true sink_with_old_log)
           "out/dev-IDVD.csv" old_log).
  - intros [|[|[|[|n]]]] save_dir filename measurement_type; discriminate.
  - reflexivity.
  - apply lookup_singleton_eq.
Defined.

(** The other Start button, pressed during the first blocking call of an
    ID-VD run, moves the sink: the rows of the run go to the ID-VG file. *)
Lemma start_during_a_run_moves_the_sink :
  csv_file armed_idvd = Some "out/dev-IDVD.csv"
  /\ csv_file (snd (_idvd_measurement_worker steady other_start_button 0
                      three_point_request armed_idvd))
     = Some "out/dev-IDVG.csv"
  /\ option_map (fun t => length (rows t))
       (files (snd (_idvd_measurement_worker steady other_start_button 0
                      three_point_request armed_idvd)) !! "out/dev-IDVD.csv")
     = Some 0%nat.
Proof. repeat split; vm_compute; reflexivity. Qed.

(** ** Pausing *)

(** X8.  The pause wait sends nothing to the instruments.  Whatever the GUI
    thread does, it makes no channel call, puts nothing on the queue and
    writes no file: all it does is sleep 100 ms at most [polls] times.
    (The files are as they were unless a Start button is pressed
    meanwhile, whose handler may create one.)  With the pause flag down
    it does not even sleep.  When it returns, the pause flag is down or
    the stop flag was seen after a sleep. *)
Theorem pause_wait_only_sleeps (controller : nat -> option control) (polls : nat) :
  forall w,
    io_calls (snd (pause_wait controller polls w)) = io_calls w
    /\ data_queue (snd (pause_wait controller polls w)) = data_queue w
    /\ (no_start controller -> files (snd (pause_wait controller polls w)) = files w)
    /\ (exists k,
           (k <= polls)%nat
           /\ worker_actions (trace (snd (pause_wait controller polls w)))
              = worker_actions (trace w) ++ repeat (Sleep (1 # 10)) k)
    /\ (is_paused w = false -> pause_wait controller polls w = (Val tt, w))
    /\ (fst (pause_wait controller polls w) = Val tt ->
        is_paused (snd (pause_wait controller polls w)) = false
        \/ is_measuring (snd (pause_wait controller polls w)) = false).
Proof.
  induction polls as [|n IH]; intros w; cbn [pause_wait]; rewrite !bind_get_run;
    destruct (is_paused w) eqn:E.
  - cbn. repeat split; try reflexivity; try discriminate.
    exists 0%nat. cbn. rewrite app_nil_r. auto.
  - cbn. repeat split; try reflexivity; auto.
    exists 0%nat. cbn. rewrite app_nil_r. auto.
  - set (w1 := block controller (log (Sleep (1 # 10)) w)).
    assert (Hrun : (sleep controller (1 # 10) ;;
                    m <- get is_measuring ;;
                    if negb m then ret tt else pause_wait controller n) w
                   = (if negb (is_measuring w1) then ret tt
                      else pause_wait controller n) w1) by reflexivity.
    rewrite !Hrun. clear Hrun.
    destruct (block_frame controller (log (Sleep (1 # 10)) w))
      as (Bt & Bq & Bc & Bi). fold w1 in Bt, Bq, Bc, Bi.
    cbn in Bt, Bq, Bc, Bi. rewrite worker_actions_app in Bt. cbn in Bt.
    assert (Bf : no_start controller -> files w1 = files w).
    { intros Hn. destruct (block_sink controller (log (Sleep (1 # 10)) w) Hn)
        as (_ & _ & H). exact H. }
    destruct (is_measuring w1) eqn:Em; cbn [negb].
    + destruct (IH w1) as (Hio & Hq & Hf & (k & Hk & Ht) & _ & Hret).
      rewrite Hio, Hq, Bi, Bq.
      repeat split; try reflexivity; try discriminate; try exact Hret.
      * intros Hn. rewrite (Hf Hn). exact (Bf Hn).
      * exists (S k). split; [lia |].
        rewrite Ht, Bt, <- app_assoc. reflexivity.
    + cbn. rewrite Bi, Bq.
      repeat split; try reflexivity; try discriminate; auto.
      exists 1%nat. split; [lia |]. exact Bt.
  - cbn. repeat split; try reflexivity; auto.
    exists 0%nat. cbn. rewrite app_nil_r. split; [lia | reflexivity].
Qed.

(** ** The consumer of the queue *)

Lemma length_window (max : nat) (l : list Q) (x : Q) :
  length (drop (length l - max) l ++ [x]) = S (Nat.min (length l) max).
Proof. rewrite length_app, length_drop. cbn. lia. Qed.

Lemma last_window_snoc (max : nat) (l : list Q) (x : Q) :
  (0 < max)%nat ->
  (if (max <? S (Nat.min (length l) max))%nat
   then py_last max (drop (length l - max) l ++ [x])
   else drop (length l - max) l ++ [x])
  = drop (length (l ++ [x]) - max) (l ++ [x]).
Proof.
  intros Hmax. rewrite length_app. cbn [length].
  destruct (Nat.ltb_spec max (S (Nat.min (length l) max))) as [H|H].
  - assert (Hlen : (max <= length l)%nat) by lia.
    unfold py_last. destruct max as [|m]; [lia |].
    rewrite length_window.
    replace (S (Nat.min (length l) (S m)) - S m)%nat with 1%nat by lia.
    rewrite (drop_app_le _ _ 1) by (rewrite length_drop; lia).
    rewrite drop_drop.
    rewrite drop_app_le by lia.
    f_equal. f_equal. lia.
  - replace (length l - max)%nat with 0%nat by lia.
    replace (length l + 1 - max)%nat with 0%nat by lia.
    reflexivity.
Qed.

Lemma lengths_of_data (q : list message) :
  length (ids_of q) = length (swept_of q) /\ length (ig_of q) = length (swept_of q).
Proof.
  induction q as [|m rest [IH1 IH2]]; [split; reflexivity |].
  destruct m as [[? ? ? ? ?|? ? ? ? ?]|?|?];
    cbn [ids_of ig_of swept_of flat_map app length]; fold (ids_of rest);
    fold (ig_of rest); fold (swept_of rest); rewrite ?IH1, ?IH2; split;
    first [reflexivity | assumption].
Qed.

Lemma ids_of_app (a b : list message) : ids_of (a ++ b) = ids_of a ++ ids_of b.
Proof. unfold ids_of. apply flat_map_app. Qed.

Lemma ig_of_app (a b : list message) : ig_of (a ++ b) = ig_of a ++ ig_of b.
Proof. unfold ig_of. apply flat_map_app. Qed.

Lemma monitor_data_queue_snoc (max : nat) (pending : list message) (m : message)
      (g : gui) :
  monitor_data_queue max (pending ++ [m]) g
  = handle_message max (monitor_data_queue max pending g) m.
Proof. unfold monitor_data_queue. rewrite fold_left_app. reflexivity. Qed.

Lemma plot_windows_idvd (max : nat) (pending : list message) (g : gui) :
  (0 < max)%nat ->
  plot g = clear_plot_data ->
  no_idvg pending ->
  plot (monitor_data_queue max pending g)
  = PlotData (drop (length (swept_of pending) - max) (swept_of pending))
             (drop (length (ids_of pending) - max) (ids_of pending))
             (drop (length (ig_of pending) - max) (ig_of pending))
             [].
Proof.
  intros Hmax Hg. induction pending as [|m rest IH] using rev_ind; intros Hno.
  - cbn. rewrite Hg. reflexivity.
  - apply Forall_app in Hno as [Hrest Hm].
    rewrite monitor_data_queue_snoc.
    rewrite swept_of_app, ids_of_app, ig_of_app.
    destruct (lengths_of_data rest) as [Li Lg].
    inversion Hm as [|? ? Hm1 _]; subst.
    destruct m as [[vd ids ig h pr|? ? ? ? ?]|e|e]; try contradiction;
      cbn [handle_message plot reset_measurement_buttons];
      rewrite (IH Hrest); cbn [swept_of ids_of ig_of flat_map];
      rewrite ?app_nil_r; try reflexivity.
    unfold update_plots. cbn [pd_vd pd_ids pd_ig pd_vg].
    rewrite length_window.
    rewrite <- (last_window_snoc max (swept_of rest) vd Hmax).
    rewrite <- (last_window_snoc max (ids_of rest) ids Hmax).
    rewrite <- (last_window_snoc max (ig_of rest) ig Hmax).
    rewrite Li, Lg.
    destruct (max <? S (Nat.min (length (swept_of rest)) max))%nat; reflexivity.
Qed.

Lemma plot_windows_idvg (max : nat) (pending : list message) (g : gui) :
  (0 < max)%nat ->
  plot g = clear_plot_data ->
  no_idvd pending ->
  plot (monitor_data_queue max pending g)
  = PlotData []
             (drop (length (ids_of pending) - max) (ids_of pending))
             (drop (length (ig_of pending) - max) (ig_of pending))
             (drop (length (swept_of pending) - max) (swept_of pending)).
Proof.
  intros Hmax Hg. induction pending as [|m rest IH] using rev_ind; intros Hno.
  - cbn. rewrite Hg. reflexivity.
  - apply Forall_app in Hno as [Hrest Hm].
    rewrite monitor_data_queue_snoc.
    rewrite swept_of_app, ids_of_app, ig_of_app.
    destruct (lengths_of_data rest) as [Li Lg].
    inversion Hm as [|? ? Hm1 _]; subst.
    destruct m as [[? ? ? ? ?|vg0 ids ig h pr]|e|e]; try contradiction;
      cbn [handle_message plot reset_measurement_buttons];
      rewrite (IH Hrest); cbn [swept_of ids_of ig_of flat_map];
      rewrite ?app_nil_r; try reflexivity.
    unfold update_plots. cbn [pd_vd pd_ids pd_ig pd_vg].
    rewrite length_window.
    rewrite <- (last_window_snoc max (swept_of rest) vg0 Hmax).
    rewrite <- (last_window_snoc max (ids_of rest) ids Hmax).
    rewrite <- (last_window_snoc max (ig_of rest) ig Hmax).
    rewrite Li, Lg.
    destruct (max <? S (Nat.min (length (swept_of rest)) max))%nat; reflexivity.
Qed.

(** X9.  The plot buffers are a sliding window.  From cleared buffers, after
    the consumer has handled any messages of one topology, the three
    buffers of that topology hold exactly the last [max_plot_points]
    points received (all of them when fewer arrived), in order and index
    by index; errors and completion messages leave the buffers alone. *)
Theorem plot_buffers_hold_last_points (max_plot_points : nat)
        (pending : list message) (g : gui) :
  (0 < max_plot_points)%nat ->
  plot g = clear_plot_data ->
  (no_idvg pending ->
   plot (monitor_data_queue max_plot_points pending g)
   = PlotData (drop (length (swept_of pending) - max_plot_points) (swept_of pending))
              (drop (length (ids_of pending) - max_plot_points) (ids_of pending))
              (drop (length (ig_of pending) - max_plot_points) (ig_of pending))
              [])
  /\ (no_idvd pending ->
      plot (monitor_data_queue max_plot_points pending g)
      = PlotData []
                 (drop (length (ids_of pending) - max_plot_points) (ids_of pending))
                 (drop (length (ig_of pending) - max_plot_points) (ig_of pending))
                 (drop (length (swept_of pending) - max_plot_points)
                       (swept_of pending))).
Proof.
  intros Hmax Hg. split; intros Hno.
  - apply plot_windows_idvd; assumption.
  - apply plot_windows_idvg; assumption.
Qed.

(** Two of three points kept. *)
Lemma plot_buffers_hold_last_points_witness :
  (0 < 2)%nat
  /\ plot gui_started = clear_plot_data
  /\ (no_idvg three_points_then_complete ->
      plot (monitor_data_queue 2 three_points_then_complete gui_started)
      = PlotData (drop (length (swept_of three_points_then_complete) - 2)
                       (swept_of three_points_then_complete))
                 (drop (length (ids_of three_points_then_complete) - 2)
                       (ids_of three_points_then_complete))
                 (drop (length (ig_of three_points_then_complete) - 2)
                       (ig_of three_points_then_complete))
                 [])
  /\ (no_idvd three_points_then_complete ->
      plot (monitor_data_queue 2 three_points_then_complete gui_started)
      = PlotData []
                 (drop (length (ids_of three_points_then_complete) - 2)
                       (ids_of three_points_then_complete))
                 (drop (length (ig_of three_points_then_complete) - 2)
                       (ig_of three_points_then_complete))
                 (drop (length (swept_of three_points_then_complete) - 2)
                       (swept_of three_points_then_complete))).
Proof.
  split; [lia |]. split; [reflexivity |].
  apply (plot_buffers_hold_last_points 2 three_points_then_complete gui_started).
  - lia.
  - reflexivity.
Defined.

(** X10.  Once a run has ended and the consumer has gone through the queue,
    the controls are back to their idle state, whatever happened during
    the run: Start is enabled, Pause and Stop are disabled, the progress
    bar is back at 0 (not at 100) and the last box shown carries the
    closing message.  The only other way to find a worker is still
    polling a pause. *)
Theorem controls_reset_once_a_run_has_ended
        (transport : nat -> reply) (controller : nat -> option control)
        (polls : nat) (p : params) (w : world) (max_plot_points : nat) (g : gui) :
  (fst (_idvd_measurement_worker transport controller polls p w) = Hang
   \/ controls_reset
        (monitor_data_queue max_plot_points
           (data_queue (snd (_idvd_measurement_worker transport controller polls p w)))
           g))
  /\ (fst (_idvg_measurement_worker transport controller polls p w) = Hang
      \/ controls_reset
           (monitor_data_queue max_plot_points
              (data_queue (snd (_idvg_measurement_worker transport controller polls p w)))
              g)).
Proof.
  assert (Hreset : forall r : result unit * world,
             worker_outcome r ->
             fst r = Hang
             \/ controls_reset (monitor_data_queue max_plot_points (data_queue (snd r)) g)).
  { intros [[[]|e|] w'] H; unfold worker_outcome in H; cbn [fst snd] in *.
    - right. destruct H as (_ & q & m & Hq & Hm).
      rewrite Hq, monitor_data_queue_snoc.
      destruct Hm as [-> | [e ->]]; cbn;
        (repeat split; try reflexivity);
        eexists _, _; (split; [reflexivity |]); [left | right; eexists]; reflexivity.
    - contradiction.
    - left. reflexivity. }
  destruct (worker_outcomes transport controller polls p w) as [Hd Hg].
  split; apply Hreset; assumption.
Qed.

(** ** A start that is refused *)

(** X11.  A start pressed while a run is in progress is refused, but only
    after [initialize_csv] has run: the sink now points at the file of
    the refused request.  When that file is new, in a directory that
    exists, the next row the run in progress saves opens it, under the
    header of the refused request, and no other file changes: the log
    of the run in progress receives nothing more. *)
Theorem refused_start_redirects_the_rows
        (transport : nat -> reply) (controller : nat -> option control)
        (polls : nat) (save_dir filename : string) (p : params) (w : world)
        (a b c : Q) :
  is_measuring w = true ->
  path_exists save_dir w = true ->
  path_exists (csv_target save_dir filename "IDVG") w = false ->
  exists w1 w2,
    gui_start_idvg_measurement transport controller polls save_dir filename p w
    = (Val (false, "Measurement already in progress"%string), w1)
    /\ is_measuring w1 = true
    /\ trace w1 = trace w
    /\ data_queue w1 = data_queue w
    /\ csv_file w1 = Some (csv_target save_dir filename "IDVG")
    /\ append_data [a; b; c] w1 = (Val tt, w2)
    /\ files w2 !! csv_target save_dir filename "IDVG"
       = Some (Table ["VG (V)"; "IDS (A)"; "IG (A)"]%string [[Num a; Num b; Num c]])
    /\ forall other,
        other <> csv_target save_dir filename "IDVG" ->
        files w2 !! other = files w !! other.
Proof.
  intros Hm Hd Hnew.
  set (target := csv_target save_dir filename "IDVG") in *.
  set (header := Table ["VG (V)"; "IDS (A)"; "IG (A)"]%string []).
  set (w1 := set_files (<[target := header]> (files w))
                       (set_csv_file (Some target) w)).
  assert (Hinit : initialized save_dir filename "IDVG" w = w1).
  { unfold initialized. rewrite Hd. fold target.
    replace (path_exists target (set_csv_file (Some target) w))
      with (path_exists target w) by reflexivity.
    rewrite Hnew. reflexivity. }
  assert (Hf1 : files w1 !! target = Some header).
  { subst w1. cbn. apply lookup_insert_eq. }
  exists w1, (appended target header [a; b; c] w1).
  split.
  { unfold gui_start_idvg_measurement, bind.
    rewrite initialize_csv_eq, Hinit.
    unfold start_idvg_measurement, bind, get.
    replace (is_measuring w1) with true by (symmetry; exact Hm).
    reflexivity. }
  split; [exact Hm |]. split; [reflexivity |]. split; [reflexivity |].
  split; [reflexivity |].
  split.
  { apply append_data_ok; [reflexivity | exact Hf1 | discriminate | reflexivity]. }
  split.
  { unfold appended. cbn. rewrite lookup_insert_eq. reflexivity. }
  intros other Hne. unfold appended. cbn.
  rewrite !lookup_insert_ne by congruence. reflexivity.
Qed.

(** An ID-VG start pressed during an ID-VD run. *)
Lemma refused_start_redirects_the_rows_witness :
  is_measuring armed_idvd = true
  /\ path_exists "out" armed_idvd = true
  /\ path_exists (csv_target "out" "dev" "IDVG") armed_idvd = false
  /\ exists w1 w2,
      gui_start_idvg_measurement steady silent 0 "out" "dev" three_point_request
                                 armed_idvd
      = (Val (false, "Measurement already in progress"%string), w1)
      /\ is_measuring w1 = true
      /\ trace w1 = trace armed_idvd
      /\ data_queue w1 = data_queue armed_idvd
      /\ csv_file w1 = Some (csv_target "out" "dev" "IDVG")
      /\ append_data [1; 2; 3]%Q w1 = (Val tt, w2)
      /\ files w2 !! csv_target "out" "dev" "IDVG"
         = Some (Table ["VG (V)"; "IDS (A)"; "IG (A)"]%string
                       [[Num 1; Num 2; Num 3]])
      /\ forall other,
          other <> csv_target "out" "dev" "IDVG" ->
          files w2 !! other = files armed_idvd !! other.
Proof.
  split; [reflexivity |]. split; [vm_compute; reflexivity |].
  split; [vm_compute; reflexivity |].
  apply (refused_start_redirects_the_rows steady silent 0 "out" "dev"
           three_point_request armed_idvd 1 2 3).
  - reflexivity.
  - vm_compute. reflexivity.
  - vm_compute. reflexivity.
Defined.

(** ** Setting up and shutting down the instruments *)

Lemma successes_le (visa : nat -> option string) (n from : nat) :
  (successes visa from n <= n)%nat.
Proof.
  revert from. induction n as [|n IH]; intros from; cbn; [lia |].
  destruct (visa from); [lia |]. specialize (IH (S from)). lia.
Qed.

Lemma successes_app (visa : nat -> option string) (n m from : nat) :
  successes visa from (n + m)
  = if (successes visa from n =? n)%nat
    then (n + successes visa (from + n) m)%nat
    else successes visa from n.
Proof.
  revert from. induction n as [|n IH]; intros from.
  - cbn. rewrite Nat.add_0_r. reflexivity.
  - cbn [Nat.add successes]. destruct (visa from) as [e|]; [reflexivity |].
    rewrite IH. replace (from + S n)%nat with (S from + n)%nat by lia.
    change (S (successes visa (S from) n) =? S n)%nat
      with (successes visa (S from) n =? n)%nat.
    destruct (successes visa (S from) n =? n)%nat; reflexivity.
Qed.

Section Playing.

Variable visa : nat -> option string.
Variable b0 : bench.

Lemma plays_skip : plays visa b0 skip [].
Proof.
  intros b Hb. cbn. rewrite app_nil_r, Nat.add_0_r.
  repeat split; try apply Hb; try reflexivity. intros H. lia.
Qed.

Lemma plays_visa_call (ev : bench_event) :
  plays visa b0 (visa_call visa (went_through ev)) [ev].
Proof.
  intros b Hb. unfold visa_call. cbn [length successes].
  destruct Hb as (H1 & H2 & H3 & H4).
  destruct (visa (visa_calls b)) as [e|] eqn:E; cbn.
  - rewrite app_nil_r, Nat.add_0_r.
    repeat split; try assumption; try lia.
    intros _. exists e. split; [exact E | reflexivity].
  - repeat split; try assumption; try lia.
Qed.

Lemma plays_and_then (s1 s2 : stmt) (e1 e2 : list bench_event) :
  plays visa b0 s1 e1 -> plays visa b0 s2 e2 ->
  plays visa b0 (and_then s1 s2) (e1 ++ e2).
Proof.
  intros P1 P2 b Hb. cbn zeta. rewrite length_app, successes_app.
  destruct (P1 b Hb) as (Hh1 & Hw1 & Hok1 & Hko1).
  pose proof (successes_le visa (length e1) (visa_calls b)) as Hle.
  unfold and_then.
  destruct (Nat.eqb_spec (successes visa (visa_calls b) (length e1)) (length e1))
    as [Hk|Hk].
  - destruct (Hok1 Hk) as [Hf1 Hc1]. rewrite Hk in Hw1, Hc1.
    rewrite firstn_all in Hw1.
    destruct (s1 b) as [[e|] b1]; cbn [fst snd] in *; [discriminate |].
    destruct (P2 b1 Hh1) as (Hh2 & Hw2 & Hok2 & Hko2).
    rewrite Hc1 in Hw2, Hok2, Hko2.
    split; [exact Hh2 |]. split; [| split].
    + rewrite Hw2, Hw1, <- app_assoc. f_equal.
      rewrite take_app_add'; reflexivity.
    + intros H. destruct Hok2 as [-> ->]; [lia |]. split; [reflexivity | lia].
    + intros H. destruct Hko2 as (e & He & Hf); [lia |].
      exists e. rewrite Nat.add_assoc. split; assumption.
  - assert (Hlt : (successes visa (visa_calls b) (length e1) < length e1)%nat) by lia.
    destruct (Hko1 Hlt) as (e & He & Hf).
    destruct (s1 b) as [[e'|] b1]; cbn [fst snd] in *; [| discriminate].
    split; [exact Hh1 |]. split; [| split].
    + rewrite Hw1. f_equal. rewrite take_app_le by lia. reflexivity.
    + intros H. lia.
    + intros _. exists e. split; assumption.
Qed.

Lemma plays_run_all (ss : list stmt) (evs : list (list bench_event)) :
  Forall2 (plays visa b0) ss evs -> plays visa b0 (run_all ss) (List.concat evs).
Proof.
  induction 1 as [|s e ss evs Hs _ IH]; [apply plays_skip |].
  cbn [run_all fold_right List.concat]. apply plays_and_then; assumption.
Qed.

Lemma plays_write (c : channel) (line : scpi) :
  session_of c b0 = true -> plays visa b0 (write visa c line) [Wrote c line].
Proof.
  intros Hc b Hb. unfold write.
  assert (Hs : session_of c b = true).
  { destruct Hb as (_ & H2 & H3 & _). destruct c; cbn in *; congruence. }
  rewrite Hs. apply plays_visa_call. exact Hb.
Qed.

Lemma plays_when (x : bench -> bool) (body : stmt) (evs : list bench_event) :
  (forall b, same_handles b0 b -> x b = x b0) ->
  (x b0 = true -> plays visa b0 body evs) ->
  plays visa b0 (when x body) (if x b0 then evs else []).
Proof.
  intros Hx Hbody b Hb. unfold when. rewrite (Hx b Hb).
  destruct (x b0); [apply Hbody; [reflexivity | exact Hb] | apply plays_skip, Hb].
Qed.

Lemma plays_close (h : handle) : plays visa b0 (close visa h) [Closed h].
Proof. apply plays_visa_call. Qed.

End Playing.

Lemma same_handles_refl (b : bench) : same_handles b b.
Proof. repeat split. Qed.

(** X13.  [initialize_instruments] stops at the first write that fails and
    undoes nothing.  With both sessions open, the lines that went
    through are the first [k] of the fourteen, [k] the number of writes
    that succeed before one fails; the answer is [True] only when all
    fourteen went through, and otherwise carries the text of the failed
    write.  No line ever switches an output off: when the failure comes
    while the gate instrument is set up, the drain output has been
    switched on and stays on. *)
Theorem initialize_instruments_stops_at_first_failure
        (visa : nat -> option string) (vds_limit vg_limit : Q) (b : bench) :
  keithley_vds b = true ->
  keithley_vg b = true ->
  let k := successes visa (visa_calls b) 14 in
  let r := initialize_instruments visa vds_limit vg_limit b in
  wire (snd r) = wire b ++ take k (initialization_script vds_limit vg_limit)
  /\ same_handles b (snd r)
  /\ (k = 14%nat -> fst r = (true, "Instruments initialized successfully"%string))
  /\ ((k < 14)%nat ->
      exists e, visa (visa_calls b + k)%nat = Some e
                /\ fst r = (false, ("Initialization failed: " ++ e)%string))
  /\ ((7 <= k)%nat -> In (Wrote vds OUTP_ON) (wire (snd r)))
  /\ (forall c, ~ In (Wrote c OUTP_OFF)
                   (take k (initialization_script vds_limit vg_limit))).
Proof.
  intros Hd Hg k r.
  assert (P : plays visa b
                (run_all (map (write visa vds) (initialization_lines vds_limit)
                            ++ map (write visa vg) (initialization_lines vg_limit)))
                (initialization_script vds_limit vg_limit)).
  { change (initialization_script vds_limit vg_limit)
      with (List.concat (map (fun ev => [ev])
                             (initialization_script vds_limit vg_limit))).
    apply plays_run_all. cbn.
    repeat (apply List.Forall2_cons; [apply plays_write; assumption |]).
    apply List.Forall2_nil. }
  destruct (P b (same_handles_refl b)) as (Hh & Hw & Hok & Hko).
  change (length (initialization_script vds_limit vg_limit)) with 14%nat in *.
  fold k in Hw, Hok, Hko.
  subst r. unfold initialize_instruments.
  destruct (run_all _ b) as [[e|] b1]; cbn [fst snd] in *.
  - split; [exact Hw |]. split; [exact Hh |]. split; [| split; [| split]].
    + intros Hk. destruct (Hok Hk) as [H _]. discriminate H.
    + intros Hk. destruct (Hko Hk) as (e' & He & [= ->]). exists e'. auto.
    + intros Hk. rewrite Hw. apply in_or_app. right.
      do 7 (destruct k as [|k]; [lia |]). cbn. tauto.
    + intros c Hin. apply list_elem_of_In, elem_of_take in Hin as (i & Hi & _).
      do 14 (destruct i as [|i]; [cbn in Hi; discriminate Hi |]).
      cbn in Hi. discriminate Hi.
  - split; [exact Hw |]. split; [exact Hh |]. split; [| split; [| split]].
    + reflexivity.
    + intros Hk. destruct (Hko Hk) as (e' & _ & H). discriminate H.
    + intros Hk. rewrite Hw. apply in_or_app. right.
      do 7 (destruct k as [|k]; [lia |]). cbn. tauto.
    + intros c Hin. apply list_elem_of_In, elem_of_take in Hin as (i & Hi & _).
      do 14 (destruct i as [|i]; [cbn in Hi; discriminate Hi |]).
      cbn in Hi. discriminate Hi.
Qed.

(** The fourth line for the gate instrument times out. *)
Lemma initialize_instruments_stops_at_first_failure_witness :
  keithley_vds connected_bench = true
  /\ keithley_vg connected_bench = true
  /\ (let k := successes (fails_at 10) (visa_calls connected_bench) 14 in
      let r := initialize_instruments (fails_at 10) (1 # 8) (1 # 8) connected_bench in
      wire (snd r)
      = wire connected_bench ++ take k (initialization_script (1 # 8) (1 # 8))
      /\ same_handles connected_bench (snd r)
      /\ (k = 14%nat -> fst r = (true, "Instruments initialized successfully"%string))
      /\ ((k < 14)%nat ->
          exists e, fails_at 10 (visa_calls connected_bench + k)%nat = Some e
                    /\ fst r = (false, ("Initialization failed: " ++ e)%string))
      /\ ((7 <= k)%nat -> In (Wrote vds OUTP_ON) (wire (snd r)))
      /\ (forall c, ~ In (Wrote c OUTP_OFF)
                       (take k (initialization_script (1 # 8) (1 # 8))))).
Proof.
  split; [reflexivity |]. split; [reflexivity |].
  apply (initialize_instruments_stops_at_first_failure
           (fails_at 10) (1 # 8) (1 # 8) connected_bench); reflexivity.
Defined.

(** X14.  [disconnect] stops at the first call that fails.  What went through
    is the first [k] steps of the shut-down of the handles held (output
    off, reset and close for the drain instrument, the same for the gate
    instrument, then the resource manager), [k] the number of calls that
    succeed before one fails.  Only when every step went through is
    [is_connected] cleared; otherwise it keeps its value, the error is
    printed, not raised, and the remaining steps are not attempted: a
    failure on the drain instrument leaves the gate output as it was.
    No handle is dropped in either case. *)
Theorem disconnect_stops_at_first_failure (visa : nat -> option string) (b : bench) :
  let k := successes visa (visa_calls b) (length (shutdown_script b)) in
  let r := disconnect visa b in
  wire (snd r) = wire b ++ take k (shutdown_script b)
  /\ rm (snd r) = rm b
  /\ keithley_vds (snd r) = keithley_vds b
  /\ keithley_vg (snd r) = keithley_vg b
  /\ (k = length (shutdown_script b) ->
      fst r = None /\ is_connected (snd r) = false)
  /\ ((k < length (shutdown_script b))%nat ->
      is_connected (snd r) = is_connected b
      /\ (forall line, (k < 3)%nat -> keithley_vds b = true ->
                         ~ In (Wrote vg line) (take k (shutdown_script b)))
      /\ exists e, visa (visa_calls b + k)%nat = Some e
                   /\ fst r = Some ("Disconnect error: " ++ e)%string).
Proof.
  intros k r.
  assert (P : plays visa b
                (run_all
                   [when keithley_vds
                         (run_all [write visa vds OUTP_OFF; write visa vds RST;
                                   close visa (session vds)]);
                    when keithley_vg
                         (run_all [write visa vg OUTP_OFF; write visa vg RST;
                                   close visa (session vg)]);
                    when rm (close visa resource_manager)])
                (shutdown_script b)).
  { replace (shutdown_script b)
      with (List.concat
              [if keithley_vds b
               then List.concat [[Wrote vds OUTP_OFF]; [Wrote vds RST];
                                 [Closed (session vds)]] else [];
               if keithley_vg b
               then List.concat [[Wrote vg OUTP_OFF]; [Wrote vg RST];
                                 [Closed (session vg)]] else [];
               if rm b then [Closed resource_manager] else []])
      by (unfold shutdown_script; cbn; rewrite app_nil_r; reflexivity).
    apply plays_run_all.
    apply List.Forall2_cons; [| apply List.Forall2_cons;
                                 [| apply List.Forall2_cons; [| apply List.Forall2_nil]]].
    - apply plays_when; [intros b' Hb'; apply Hb' |]. intros Hx.
      apply plays_run_all.
      repeat (apply List.Forall2_cons;
              [first [apply plays_write; exact Hx | apply plays_close] |]).
      apply List.Forall2_nil.
    - apply plays_when; [intros b' Hb'; apply Hb' |]. intros Hx.
      apply plays_run_all.
      repeat (apply List.Forall2_cons;
              [first [apply plays_write; exact Hx | apply plays_close] |]).
      apply List.Forall2_nil.
    - apply plays_when; [intros b' Hb'; apply Hb' |]. intros _.
      apply plays_close. }
  destruct (P b (same_handles_refl b)) as ((H1 & H2 & H3 & H4) & Hw & Hok & Hko).
  fold k in Hw, Hok, Hko.
  subst r. unfold disconnect.
  destruct (run_all _ b) as [[e|] b1]; cbn [fst snd rm keithley_vds keithley_vg
                                             is_connected wire] in *.
  - split; [exact Hw |]. do 3 (split; [assumption |]). split.
    + intros Hk. destruct (Hok Hk) as [H _]. discriminate H.
    + intros Hk. split; [assumption |]. split.
      * intros line Hk3 Hvds Hin.
        apply list_elem_of_In, elem_of_take in Hin as (i & Hi & Hlt).
        unfold shutdown_script in Hi. rewrite Hvds in Hi.
        do 3 (destruct i as [|i]; [cbn in Hi; discriminate Hi |]). lia.
      * destruct (Hko Hk) as (e' & He & [= ->]). exists e'. auto.
  - split; [exact Hw |]. do 3 (split; [assumption |]). split.
    + intros _. split; reflexivity.
    + intros Hk. destruct (Hko Hk) as (e' & _ & H). discriminate H.
Qed.

(** ** What a run puts on the queue and into the file *)

Lemma during_run_not_closing (m : message) : during_run m -> ~ closing m.
Proof.
  destruct m as [point|e|s]; cbn; intros H [Hc | [e' Hc]]; try discriminate;
    try contradiction.
  destruct H as [e'' ->]. cbn in Hc. discriminate Hc.
Qed.

Lemma rows_announced_app (a b : list message) :
  rows_announced (a ++ b) = rows_announced a ++ rows_announced b.
Proof. unfold rows_announced. apply flat_map_app. Qed.

Lemma announces_refl (w : world) : announces w w.
Proof.
  exists [], []. rewrite !app_nil_r.
  repeat split; try reflexivity; constructor.
Qed.

Lemma announces_same (w w1 w2 : world) :
  data_queue w2 = data_queue w1 ->
  appended_rows (trace w2) = appended_rows (trace w1) ->
  announces w w1 -> announces w w2.
Proof.
  intros Hq Ht (msgs & saved & H1 & H2 & H3 & H4).
  exists msgs, saved. rewrite Hq, Ht. auto.
Qed.

Lemma announces_message (w w1 : world) (m : message) :
  during_run m -> announces w w1 -> announces w (enqueue m w1).
Proof.
  intros Hm (msgs & saved & H1 & H2 & H3 & H4).
  exists (msgs ++ [m]), saved. cbn. rewrite H1, <- app_assoc.
  split; [reflexivity |]. split; [| split; [exact H3 |]].
  - apply Forall_app. split; [exact H2 | repeat constructor; exact Hm].
  - rewrite rows_announced_app. apply sublist_inserts_r. exact H4.
Qed.

Lemma announces_block (controller : nat -> option control) (w w1 : world) :
  announces w w1 -> announces w (block controller w1).
Proof.
  apply announces_same.
  - apply block_frame.
  - unfold block, request.
    destruct (controller (clock w1)) as [[| | |sd fn mt]|]; simpl;
      rewrite ?appended_rows_app; simpl; rewrite ?app_nil_r; try reflexivity.
    destruct (initialize_csv_frame sd fn mt (set_clock (S (clock w1)) w1))
      as (Ht & _).
    destruct (is_measuring _); simpl; rewrite Ht; reflexivity.
Qed.

Lemma announces_row (w w1 : world) (path : string) (t : table) (point : data_point) :
  announces w w1 ->
  announces w (appended path t (row_of point) (enqueue (Data point) w1)).
Proof.
  intros (msgs & saved & H1 & H2 & H3 & H4).
  exists (msgs ++ [Data point]), (saved ++ [map Num (row_of point)]).
  unfold appended. cbn. rewrite H1, <- app_assoc, appended_rows_app, H3, <- app_assoc.
  split; [reflexivity |]. split; [| split; [reflexivity |]].
  - apply Forall_app. split; [exact H2 | repeat constructor].
  - rewrite rows_announced_app. apply sublist_app; [exact H4 | reflexivity].
Qed.

Section Record.

Variable transport : nat -> reply.
Variable controller : nat -> option control.

Lemma run_record_of_loop (w : world) (outer inner : result (list Q))
      (loop : list Q -> list Q -> M unit) :
  outer <> Hang -> inner <> Hang ->
  (forall a b, preserves (announces w) (loop a b)) ->
  run_record w
    (try_finally
       (try_except
          (a <- lift outer ;;
           b <- lift inner ;;
           modify (set_current_point 0) ;;
           loop a b ;;
           modify (enqueue (Complete "Measurement completed successfully")))
          (fun e => modify (enqueue (Error ("Measurement failed: " ++ e)%string))))
       (set_is_measuring false) w).
Proof.
  intros Ho Hi Hloop.
  assert (Hfail : forall e,
             run_record w
               (Val tt, set_is_measuring false
                          (enqueue (Error ("Measurement failed: " ++ e)%string) w))).
  { intros e. exists [], [], [Error ("Measurement failed: " ++ e)%string].
    cbn. rewrite app_nil_r.
    repeat split; try reflexivity; try constructor.
    eexists. split; [reflexivity |]. right. exists e. reflexivity. }
  destruct outer as [a|e|]; [| apply Hfail | contradiction].
  destruct inner as [b|e|]; [| apply Hfail | contradiction].
  unfold try_finally, try_except, bind, lift, modify. cbn.
  pose proof (Hloop a b (set_current_point 0 w)
                (announces_same w w _ eq_refl eq_refl (announces_refl w))) as Hrun.
  destruct (loop a b (set_current_point 0 w)) as [[[]|e|] w1];
    cbn [fst snd] in *; destruct Hrun as (msgs & saved & H1 & H2 & H3 & H4).
  - exists msgs, saved, [Complete "Measurement completed successfully"].
    cbn [fst snd data_queue trace set_is_measuring enqueue]. rewrite H1, H3, app_assoc.
    repeat split; try reflexivity; try assumption.
    + eapply Forall_impl; [exact H2 | apply during_run_not_closing].
    + eexists. split; [reflexivity | left; reflexivity].
  - exists msgs, saved, [Error ("Measurement failed: " ++ e)%string].
    cbn [fst snd data_queue trace set_is_measuring enqueue]. rewrite H1, H3, app_assoc.
    repeat split; try reflexivity; try assumption.
    + eapply Forall_impl; [exact H2 | apply during_run_not_closing].
    + eexists. split; [reflexivity | right; exists e; reflexivity].
  - exists msgs, saved, [].
    cbn [fst snd data_queue trace set_is_measuring enqueue].
    rewrite H1, H3, app_nil_r.
    repeat split; try reflexivity; try assumption.
    eapply Forall_impl; [exact H2 | apply during_run_not_closing].
Qed.

End Record.

(** X15.  A run puts on the queue its points and the errors of its points,
    then exactly one closing message, last, when it returns (none while
    it is still polling a pause).  Every row it saves is the row of a
    point it has put on the queue, and the rows are saved in the order
    of the queue, each point at most once: the rows saved are a
    sub-sequence of the rows of the points sent to the consumer, so the
    file never holds a point the consumer was not sent. *)
Theorem saved_rows_were_announced
        (transport : nat -> reply) (controller : nat -> option control)
        (polls : nat) (p : params) (w : world) :
  run_record w (_idvd_measurement_worker transport controller polls p w)
  /\ run_record w (_idvg_measurement_worker transport controller polls p w).
Proof.
  assert (A_log : forall a w1, (forall r, a <> Append r) ->
                               announces w w1 -> announces w (log a w1)).
  { intros a w1 Ha. apply announces_same; [reflexivity |].
    cbn. rewrite appended_rows_app.
    destruct a; cbn; rewrite ?app_nil_r; try reflexivity.
    exfalso. eapply Ha. reflexivity. }
  assert (A_data : forall point w1, announces w w1 ->
                                    announces w (enqueue (Data point) w1)).
  { intros point w1. apply announces_message. exact Logic.I. }
  assert (A_error : forall e w1,
             announces w w1 ->
             announces w (enqueue (Error ("Measurement error: " ++ e)%string) w1)).
  { intros e w1. apply announces_message. exists e. reflexivity. }
  assert (A_counter : forall c w1, announces w w1 ->
                                   announces w (set_current_point c w1)).
  { intros c w1. apply announces_same; reflexivity. }
  assert (A_io : forall n w1, announces w w1 -> announces w (set_io_calls n w1)).
  { intros n w1. apply announces_same; reflexivity. }
  assert (A_block : forall w1, announces w w1 -> announces w (block controller w1)).
  { intros w1. apply announces_block. }
  assert (A_row : forall path t point w1,
             csv_file w1 = Some path -> files w1 !! path = Some t ->
             announces w w1 ->
             announces w (appended path t (row_of point) (enqueue (Data point) w1))).
  { intros path t point w1 _ _. apply announces_row. }
  destruct p as [[[vg_from vg_to] vg_step] [[vds_from vds_to] vds_step] [d1 d2]].
  split.
  - unfold _idvd_measurement_worker. cbn [vg_range vds_range delays].
    apply (run_record_of_loop w
             (sweep_values vg_from vg_to vg_step)
             (sweep_values vds_from vds_to vds_step)
             (fun vg_values inner =>
                for_each (idvd_gate_hold transport controller polls vds_from vds_to
                            vds_step d1 d2 (Py.len vg_values * Py.len inner * 2))
                         vg_values));
      try apply sweep_values_not_hang.
    intros a b. apply preserves_for_each. intros x.
    apply preserves_idvd_gate_hold; assumption.
  - unfold _idvg_measurement_worker. cbn [vg_range vds_range delays].
    apply (run_record_of_loop w
             (sweep_values vds_from vds_to vds_step)
             (sweep_values vg_from vg_to vg_step)
             (fun vds_values inner =>
                for_each (idvg_drain_hold transport controller polls vg_from vg_to
                            vg_step d1 d2 (Py.len vds_values * Py.len inner))
                         vds_values));
      try apply sweep_values_not_hang.
    intros a b. apply preserves_for_each. intros x.
    apply preserves_idvg_drain_hold; assumption.
Qed.

(** ** The order of the drain reading and the gate command *)

Lemma gate_at_drain_reads_idvg_actions (transport : nat -> reply) (vg_delay : Q)
      (l : list Q) :
  forall (io : nat) (gate : option Q),
    gate_at_drain_reads gate (idvg_actions transport vg_delay io l)
    = take (length l) (gate :: map Some l).
Proof.
  induction l as [|v rest IH]; intros io gate; [reflexivity |].
  cbn [idvg_actions app gate_at_drain_reads length map take].
  rewrite IH. reflexivity.
Qed.

Lemma swept_column_idvg_actions (transport : nat -> reply) (vg_delay : Q)
      (l : list Q) :
  forall io : nat,
    swept_column (appended_rows (idvg_actions transport vg_delay io l))
    = map (fun v => Some (Num v)) l.
Proof.
  induction l as [|v rest IH]; intros io; [reflexivity |].
  cbn [idvg_actions app]. unfold swept_column, appended_rows in *.
  cbn [flat_map app map head]. rewrite IH. reflexivity.
Qed.

(** X16.  In an error-free, uninterrupted gate sweep of the ID-VG worker the
    drain current of a point is read before the gate is commanded to
    the value of that point.  The rows saved carry the values of the
    sweep, one each, in order; but when the drain is read for the k-th
    row the gate is still at the value of row k - 1, and for the first
    row at whatever it was before the sweep. *)
Theorem idvg_sweep_reads_drain_before_gate_moves
        (transport : nat -> reply) (controller : nat -> option control)
        (path : string) (polls : nat) (vds_hold : Q) (total : Z) (vg_delay : Q)
        (l : list Q) (w : world) (gate : option Q) :
  healthy transport ->
  quiet controller ->
  ready path w ->
  total <> 0 ->
  (0 <= vg_delay)%Q ->
  exists w' acts,
    for_each (idvg_point transport controller polls vds_hold total vg_delay) l w
    = (Val tt, w')
    /\ worker_actions (trace w') = worker_actions (trace w) ++ acts
    /\ swept_column (appended_rows acts) = map (fun v => Some (Num v)) l
    /\ gate_at_drain_reads gate acts = take (length l) (gate :: map Some l).
Proof.
  intros Hh Hq Hr Htot Hd.
  destruct (idvg_sweep_nominal transport controller Hh Hq path polls vds_hold total
              vg_delay l Htot Hd w Hr)
    as (w' & Hrun & (_ & _ & _ & _ & _ & Ht & _)).
  exists w', (idvg_actions transport vg_delay (io_calls w) l).
  split; [exact Hrun |]. split; [exact Ht |]. split.
  - apply swept_column_idvg_actions.
  - apply gate_at_drain_reads_idvg_actions.
Qed.

(** Three gate values after a drain hold that left the gate untouched. *)
Lemma idvg_sweep_reads_drain_before_gate_moves_witness :
  healthy steady
  /\ quiet silent
  /\ ready "out/dev-IDVG.csv" armed_idvg
  /\ 3 <> 0
  /\ (0 <= 1 # 4)%Q
  /\ exists w' acts,
      for_each (idvg_point steady silent 0 0 3 (1 # 4)) three_gate_values armed_idvg
      = (Val tt, w')
      /\ worker_actions (trace w') = worker_actions (trace armed_idvg) ++ acts
      /\ swept_column (appended_rows acts)
         = map (fun v => Some (Num v)) three_gate_values
      /\ gate_at_drain_reads None acts
         = take (length three_gate_values) (None :: map Some three_gate_values).
Proof.
  split; [exact steady_healthy |]. split; [exact silent_quiet |].
  split; [exact ready_armed_idvg |]. split; [lia |].
  split; [unfold Qle; simpl; lia |].
  apply (idvg_sweep_reads_drain_before_gate_moves steady silent "out/dev-IDVG.csv"
           0 0 3 (1 # 4) three_gate_values armed_idvg None).
  - exact steady_healthy.
  - exact silent_quiet.
  - exact ready_armed_idvg.
  - lia.
  - unfold Qle. simpl. lia.
Defined.

(** ** A fault during a ramp *)

Section RampFault.

Variable transport : nat -> reply.
Variable controller : nat -> option control.




End RampFault.



(** On the second bus the gate ramp of the ID-VD worker sent its voltage
    command and nothing else. *)
Lemma write_fault_sends_the_first_command_only :
  map (fun a => match a with
                | SourVolt c v => Some (c, Qred v)
                | _ => None
                end)
      (worker_actions
         (trace (snd (_idvd_measurement_worker second_write_fails silent 0
                        from_one_request armed_idvd))))
  = [Some (vg, 0%Q)].
Proof. vm_compute. reflexivity. Qed.

(** ** Runs on instruments that answer *)

Section Answered.

Variable transport : nat -> reply.
Variable controller : nat -> option control.
Hypothesis transport_healthy : healthy transport.

Lemma never_raises_ret {A} (a : A) : never_raises (ret a).
Proof. intros w e. discriminate. Qed.

Lemma never_raises_get {A} (f : world -> A) : never_raises (get f).
Proof. intros w e. discriminate. Qed.

Lemma never_raises_modify (f : world -> world) : never_raises (modify f).
Proof. intros w e. discriminate. Qed.

Lemma never_raises_hang {A} : never_raises (@hang A).
Proof. intros w e. discriminate. Qed.

Lemma never_raises_bind {A B} (c : M A) (k : A -> M B) :
  never_raises c -> (forall a, never_raises (k a)) -> never_raises (bind c k).
Proof.
  intros Hc Hk w e. unfold bind. specialize (Hc w).
  destruct (c w) as [[a|e'|] w1]; simpl in *;
    [apply Hk | exfalso; exact (Hc e' eq_refl) | discriminate].
Qed.

(** A handler that raises nothing makes the statement raise nothing. *)
Lemma never_raises_handled {A} (body : M A) (handler : string -> M A) :
  (forall e, never_raises (handler e)) -> never_raises (try_except body handler).
Proof.
  intros Hh w e. unfold try_except.
  destruct (body w) as [[a|e'|] w1]; simpl; [discriminate | apply Hh | discriminate].
Qed.

(** A body that raises nothing never reaches the handler. *)
Lemma never_raises_try {A} (body : M A) (handler : string -> M A) :
  never_raises body -> never_raises (try_except body handler).
Proof.
  intros Hb w e. unfold try_except. specialize (Hb w).
  destruct (body w) as [[a|e'|] w1]; simpl in *;
    [discriminate | exfalso; exact (Hb e' eq_refl) | discriminate].
Qed.

Lemma never_raises_for_each {A} (body : A -> M loop_exit) (l : list A) :
  (forall x, never_raises (body x)) -> never_raises (for_each body l).
Proof.
  intros Hb. induction l as [|x rest IH]; [apply never_raises_ret |].
  cbn [for_each]. apply never_raises_bind; [apply Hb |].
  intros [|]; [exact IH | apply never_raises_ret].
Qed.

Lemma never_raises_sleep (d : Q) : (0 <= d)%Q -> never_raises (sleep controller d).
Proof.
  intros Hd w e. unfold sleep.
  rewrite (proj2 (Qle_bool_iff 0 d) Hd). discriminate.
Qed.

Lemma never_raises_channel_call (cmds : list action) :
  never_raises (channel_call transport controller cmds).
Proof.
  intros w e. unfold channel_call.
  destruct (transport_healthy (io_calls w)) as [r ->]. discriminate.
Qed.

Lemma never_raises_set_voltage_and_read (instrument : channel) (voltage : Q) :
  never_raises (set_voltage_and_read transport controller instrument voltage).
Proof. apply never_raises_try, never_raises_channel_call. Qed.

Lemma never_raises_ramp_loop (instrument : channel)
      (current_voltage voltage_step delay : Q) (indices : list nat) :
  (0 <= delay)%Q ->
  never_raises (ramp_loop transport controller instrument current_voltage
                          voltage_step delay 10 indices).
Proof.
  intros Hd. induction indices as [|i rest IH]; [apply never_raises_ret |].
  cbn [ramp_loop].
  apply never_raises_bind; [apply never_raises_set_voltage_and_read | intros _].
  rewrite truediv_10. unfold bind at 1, lift at 1.
  intros w. apply never_raises_bind; [| intros _; exact IH].
  apply never_raises_sleep, tenth_nonneg, Hd.
Qed.

Lemma never_raises_set_voltage_gradually (instrument : channel) (target delay : Q) :
  (0 <= delay)%Q ->
  never_raises (_set_voltage_gradually transport controller instrument target delay).
Proof.
  intros Hd. unfold _set_voltage_gradually. apply never_raises_try. cbv zeta.
  match goal with |- context [negb ?b] => destruct (negb b) end;
    [| apply never_raises_ret].
  rewrite truediv_10. intros w. unfold bind at 1, lift at 1.
  apply never_raises_ramp_loop, Hd.
Qed.

Lemma never_raises_pause_wait (polls : nat) :
  never_raises (pause_wait controller polls).
Proof.
  induction polls as [|n IH]; cbn [pause_wait];
    (apply never_raises_bind; [apply never_raises_get | intros p]);
    destruct p; try apply never_raises_ret; [apply never_raises_hang |].
  apply never_raises_bind; [apply never_raises_sleep; discriminate | intros _].
  apply never_raises_bind; [apply never_raises_get | intros m].
  destruct (negb m); [apply never_raises_ret | exact IH].
Qed.

(** A point raises nothing, whatever goes wrong in it. *)
Lemma never_raises_point {A} (polls : nat) (work : M A) (k : A -> M loop_exit) :
  never_raises
    (m <- get is_measuring ;;
     if negb m then ret Break else
     pause_wait controller polls ;;
     try_except (a <- work ;; k a)
       (fun e => modify (enqueue (Error ("Measurement error: " ++ e)%string)) ;;
                 ret Break)).
Proof.
  apply never_raises_bind; [apply never_raises_get | intros m].
  destruct (negb m); [apply never_raises_ret |].
  apply never_raises_bind; [apply never_raises_pause_wait | intros _].
  apply never_raises_handled. intros e.
  apply never_raises_bind; [apply never_raises_modify | intros _].
  apply never_raises_ret.
Qed.

Lemma never_raises_idvd_gate_hold (polls : nat)
      (vds_from vds_to vds_step vg_delay vds_delay : Q) (total : Z) (vg_now : Q)
      (inner : list Q) :
  sweep_values vds_from vds_to vds_step = Val inner ->
  (0 <= vg_delay)%Q ->
  never_raises (idvd_gate_hold transport controller polls vds_from vds_to vds_step
                               vg_delay vds_delay total vg_now).
Proof.
  intros Hin Hd. unfold idvd_gate_hold.
  apply never_raises_bind; [apply never_raises_get | intros m].
  destruct (negb m); [apply never_raises_ret |].
  apply never_raises_bind;
    [apply never_raises_set_voltage_gradually, Hd | intros _].
  rewrite Hin. intros w. unfold bind at 1, lift at 1. revert w.
  apply never_raises_bind;
    [apply never_raises_for_each; intros x;
     apply (never_raises_point polls
              (set_voltage_and_read transport controller vds x)) | intros _].
  apply never_raises_bind;
    [apply never_raises_for_each; intros x;
     apply (never_raises_point polls
              (set_voltage_and_read transport controller vds x)) | intros _].
  apply never_raises_bind; [apply never_raises_set_voltage_and_read | intros _].
  apply never_raises_bind; [apply never_raises_sleep, Hd | intros _].
  apply never_raises_ret.
Qed.

Lemma never_raises_idvg_drain_hold (polls : nat)
      (vg_from vg_to vg_step vds_delay vg_delay : Q) (total : Z) (vds_now : Q)
      (inner : list Q) :
  sweep_values vg_from vg_to vg_step = Val inner ->
  (0 <= vds_delay)%Q ->
  never_raises (idvg_drain_hold transport controller polls vg_from vg_to vg_step
                                vds_delay vg_delay total vds_now).
Proof.
  intros Hin Hd. unfold idvg_drain_hold.
  apply never_raises_bind; [apply never_raises_get | intros m].
  destruct (negb m); [apply never_raises_ret |].
  apply never_raises_bind;
    [apply never_raises_set_voltage_gradually, Hd | intros _].
  rewrite Hin. intros w. unfold bind at 1, lift at 1. revert w.
  apply never_raises_bind;
    [apply never_raises_for_each; intros x;
     apply (never_raises_point polls (read_current transport controller vds))
    | intros _].
  apply never_raises_bind; [apply never_raises_sleep, Hd | intros _].
  apply never_raises_ret.
Qed.

Lemma closes_as_completed_of_loop (w : world) (a b : list Q)
      (loop : list Q -> list Q -> M unit) :
  never_raises (loop a b) ->
  closes_as_completed
    (try_finally
       (try_except
          (a <- lift (Val a) ;;
           b <- lift (Val b) ;;
           modify (set_current_point 0) ;;
           loop a b ;;
           modify (enqueue (Complete "Measurement completed successfully")))
          (fun e => modify (enqueue (Error ("Measurement failed: " ++ e)%string))))
       (set_is_measuring false) w).
Proof.
  intros Hloop. unfold try_finally, try_except, bind, lift, modify. cbn.
  specialize (Hloop (set_current_point 0 w)).
  destruct (loop a b (set_current_point 0 w)) as [[[]|e|] w1]; cbn [fst snd] in *.
  - right. split; [reflexivity |]. eexists. reflexivity.
  - exfalso. exact (Hloop e eq_refl).
  - left. reflexivity.
Qed.

End Answered.

(** X18.  On instruments that answer every call, with ranges that are accepted
    and a hold delay (the first of the two delays) that is not negative,
    a run always closes as completed, whatever the operator does and
    whatever happens to the file: when the worker returns, the last
    message on the queue is "Measurement completed successfully", also
    when the run was stopped half way or when no row could be saved. *)
Theorem answered_run_closes_as_completed
        (transport : nat -> reply) (controller : nat -> option control)
        (polls : nat) (p : params) (w : world) (gs ds : list Q) :
  healthy transport ->
  sweep_of (vg_range p) = Val gs ->
  sweep_of (vds_range p) = Val ds ->
  (0 <= fst (delays p))%Q ->
  closes_as_completed (_idvd_measurement_worker transport controller polls p w)
  /\ closes_as_completed (_idvg_measurement_worker transport controller polls p w).
Proof.
  intros Hh Hg Hd H1.
  destruct p as [[[vg_from vg_to] vg_step] [[vds_from vds_to] vds_step] [d1 d2]].
  cbn [sweep_of vg_range vds_range delays fst snd] in *.
  split.
  - unfold _idvd_measurement_worker. cbn [vg_range vds_range delays].
    rewrite Hg, Hd.
    apply (closes_as_completed_of_loop w gs ds
             (fun vg_values inner =>
                for_each (idvd_gate_hold transport controller polls vds_from vds_to
                            vds_step d1 d2 (Py.len vg_values * Py.len inner * 2))
                         vg_values)).
    apply never_raises_for_each. intros x.
    apply (never_raises_idvd_gate_hold transport controller Hh polls vds_from vds_to
             vds_step d1 d2 _ x ds Hd H1).
  - unfold _idvg_measurement_worker. cbn [vg_range vds_range delays].
    rewrite Hg, Hd.
    apply (closes_as_completed_of_loop w ds gs
             (fun vds_values inner =>
                for_each (idvg_drain_hold transport controller polls vg_from vg_to
                            vg_step d1 d2 (Py.len vds_values * Py.len inner))
                         vds_values)).
    apply never_raises_for_each. intros x.
    apply (never_raises_idvg_drain_hold transport controller Hh polls vg_from vg_to
             vg_step d1 d2 _ x gs Hg H1).
Qed.

(** A run stopped during the settle sleep of its first point. *)
Lemma answered_run_closes_as_completed_witness :
  healthy steady
  /\ sweep_of (vg_range three_point_request) = Val (Py.linspace_samples 0 2 3)
  /\ sweep_of (vds_range three_point_request) = Val [0%Q]
  /\ (0 <= fst (delays three_point_request))%Q
  /\ closes_as_completed
       (_idvd_measurement_worker steady stop_after_first_point 0 three_point_request
                                 armed_idvd)
  /\ closes_as_completed
       (_idvg_measurement_worker steady stop_after_first_point 0 three_point_request
                                 armed_idvd).
Proof.
  split; [exact steady_healthy |]. split; [reflexivity |]. split; [reflexivity |].
  split; [unfold Qle; simpl; lia |].
  apply (answered_run_closes_as_completed steady stop_after_first_point 0
           three_point_request armed_idvd (Py.linspace_samples 0 2 3) [0%Q]).
  - exact steady_healthy.
  - reflexivity.
  - reflexivity.
  - unfold Qle. simpl. lia.
Defined.

(** ** A run from the Start button to the file *)





Section FromStart.

Variable transport : nat -> reply.
Variable controller : nat -> option control.
Hypothesis transport_healthy : healthy transport.
Hypothesis controller_quiet : quiet controller.



End FromStart.




